(** * Dependency-vulnerability scan of bolt.diy: a shallow embedding

    The development follows three source units:
    - the manifest parsers, whose text follows the type declarations of
      [app/types/osv.ts] (version cleaning, npm manifest parsing, manifest
      detection),
    - [app/lib/security/osv-client.ts] (severity classification, conversion
      of OSV records, batched queries),
    - the OSV scan route (the [action] handler and [calculateStats]).

    Calls to [console] only log and are left out.

    JavaScript strings are sequences of UTF-16 code units; they are modelled
    as lists of code units ([N]).  JavaScript numbers are modelled by
    [number]: NaN, the two infinities and the rationals (every finite double
    is a rational).  Built-ins whose full behaviour is outside the repository
    ([toUpperCase], [toLowerCase], [parseFloat], [JSON.parse]) are fields of
    the class [JsRuntime]; the remote OSV service is the class [OsvService]. *)

From Stdlib Require Import List NArith ZArith QArith Bool Ascii String Lia.
From Stdlib Require Import DecimalString.
Import ListNotations.

Set Warnings "-register-all".
Close Scope Q_scope.
Local Open Scope list_scope.
Local Open Scope bool_scope.

(* ================================================================= *)
(** ** JavaScript strings *)

Module Js.

Definition char := N.
Definition jsstring := list char.

Definition ch (a : ascii) : char := N_of_ascii a.

(** [u "abc"] is the JavaScript string literal ['abc']. *)
Definition u (s : string) : jsstring := map ch (list_ascii_of_string s).

Definition char_in (cs : list char) (c : char) : bool :=
  existsb (N.eqb c) cs.

(** ECMAScript LineTerminator: LF, CR, LS, PS. *)
Definition is_line_terminator (c : char) : bool :=
  char_in [10; 13; 8232; 8233]%N c.

(** ECMAScript WhiteSpace and LineTerminator: what [\s] matches and what
    [String.prototype.trim] removes. *)
Definition is_ws (c : char) : bool :=
  char_in [9; 10; 11; 12; 13; 32; 160; 5760; 8192; 8193; 8194; 8195; 8196;
           8197; 8198; 8199; 8200; 8201; 8202; 8232; 8233; 8239; 8287; 12288;
           65279]%N c.

(** The regular-expression atom [.] (no [s] flag). *)
Definition dot (c : char) : bool := negb (is_line_terminator c).

Definition lit (a : ascii) (c : char) : bool := N.eqb c (ch a).

Fixpoint dropWhile (p : char -> bool) (s : jsstring) : jsstring :=
  match s with
  | [] => []
  | c :: s' => if p c then dropWhile p s' else s
  end.

(** [s.trim()] *)
Definition trim (s : jsstring) : jsstring :=
  rev (dropWhile is_ws (rev (dropWhile is_ws s))).

Fixpoint starts_with (pre s : jsstring) : bool :=
  match pre, s with
  | [], _ => true
  | _ :: _, [] => false
  | a :: pre', c :: s' => N.eqb a c && starts_with pre' s'
  end.

(** [s.includes(needle)] *)
Fixpoint includes (needle s : jsstring) : bool :=
  starts_with needle s ||
  match s with
  | [] => false
  | _ :: s' => includes needle s'
  end.

Definition eqb (a b : jsstring) : bool :=
  if list_eq_dec N.eq_dec a b then true else false.

(** Truthiness of a string: non-empty. *)
Definition truthy (s : jsstring) : bool :=
  match s with [] => false | _ :: _ => true end.

(** [s.substring(0, n)] *)
Definition substring0 (n : nat) (s : jsstring) : jsstring := firstn n s.

End Js.

Import Js.

(* ================================================================= *)
(** ** A backtracking matcher for the regular expressions of the source *)

Module Regex.

(** The expressions used by the source are sequences of single-character
    classes, greedy stars of such classes, and the end anchor [$]. *)
Inductive item : Type :=
| Chr (p : char -> bool)
| Star (p : char -> bool)
| Eos.

Definition regex := list item.

(** [c+] is [c c*]. *)
Definition plus (p : char -> bool) : regex := [Chr p; Star p].

(** Match [re] at the start of [s]; the greedy star backtracks.  The result
    is what remains of [s] after the match. *)
Fixpoint match_here (re : regex) : jsstring -> option jsstring :=
  match re with
  | [] => fun s => Some s
  | Chr p :: re' =>
      fun s =>
        match s with
        | c :: s' => if p c then match_here re' s' else None
        | [] => None
        end
  | Star p :: re' =>
      fix star (s : jsstring) : option jsstring :=
        match s with
        | c :: s' =>
            if p c then
              match star s' with
              | Some r => Some r
              | None => match_here re' s
              end
            else match_here re' s
        | [] => match_here re' []
        end
  | Eos :: re' =>
      fun s =>
        match s with
        | [] => match_here re' []
        | _ :: _ => None
        end
  end.

(** Leftmost match: the text before the match and the text after it. *)
Fixpoint search (re : regex) (s : jsstring) : option (jsstring * jsstring) :=
  match match_here re s with
  | Some rest => Some ([], rest)
  | None =>
      match s with
      | [] => None
      | c :: s' =>
          match search re s' with
          | Some (before, rest) => Some (c :: before, rest)
          | None => None
          end
      end
  end.

(** [s.replace(/re/, repl)] for an expression without the [g] flag. *)
Definition replace (re : regex) (repl s : jsstring) : jsstring :=
  match search re s with
  | Some (before, rest) => before ++ repl ++ rest
  | None => s
  end.

(** [s.replace(/^re/, repl)] *)
Definition replace_anchored (re : regex) (repl s : jsstring) : jsstring :=
  match match_here re s with
  | Some rest => repl ++ rest
  | None => s
  end.

(** [s.split(/re/)[0]] for an expression that consumes at least one
    character: the text before the leftmost match, or all of [s]. *)
Definition split_first (re : regex) (s : jsstring) : jsstring :=
  match search re s with
  | Some (before, _) => before
  | None => s
  end.

End Regex.

Import Regex.

(* ================================================================= *)
(** ** manifest-parsers.ts: cleanVersion *)

(** [/^[\^~>=<]+/] *)
Definition is_constraint (c : char) : bool :=
  char_in [ch "^"; ch "~"; ch ">"; ch "="; ch "<"] c.
Definition re_constraint_prefix : regex := plus is_constraint.

(** [/\s*\|\|.*$/] *)
Definition re_or : regex := [Star is_ws; Chr (lit "|"); Chr (lit "|"); Star dot; Eos].

(** [/\s*-.*$/] *)
Definition re_dash : regex := [Star is_ws; Chr (lit "-"); Star dot; Eos].

(** [/\s+/] *)
Definition re_spaces : regex := plus is_ws.

(** [/[.*x].*$/] *)
Definition is_wild (c : char) : bool := char_in [ch "."; ch "*"; ch "x"] c.
Definition re_wild : regex := [Chr is_wild; Star dot; Eos].

(** [/\.$/] *)
Definition re_final_dot : regex := [Chr (lit "."); Eos].

(** The chain that computes [cleaned] before the wildcard handling. *)
Definition cleanVersion_base (version : jsstring) : jsstring :=
  split_first re_spaces
    (replace re_dash []
       (replace re_or []
          (replace_anchored re_constraint_prefix [] (trim version)))).

(** The wildcard handling at the end of [cleanVersion]. *)
Definition handle_wildcards (cleaned : jsstring) : jsstring :=
  if includes (u "*") cleaned || includes (u "x") cleaned then
    replace re_final_dot (u ".0") (replace re_wild (u "0") cleaned)
  else cleaned.

(** [cleanVersion(version)]; [None] is an [undefined] argument. *)
Definition cleanVersion (version : option jsstring) : jsstring :=
  match version with
  | None => []
  | Some [] => []
  | Some v => handle_wildcards (cleanVersion_base v)
  end.

(* ================================================================= *)
(** ** JavaScript numbers *)

Inductive number : Type :=
| NaN
| PosInf
| NegInf
| Fin (q : Q).

(** [a >= b] for a finite literal [b]. *)
Definition num_ge (a : number) (b : Q) : bool :=
  match a with
  | NaN => false
  | PosInf => true
  | NegInf => false
  | Fin q => match (q ?= b)%Q with Lt => false | _ => true end
  end.

(** [a < b] for a finite literal [b]. *)
Definition num_lt (a : number) (b : Q) : bool :=
  match a with
  | NaN => false
  | PosInf => false
  | NegInf => true
  | Fin q => match (q ?= b)%Q with Lt => true | _ => false end
  end.

Definition isNaN (a : number) : bool :=
  match a with NaN => true | _ => false end.

(** Truthiness of a number: neither zero nor NaN. *)
Definition num_truthy (a : number) : bool :=
  match a with
  | NaN => false
  | Fin q => negb (Qeq_bool q 0)
  | _ => true
  end.

(* ================================================================= *)
(** ** JSON values and the built-ins taken from the JavaScript runtime *)

(** A parsed JSON value.  An object lists its own properties in the order
    [Object.entries] enumerates them, each key once. *)
Inductive json : Type :=
| JNull
| JBool (b : bool)
| JNum (n : number)
| JStr (s : jsstring)
| JArr (elems : list json)
| JObj (fields : list (jsstring * json)).

Class JsRuntime : Type := {
  (** [String.prototype.toUpperCase] *)
  toUpperCase : jsstring -> jsstring;
  (** [String.prototype.toLowerCase] *)
  toLowerCase : jsstring -> jsstring;
  (** [parseFloat] *)
  parseFloat : jsstring -> number;
  (** [JSON.parse]; [None] when it throws a [SyntaxError] *)
  JSON_parse : jsstring -> option json
}.

(* ================================================================= *)
(** ** types/osv.ts *)

Inductive Severity : Type := CRITICAL | HIGH | MEDIUM | LOW | UNKNOWN.

Definition Severity_eqb (a b : Severity) : bool :=
  match a, b with
  | CRITICAL, CRITICAL | HIGH, HIGH | MEDIUM, MEDIUM | LOW, LOW
  | UNKNOWN, UNKNOWN => true
  | _, _ => false
  end.

Inductive OsvEcosystem : Type :=
| Npm | PyPI | Go | CratesIo | Maven | NuGet | Packagist | RubyGems | Hex.

Record OsvSeverity : Type := {
  sev_type : jsstring;
  sev_score : jsstring
}.

Record DatabaseSpecific : Type := {
  ds_severity : option jsstring;
  ds_cvss_score : option number
}.

Record RangeEvent : Type := {
  ev_introduced : option jsstring;
  ev_fixed : option jsstring;
  ev_last_affected : option jsstring;
  ev_limit : option jsstring
}.

Record OsvAffectedRange : Type := {
  range_type : jsstring;
  range_events : option (list RangeEvent)
}.

Record OsvPackage : Type := {
  op_ecosystem : jsstring;
  op_name : jsstring
}.

Record OsvAffected : Type := {
  aff_package : option OsvPackage;
  aff_ranges : option (list OsvAffectedRange);
  aff_versions : option (list jsstring);
  aff_database_specific : option DatabaseSpecific
}.

Record OsvReference : Type := {
  ref_type : jsstring;
  ref_url : jsstring
}.

Record OsvApiVulnerability : Type := {
  api_id : jsstring;
  api_summary : option jsstring;
  api_details : option jsstring;
  api_aliases : option (list jsstring);
  api_affected : option (list OsvAffected);
  api_references : option (list OsvReference);
  api_severity : option (list OsvSeverity);
  api_database_specific : option DatabaseSpecific
}.

Record PackageInfo : Type := {
  pkg_name : jsstring;
  pkg_version : jsstring;
  pkg_ecosystem : jsstring;
  pkg_manifestFile : jsstring
}.

Record OsvVulnerability : Type := {
  id : jsstring;
  packageName : jsstring;
  version : jsstring;
  ecosystem : jsstring;
  severity : Severity;
  summary : jsstring;
  details : jsstring;
  aliases : list jsstring;
  references : list OsvReference;
  cvssScore : option number;
  fixedVersions : list jsstring;
  manifestFile : jsstring
}.

Record Stats : Type := {
  total : nat;
  critical : nat;
  high : nat;
  medium : nat;
  low : nat
}.

Record OsvScanResult : Type := {
  success : bool;
  vulnerabilities : list OsvVulnerability;
  stats : Stats;
  scannedFiles : nat;
  scannedPackages : nat;
  scanDuration : Z;
  error : option jsstring
}.

(* ================================================================= *)
(** ** osv-client.ts: severity classification *)

Section Classifier.

Context {rt : JsRuntime}.

(** The loop of [getCvssScore] over the severity array. *)
Fixpoint first_cvss_entry (sevs : list OsvSeverity) : option number :=
  match sevs with
  | [] => None
  | sev :: rest =>
      if includes (u "CVSS") (sev_type sev) then
        let score := parseFloat (sev_score sev) in
        if negb (isNaN score) then Some score else first_cvss_entry rest
      else first_cvss_entry rest
  end.

(** [vuln.database_specific?.cvss_score] when it is truthy. *)
Definition db_cvss_score (vuln : OsvApiVulnerability) : option number :=
  match api_database_specific vuln with
  | Some ds =>
      match ds_cvss_score ds with
      | Some n => if num_truthy n then Some n else None
      | None => None
      end
  | None => None
  end.

Definition getCvssScore (vuln : OsvApiVulnerability) : option number :=
  match db_cvss_score vuln with
  | Some n => Some n
  | None =>
      match api_severity vuln with
      | Some ((_ :: _) as sevs) => first_cvss_entry sevs
      | _ => None
      end
  end.

(** The four substring tests that [mapOsvSeverity] applies, in this order, to
    an upper-cased severity text; [None] when none of them holds and control
    falls through. *)
Definition severity_of_text (text : jsstring) : option Severity :=
  if includes (u "CRITICAL") text then Some CRITICAL
  else if includes (u "HIGH") text then Some HIGH
  else if includes (u "MEDIUM") text || includes (u "MODERATE") text
       then Some MEDIUM
  else if includes (u "LOW") text then Some LOW
  else None.

(** [vuln.severity[0].type.toUpperCase()] classified, when [vuln.severity] is
    a non-empty array. *)
Definition severity_field (vuln : OsvApiVulnerability) : option Severity :=
  match api_severity vuln with
  | Some (sev0 :: _) => severity_of_text (toUpperCase (sev_type sev0))
  | _ => None
  end.

(** [vuln.database_specific.severity.toUpperCase()] classified, when that
    field is truthy. *)
Definition db_severity_field (vuln : OsvApiVulnerability) : option Severity :=
  match api_database_specific vuln with
  | Some ds =>
      match ds_severity ds with
      | Some s => if truthy s then severity_of_text (toUpperCase s) else None
      | None => None
      end
  | None => None
  end.

Definition mapOsvSeverity (vuln : OsvApiVulnerability) : Severity :=
  match getCvssScore vuln with
  | Some cvssScore =>
      if num_ge cvssScore 9 then CRITICAL
      else if num_ge cvssScore 7 then HIGH
      else if num_ge cvssScore 4 then MEDIUM
      else LOW
  | None =>
      match severity_field vuln with
      | Some s => s
      | None =>
          match db_severity_field vuln with
          | Some s => s
          | None => MEDIUM
          end
      end
  end.

End Classifier.

(* ================================================================= *)
(** ** osv-client.ts: conversion of an OSV record *)

(** [[...new Set(xs)]]: first occurrences, in insertion order. *)
Definition set_add (acc : list jsstring) (x : jsstring) : list jsstring :=
  if existsb (Js.eqb x) acc then acc else acc ++ [x].

Definition spread_set (xs : list jsstring) : list jsstring :=
  fold_left set_add xs [].

(** The inner loop of [extractFixedVersions]: [event.fixed] when truthy. *)
Definition fixed_of_event (ev : RangeEvent) : list jsstring :=
  match ev_fixed ev with
  | Some f => if truthy f then [f] else []
  | None => []
  end.

Definition extractFixedVersions (ranges : option (list OsvAffectedRange))
  : list jsstring :=
  match ranges with
  | None => []
  | Some rs =>
      fold_left
        (fun fixedVersions range =>
           match range_events range with
           | Some evs =>
               fold_left (fun acc ev => acc ++ fixed_of_event ev) evs
                 fixedVersions
           | None => fixedVersions
           end)
        rs []
  end.

(** [affected.package?.name === pkg.name] *)
Definition same_package (affected : OsvAffected) (pkg : PackageInfo) : bool :=
  match aff_package affected with
  | Some p => Js.eqb (op_name p) (pkg_name pkg)
  | None => false
  end.

(** [/[.\n]/] *)
Definition re_sentence_end : regex :=
  [Chr (char_in [ch "."; 10%N])].

Definition ellipsis : jsstring := u "...".

Section Convert.

Context {rt : JsRuntime}.

Definition convertOsvVulnerability (apiVuln : OsvApiVulnerability)
    (pkg : PackageInfo) : OsvVulnerability :=
  let severity := mapOsvSeverity apiVuln in
  let cvssScore := getCvssScore apiVuln in
  let fixedVersions :=
    match api_affected apiVuln with
    | Some ((_ :: _) as affs) =>
        fold_left
          (fun acc affected =>
             if same_package affected pkg
             then acc ++ extractFixedVersions (aff_ranges affected)
             else acc)
          affs []
    | _ => []
    end in
  let fixedVersions := spread_set fixedVersions in
  let summary :=
    match api_summary apiVuln with
    | Some s => trim s
    | None => []
    end in
  let summary :=
    match api_details apiVuln with
    | Some d =>
        if negb (truthy summary) && truthy d then
          let details := trim d in
          let firstSentence := split_first re_sentence_end details in
          if (200 <? List.length firstSentence)%nat
          then substring0 200 firstSentence ++ ellipsis
          else firstSentence
        else summary
    | None => summary
    end in
  let summary :=
    if negb (truthy summary)
    then u "Security vulnerability in " ++ pkg_name pkg
    else summary in
  {| id := api_id apiVuln;
     packageName := pkg_name pkg;
     version := pkg_version pkg;
     ecosystem := pkg_ecosystem pkg;
     severity := severity;
     summary := summary;
     details := match api_details apiVuln with
                | Some d => d
                | None => []
                end;
     aliases := match api_aliases apiVuln with
                | Some a => a
                | None => []
                end;
     references :=
       match api_references apiVuln with
       | Some rs =>
           map (fun r => {| ref_type := ref_type r; ref_url := ref_url r |}) rs
       | None => []
       end;
     cvssScore := cvssScore;
     fixedVersions := fixedVersions;
     manifestFile := pkg_manifestFile pkg |}.

End Convert.

(* ================================================================= *)
(** ** manifest-parsers: the npm parser *)

(** Reading [obj.dependencies] or [obj.devDependencies] of a parsed JSON
    value.  Neither name is a property of arrays, strings, numbers,
    booleans or of [Object.prototype]; on [null] the access throws. *)
Inductive access : Type :=
| Throws
| Undefined
| Value (v : json).

Fixpoint assoc (key : jsstring) (fields : list (jsstring * json))
  : option json :=
  match fields with
  | [] => None
  | (k, v) :: rest => if Js.eqb k key then Some v else assoc key rest
  end.

Definition get_property (obj : json) (key : jsstring) : access :=
  match obj with
  | JNull => Throws
  | JObj fields =>
      match assoc key fields with
      | Some v => Value v
      | None => Undefined
      end
  | _ => Undefined
  end.

Definition nat_to_jsstring (n : nat) : jsstring :=
  u (NilEmpty.string_of_uint (Nat.to_uint n)).

Fixpoint indexed (i : nat) (elems : list json) : list (jsstring * json) :=
  match elems with
  | [] => []
  | e :: rest => (nat_to_jsstring i, e) :: indexed (S i) rest
  end.

(** [Object.entries(v)] for a value with [v && typeof v === 'object'];
    [None] for every other value. *)
Definition object_entries (v : access) : option (list (jsstring * json)) :=
  match v with
  | Value (JObj fields) => Some fields
  | Value (JArr elems) => Some (indexed 0 elems)
  | _ => None
  end.

(** One iteration of the [for ... of Object.entries(...)] loops. *)
Definition push_entry (manifestFile : jsstring) (packages : list PackageInfo)
    (entry : jsstring * json) : list PackageInfo :=
  match snd entry with
  | JStr version =>
      let cleanedVersion := cleanVersion (Some version) in
      if truthy cleanedVersion then
        packages ++ [{| pkg_name := fst entry;
                        pkg_version := cleanedVersion;
                        pkg_ecosystem := u "npm";
                        pkg_manifestFile := manifestFile |}]
      else packages
  | _ => packages
  end.

Definition push_entries (manifestFile : jsstring) (v : access)
    (packages : list PackageInfo) : list PackageInfo :=
  match object_entries v with
  | Some entries => fold_left (push_entry manifestFile) entries packages
  | None => packages
  end.

Section Npm.

Context {rt : JsRuntime}.

(** The [catch] block only logs, so every exception ends the function with
    the packages pushed so far. *)
Definition extractNpmPackages (content manifestFile : jsstring)
  : list PackageInfo :=
  let packages := [] in
  match JSON_parse content with
  | None => packages
  | Some packageJson =>
      match get_property packageJson (u "dependencies") with
      | Throws => packages
      | deps =>
          let packages := push_entries manifestFile deps packages in
          match get_property packageJson (u "devDependencies") with
          | Throws => packages
          | devDeps => push_entries manifestFile devDeps packages
          end
      end
  end.

End Npm.

(* ================================================================= *)
(** ** manifest-parsers: manifest detection and dispatch *)

(** A pattern character under the [i] flag.  The patterns are ASCII; a code
    unit outside ASCII never canonicalizes to an ASCII one. *)
Definition ascii_upper (c : char) : char :=
  if (97 <=? c)%N && (c <=? 122)%N then (c - 32)%N else c.

Definition ci (a : ascii) (c : char) : bool :=
  N.eqb (ascii_upper c) (ascii_upper (ch a)).

(** [/literal$/i] *)
Definition re_suffix_ci (literal : string) : regex :=
  map (fun a => Chr (ci a)) (list_ascii_of_string literal) ++ [Eos].

(** [re.test(s)] *)
Definition test (re : regex) (s : jsstring) : bool :=
  match search re s with Some _ => true | None => false end.

(** [MANIFEST_PATTERNS]; an alternation is the list of its branches. *)
Definition pattern_npm := [re_suffix_ci "package.json"].
Definition pattern_python :=
  [re_suffix_ci "requirements.txt"; re_suffix_ci "Pipfile";
   re_suffix_ci "pyproject.toml"].
Definition pattern_go := [re_suffix_ci "go.mod"].
Definition pattern_rust := [re_suffix_ci "Cargo.toml"].
Definition pattern_maven := [re_suffix_ci "pom.xml"].
Definition pattern_gradle :=
  [re_suffix_ci "build.gradle"; re_suffix_ci "build.gradle.kts"].
Definition pattern_nuget :=
  [re_suffix_ci "packages.config"; re_suffix_ci ".csproj"].
Definition pattern_composer := [re_suffix_ci "composer.json"].
Definition pattern_ruby := [re_suffix_ci "Gemfile"].

Definition test_any (branches : list regex) (s : jsstring) : bool :=
  existsb (fun re => test re s) branches.

(** The parsers of the other ecosystems.  The scan uses them only through
    the package lists they return. *)
Class ManifestParsers : Type := {
  extractPythonPackages : jsstring -> jsstring -> list PackageInfo;
  extractGoPackages : jsstring -> jsstring -> list PackageInfo;
  extractRustPackages : jsstring -> jsstring -> list PackageInfo;
  extractMavenPackages : jsstring -> jsstring -> list PackageInfo
}.

Record FileRec : Type := {
  path : jsstring;
  content : jsstring
}.

Section Manifests.

Context {rt : JsRuntime} {parsers : ManifestParsers}.

Definition detectManifestType (filePath : jsstring) : option OsvEcosystem :=
  let fileName := toLowerCase filePath in
  if test_any pattern_npm fileName then Some Npm
  else if test_any pattern_python fileName then Some PyPI
  else if test_any pattern_go fileName then Some Go
  else if test_any pattern_rust fileName then Some CratesIo
  else if test_any pattern_maven fileName then Some Maven
  else if test_any pattern_nuget fileName then Some NuGet
  else if test_any pattern_composer fileName then Some Packagist
  else if test_any pattern_ruby fileName then Some RubyGems
  else None.

Definition extractPackagesFromManifest (filePath content : jsstring)
  : list PackageInfo * option OsvEcosystem :=
  match detectManifestType filePath with
  | None => ([], None)
  | Some ecosystem =>
      let packages :=
        match ecosystem with
        | Npm => extractNpmPackages content filePath
        | PyPI => extractPythonPackages content filePath
        | Go => extractGoPackages content filePath
        | CratesIo => extractRustPackages content filePath
        | Maven => extractMavenPackages content filePath
        | _ => []
        end in
      (packages, Some ecosystem)
  end.

Definition extractAllPackages (files : list FileRec) : list PackageInfo :=
  fold_left
    (fun allPackages file =>
       allPackages ++ fst (extractPackagesFromManifest (path file) (content file)))
    files [].

End Manifests.

(* ================================================================= *)
(** ** The OSV service and the effects of the client *)

(** An exception is represented by its [message]; the empty string stands
    for a thrown value without one. *)
Definition exn := jsstring.

Inductive Body (B : Type) : Type :=
| JsonOk (b : B)
| JsonFails (e : exn).

(** What [await fetch(...)] gives: a rejection, or a response with its
    status and what [response.json()] will give. *)
Inductive FetchOutcome (B : Type) : Type :=
| Rejected (e : exn)
| Response (status : Z) (body : Body B).

Arguments JsonOk {B} b.
Arguments JsonFails {B} e.
Arguments Rejected {B} e.
Arguments Response {B} status body.

Record OsvPackageQuery : Type := {
  q_ecosystem : jsstring;
  q_name : jsstring;
  q_version : jsstring
}.

Record OsvBatchRequest : Type := {
  queries : list OsvPackageQuery
}.

Record BatchResult : Type := {
  vulns : option (list OsvApiVulnerability)
}.

Record OsvBatchResponse : Type := {
  results : list BatchResult
}.

(** The world outside the program: the two OSV endpoints, the timer and
    the clock, each a transition of an environment. *)
Class OsvService : Type := {
  Env : Type;
  post_querybatch :
    OsvBatchRequest -> Env -> FetchOutcome OsvBatchResponse * Env;
  get_vuln : jsstring -> Env -> FetchOutcome OsvApiVulnerability * Env;
  wait : Z -> Env -> Env;
  clock : Env -> Z * Env
}.

(** The requests and waits a run performs, oldest first. *)
Inductive Event : Type :=
| EvPost (req : OsvBatchRequest)
| EvSleep (ms : Z)
| EvGet (vulnId : jsstring).

Inductive Result (A : Type) : Type :=
| Ok (a : A)
| Throw (e : exn).

Arguments Ok {A} a.
Arguments Throw {A} e.

Section Effects.

Context {svc : OsvService}.

Definition World : Type := Env * list Event.

(** Computations that read and change the world and may throw. *)
Definition M (A : Type) : Type := World -> Result A * World.

Definition ret {A} (a : A) : M A := fun w => (Ok a, w).

Definition throw {A} (e : exn) : M A := fun w => (Throw e, w).

Definition bind {A B} (c : M A) (k : A -> M B) : M B :=
  fun w =>
    match c w with
    | (Ok a, w') => k a w'
    | (Throw e, w') => (Throw e, w')
    end.

Definition try_catch {A} (c : M A) (handler : exn -> M A) : M A :=
  fun w =>
    match c w with
    | (Ok a, w') => (Ok a, w')
    | (Throw e, w') => handler e w'
    end.

Definition log (ev : Event) (w : World) : World := (fst w, snd w ++ [ev]).

(** [await fetch(OSV_API_URL, {method: 'POST', body: JSON.stringify(request)})] *)
Definition fetch_post (request : OsvBatchRequest)
  : M (Z * Body OsvBatchResponse) :=
  fun w =>
    let (outcome, env') := post_querybatch request (fst w) in
    let w' := log (EvPost request) (env', snd w) in
    match outcome with
    | Rejected e => (Throw e, w')
    | Response status body => (Ok (status, body), w')
    end.

(** [await fetch(`https://api.osv.dev/v1/vulns/${id}`)] *)
Definition fetch_get (vulnId : jsstring)
  : M (Z * Body OsvApiVulnerability) :=
  fun w =>
    let (outcome, env') := get_vuln vulnId (fst w) in
    let w' := log (EvGet vulnId) (env', snd w) in
    match outcome with
    | Rejected e => (Throw e, w')
    | Response status body => (Ok (status, body), w')
    end.

(** [await new Promise((resolve) => setTimeout(resolve, ms))] *)
Definition sleep (ms : Z) : M unit :=
  fun w => (Ok tt, log (EvSleep ms) (wait ms (fst w), snd w)).

(** [Date.now()]; it cannot throw. *)
Definition date_now (w : World) : Z * World :=
  let (t, env') := clock (fst w) in (t, (env', snd w)).

Definition get_time : M Z :=
  fun w => let (t, w') := date_now w in (Ok t, w').

(** [await response.json()] *)
Definition read_json {B} (body : Body B) : M B :=
  match body with
  | JsonOk b => ret b
  | JsonFails e => throw e
  end.

(** [response.ok] *)
Definition response_ok (status : Z) : bool :=
  (200 <=? status)%Z && (status <=? 299)%Z.

End Effects.

Notation "x <- c ;; k" := (bind c (fun x => k))
  (at level 61, c at next level, right associativity).
Notation "c ;;; k" := (bind c (fun _ => k))
  (at level 61, right associativity).

(* ================================================================= *)
(** ** osv-client.ts: batched queries *)

Definition MAX_BATCH_SIZE : nat := 1000.

Definition z_to_jsstring (z : Z) : jsstring :=
  u (NilEmpty.string_of_int (Z.to_int z)).

(** [`${pkg.ecosystem}:${pkg.name}@${pkg.version}`] *)
Definition package_key (pkg : PackageInfo) : jsstring :=
  pkg_ecosystem pkg ++ u ":" ++ pkg_name pkg ++ u "@" ++ pkg_version pkg.

(** The [Map<string, OsvApiVulnerability[]>] of [queryOsvBatch]. *)
Definition VulnMap : Type := list (jsstring * list OsvApiVulnerability).

Fixpoint map_set (key : jsstring) (value : list OsvApiVulnerability)
    (m : VulnMap) : VulnMap :=
  match m with
  | [] => [(key, value)]
  | (k, v) :: rest =>
      if Js.eqb k key then (key, value) :: rest
      else (k, v) :: map_set key value rest
  end.

Fixpoint map_get (key : jsstring) (m : VulnMap)
  : option (list OsvApiVulnerability) :=
  match m with
  | [] => None
  | (k, v) :: rest => if Js.eqb k key then Some v else map_get key rest
  end.

(** The loop [for (i = 0; i < packages.length; i += MAX_BATCH_SIZE)
    batches.push(packages.slice(i, i + MAX_BATCH_SIZE))]. *)
Fixpoint slices (fuel size : nat) (packages : list PackageInfo)
  : list (list PackageInfo) :=
  match fuel with
  | O => []
  | S fuel' =>
      match packages with
      | [] => []
      | _ :: _ =>
          firstn size packages :: slices fuel' size (skipn size packages)
      end
  end.

Definition batches_of (packages : list PackageInfo) : list (list PackageInfo) :=
  slices (List.length packages) MAX_BATCH_SIZE packages.

Definition batch_request (batch : list PackageInfo) : OsvBatchRequest :=
  {| queries :=
       map (fun pkg => {| q_ecosystem := pkg_ecosystem pkg;
                          q_name := pkg_name pkg;
                          q_version := pkg_version pkg |}) batch |}.

Section Client.

Context {rt : JsRuntime} {svc : OsvService}.

(** [null] is [None]; the function catches every failure. *)
Definition fetchVulnerabilityDetails (vulnId : jsstring)
  : M (option OsvApiVulnerability) :=
  try_catch
    (response <- fetch_get vulnId ;;
     if negb (response_ok (fst response)) then ret None
     else (v <- read_json (snd response) ;; ret (Some v)))
    (fun _ => ret None).

(** [Promise.all(vulns.map(async (vuln) => ...))]: the requests are issued
    in array order and the results are collected in array order. *)
Fixpoint fetch_all_details (vs : list OsvApiVulnerability)
  : M (list OsvApiVulnerability) :=
  match vs with
  | [] => ret []
  | vuln :: rest =>
      fullDetails <- fetchVulnerabilityDetails (api_id vuln) ;;
      others <- fetch_all_details rest ;;
      ret (match fullDetails with
           | Some full => full
           | None => vuln
           end :: others)
  end.

(** The loop [for (index = 0; index < batch.length; index++)] that maps the
    results back to the packages; it is the same after the first response
    and after the retry. *)
Fixpoint process_results (batch : list PackageInfo) (index : nat)
    (data : OsvBatchResponse) (vulnerabilityMap : VulnMap) : M VulnMap :=
  match batch with
  | [] => ret vulnerabilityMap
  | pkg :: rest =>
      match nth_error (results data) index with
      | Some {| vulns := Some ((_ :: _) as vs) |} =>
          fullVulns <- fetch_all_details vs ;;
          process_results rest (S index) data
            (map_set (package_key pkg) fullVulns vulnerabilityMap)
      | _ => process_results rest (S index) data vulnerabilityMap
      end
  end.

(** The body of the loop over the batches. *)
Definition process_batch (batch : list PackageInfo)
    (vulnerabilityMap : VulnMap) : M VulnMap :=
  try_catch
    (let request := batch_request batch in
     response <- fetch_post request ;;
     if negb (response_ok (fst response)) then
       if (fst response =? 429)%Z then
         sleep 2000 ;;;
         retryResponse <- fetch_post request ;;
         if negb (response_ok (fst retryResponse)) then
           throw (u "OSV API failed after retry: "
                    ++ z_to_jsstring (fst retryResponse))
         else
           retryData <- read_json (snd retryResponse) ;;
           process_results batch 0 retryData vulnerabilityMap
       else
         throw (u "OSV API request failed: " ++ z_to_jsstring (fst response))
     else
       data <- read_json (snd response) ;;
       process_results batch 0 data vulnerabilityMap)
    (fun error => throw error).

Fixpoint query_batches (batches : list (list PackageInfo))
    (vulnerabilityMap : VulnMap) : M VulnMap :=
  match batches with
  | [] => ret vulnerabilityMap
  | batch :: rest =>
      vulnerabilityMap' <- process_batch batch vulnerabilityMap ;;
      query_batches rest vulnerabilityMap'
  end.

Definition queryOsvBatch (packages : list PackageInfo) : M VulnMap :=
  query_batches (batches_of packages) [].

(** The [packages.forEach] of [scanPackages]. *)
Definition convert_all (packages : list PackageInfo)
    (vulnerabilityMap : VulnMap) : list OsvVulnerability :=
  fold_left
    (fun allVulnerabilities pkg =>
       match map_get (package_key pkg) vulnerabilityMap with
       | Some vs =>
           fold_left
             (fun acc apiVuln => acc ++ [convertOsvVulnerability apiVuln pkg])
             vs allVulnerabilities
       | None => allVulnerabilities
       end)
    packages [].

Definition scanPackages (packages : list PackageInfo)
  : M (list OsvVulnerability) :=
  match packages with
  | [] => ret []
  | _ :: _ =>
      vulnerabilityMap <- queryOsvBatch packages ;;
      ret (convert_all packages vulnerabilityMap)
  end.

End Client.

(* ================================================================= *)
(** ** The scan route: calculateStats and action *)

Definition count_severity (s : Severity) (vs : list OsvVulnerability) : nat :=
  List.length (filter (fun v => Severity_eqb (severity v) s) vs).

Definition calculateStats (vs : list OsvVulnerability) : Stats :=
  {| total := List.length vs;
     critical := count_severity CRITICAL vs;
     high := count_severity HIGH vs;
     medium := count_severity MEDIUM vs;
     low := count_severity LOW vs |}.

Definition zero_stats : Stats :=
  {| total := 0; critical := 0; high := 0; medium := 0; low := 0 |}.

(** What [await request.json()] and the destructuring of [files] give:
    an exception, or the [files] property, which is [None] when it is
    missing, falsy or not an array. *)
Inductive RequestBody : Type :=
| BodyThrows (e : exn)
| BodyFiles (files : option (list FileRec)).

Definition no_files_error : jsstring := u "No files provided for scanning".

Definition no_manifest_error : jsstring :=
  u "No dependency manifest files found. Please add package.json, requirements.txt, go.mod, Cargo.toml, or other dependency files.".

Definition unknown_error : jsstring :=
  u "Unknown error occurred during vulnerability scan".

(** The value given to [json(...)] and the HTTP status of the reply. *)
Definition Reply : Type := OsvScanResult * Z.

Section Route.

Context {rt : JsRuntime} {parsers : ManifestParsers} {svc : OsvService}.

Definition failure (message : jsstring) (duration : Z) (status : Z) : Reply :=
  ({| success := false;
      vulnerabilities := [];
      stats := zero_stats;
      scannedFiles := 0;
      scannedPackages := 0;
      scanDuration := duration;
      error := Some message |}, status).

(** The predicate of [files.filter(...)]: [manifestType !== null]. *)
Definition is_manifest (file : FileRec) : bool :=
  match detectManifestType (path file) with
  | Some _ => true
  | None => false
  end.

(** The [try] block of [action]. *)
Definition action_try (startTime : Z) (request : RequestBody) : M Reply :=
  match request with
  | BodyThrows e => throw e
  | BodyFiles None => ret (failure no_files_error 0 400)
  | BodyFiles (Some []) => ret (failure no_files_error 0 400)
  | BodyFiles (Some files) =>
      let manifestFiles := filter is_manifest files in
      match manifestFiles with
      | [] => ret (failure no_manifest_error 0 400)
      | _ :: _ =>
          let packages := extractAllPackages manifestFiles in
          match packages with
          | [] =>
              now <- get_time ;;
              ret ({| success := true;
                      vulnerabilities := [];
                      stats := zero_stats;
                      scannedFiles := List.length manifestFiles;
                      scannedPackages := 0;
                      scanDuration := (now - startTime)%Z;
                      error := None |}, 200%Z)
          | _ :: _ =>
              vulnerabilities <- scanPackages packages ;;
              let stats := calculateStats vulnerabilities in
              now <- get_time ;;
              let scanDuration := (now - startTime)%Z in
              ret ({| success := true;
                      vulnerabilities := vulnerabilities;
                      stats := stats;
                      scannedFiles := List.length manifestFiles;
                      scannedPackages := List.length packages;
                      scanDuration := scanDuration;
                      error := None |}, 200%Z)
          end
      end
  end.

(** [action]: the [catch] block turns every exception into a failure
    reply, so the handler always replies. *)
Definition action (request : RequestBody) (w : World) : Reply * World :=
  let (startTime, w0) := date_now w in
  match action_try startTime request w0 with
  | (Ok reply, w1) => (reply, w1)
  | (Throw error, w1) =>
      let (now, w2) := date_now w1 in
      (failure (if truthy error then error else unknown_error)
         (now - startTime)%Z 500, w2)
  end.

End Route.

(* ================================================================= *)
(** ** Notions used by the statements *)

(** A record that carries no CVSS score, no severity entries and no
    database-specific severity. *)
Definition carries_no_severity_data (vuln : OsvApiVulnerability) : Prop :=
  (api_severity vuln = None \/ api_severity vuln = Some []) /\
  (forall ds, api_database_specific vuln = Some ds ->
              ds_cvss_score ds = None /\ ds_severity ds = None).



(** A vulnerability counted by one of the four buckets of the statistics. *)
Definition counted (v : OsvVulnerability) : Prop := severity v <> UNKNOWN.

(** The string-valued entries of a dependency map. *)
Definition string_entries (v : access) : list (jsstring * jsstring) :=
  match object_entries v with
  | Some entries =>
      flat_map (fun entry =>
                  match snd entry with
                  | JStr version => [(fst entry, version)]
                  | _ => []
                  end) entries
  | None => []
  end.

(** The string-valued entries of [dependencies], then those of
    [devDependencies]. *)
Definition npm_entries (packageJson : json) : list (jsstring * jsstring) :=
  string_entries (get_property packageJson (u "dependencies")) ++
  string_entries (get_property packageJson (u "devDependencies")).

(** An entry whose cleaned version is not empty. *)
Definition usable (entry : jsstring * jsstring) : bool :=
  truthy (cleanVersion (Some (snd entry))).

(** The record an entry becomes. *)
Definition npm_package (manifestFile : jsstring) (entry : jsstring * jsstring)
  : PackageInfo :=
  {| pkg_name := fst entry;
     pkg_version := cleanVersion (Some (snd entry));
     pkg_ecosystem := u "npm";
     pkg_manifestFile := manifestFile |}.

(** Events that are all detail requests. *)
Definition only_gets (events : list Event) : Prop :=
  Forall (fun ev => match ev with EvGet _ => True | _ => False end) events.

(** *** Version cleaning, step by step *)

Fixpoint takeWhile (p : char -> bool) (s : jsstring) : jsstring :=
  match s with
  | [] => []
  | c :: s' => if p c then c :: takeWhile p s' else []
  end.

(** The text before the first whitespace character. *)
Definition first_token (s : jsstring) : jsstring :=
  takeWhile (fun c => negb (is_ws c)) s.



(** Without its leading run of constraint characters. *)
Definition strip_constraints (s : jsstring) : jsstring :=
  dropWhile is_constraint s.

(** Without its trailing whitespace. *)
Definition rstrip (s : jsstring) : jsstring :=
  rev (dropWhile is_ws (rev s)).

(** The text before the first occurrence of [marker]; all of [s] when
    there is none. *)
Fixpoint before (marker s : jsstring) : jsstring :=
  if starts_with marker s then []
  else match s with
       | [] => []
       | c :: s' => c :: before marker s'
       end.


(** An occurrence of [marker] at the start of [s] with no line terminator
    after it. *)
Definition marks (marker s : jsstring) : bool :=
  starts_with marker s && forallb dot (skipn (List.length marker) s).

(** The text before the leftmost such occurrence, if there is one. *)
Fixpoint cut_at (marker s : jsstring) : option jsstring :=
  if marks marker s then Some []
  else match s with
       | [] => None
       | c :: s' =>
           match cut_at marker s' with
           | Some p => Some (c :: p)
           | None => None
           end
       end.

(** Cut [s] before the leftmost occurrence of [marker] that has no line
    terminator after it, and before the whitespace that precedes it. *)
Definition cut_before (marker s : jsstring) : jsstring :=
  match cut_at marker s with
  | Some p => rstrip p
  | None => s
  end.

(** The steps as the code performs them on every text. *)
Definition steps_exact (v : jsstring) : jsstring :=
  first_token
    (cut_before (u "-") (cut_before (u "||") (strip_constraints (trim v)))).


(** [/\s*marker.*$/] for a literal marker. *)
Definition re_cut (marker : jsstring) : regex :=
  Star is_ws :: map (fun m => Chr (fun c => N.eqb c m)) marker
    ++ [Star dot; Eos].

(** A text without line terminators. *)
Definition single_line (s : jsstring) : bool := forallb dot s.

(** A marker that starts with a character that is not whitespace. *)
Definition solid (marker : jsstring) : Prop :=
  match marker with
  | [] => False
  | m :: _ => is_ws m = false
  end.

(** [p] is an initial part of [s]. *)
Definition prefix (p s : jsstring) : Prop := exists r, s = p ++ r.

(** A text that does not start with a constraint character. *)
Definition unconstrained (s : jsstring) : Prop :=
  match s with
  | [] => True
  | c :: _ => is_constraint c = false
  end.

(** A version on which no step of [cleanVersion] has anything to do. *)
Definition settled (c : jsstring) : Prop :=
  forallb (fun x => negb (is_ws x)) c = true /\
  unconstrained c /\
  includes (u "||") c = false /\
  includes (u "-") c = false /\
  includes (u "*") c = false /\
  includes (u "x") c = false.

(* ================================================================= *)
(** ** A matcher that records what each part of an expression consumed *)

Module Capture.

(** The expressions of the line parsers are sequences of literals and of
    greedy or lazy repetitions of a character class. *)
Inductive atom : Type :=
| Lit (t : jsstring)
| Many (p : char -> bool)
| Many1 (p : char -> bool)
| Few (p : char -> bool).

(** The texts consumed by the atoms, in order, and the text that remains. *)
Definition parts : Type := (list jsstring * jsstring)%type.

(** [c*] followed by [k]: the longest run first, then shorter ones. *)
Fixpoint many (p : char -> bool) (k : jsstring -> option parts)
    (s : jsstring) : option (jsstring * parts) :=
  match s with
  | c :: s' =>
      if p c then
        match many p k s' with
        | Some (q, r) => Some (c :: q, r)
        | None => option_map (pair []) (k s)
        end
      else option_map (pair []) (k s)
  | [] => option_map (pair []) (k [])
  end.

(** [c*?] followed by [k]: the shortest run first, then longer ones. *)
Fixpoint few (p : char -> bool) (k : jsstring -> option parts)
    (s : jsstring) : option (jsstring * parts) :=
  match k s with
  | Some r => Some ([], r)
  | None =>
      match s with
      | c :: s' =>
          if p c then
            match few p k s' with
            | Some (q, r) => Some (c :: q, r)
            | None => None
            end
          else None
      | [] => None
      end
  end.

Definition record (taken : option (jsstring * parts)) : option parts :=
  match taken with
  | Some (q, (ps, r)) => Some (q :: ps, r)
  | None => None
  end.

(** Match at the start of [s], as for an expression that begins with [^]. *)
Fixpoint match_parts (re : list atom) : jsstring -> option parts :=
  match re with
  | [] => fun s => Some ([], s)
  | Lit t :: re' =>
      fun s =>
        if starts_with t s
        then record (option_map (pair t)
                       (match_parts re' (skipn (List.length t) s)))
        else None
  | Many p :: re' => fun s => record (many p (match_parts re') s)
  | Many1 p :: re' =>
      fun s =>
        match s with
        | c :: s' =>
            if p c then
              match many p (match_parts re') s' with
              | Some (q, r) => record (Some (c :: q, r))
              | None => None
              end
            else None
        | [] => None
        end
  | Few p :: re' => fun s => record (few p (match_parts re') s)
  end.

(** The leftmost match in [s]. *)
Fixpoint search_parts (re : list atom) (s : jsstring) : option parts :=
  match match_parts re s with
  | Some r => Some r
  | None =>
      match s with
      | [] => None
      | _ :: s' => search_parts re s'
      end
  end.

(** The loop [while ((match = re.exec(content)) !== null)] of an
    expression with the [g] flag: each search starts where the previous
    match ended. *)
Fixpoint exec_all (fuel : nat) (re : list atom) (s : jsstring)
  : list (list jsstring) :=
  match fuel with
  | O => []
  | S fuel' =>
      match search_parts re s with
      | Some (ps, rest) => ps :: exec_all fuel' re rest
      | None => []
      end
  end.

End Capture.

Import Capture.

(* ================================================================= *)
(** ** manifest-parsers: the line-oriented parsers *)

(** [content.split('\n')] and the like *)
Fixpoint split_on (sep : char) (s : jsstring) : list jsstring :=
  match s with
  | [] => [[]]
  | c :: s' =>
      if N.eqb c sep then [] :: split_on sep s'
      else match split_on sep s' with
           | l :: ls => (c :: l) :: ls
           | [] => [[c]]
           end
  end.

Definition in_range (lo hi c : N) : bool := (lo <=? c)%N && (c <=? hi)%N.

(** [a-zA-Z0-9] *)
Definition is_alnum (c : char) : bool :=
  in_range 97 122 c || in_range 65 90 c || in_range 48 57 c.

(** [[a-zA-Z0-9_-]] *)
Definition is_name_char (c : char) : bool :=
  is_alnum c || char_in [ch "_"; ch "-"] c.

(** [[=><]] *)
Definition is_operator_char (c : char) : bool :=
  char_in [ch "="; ch ">"; ch "<"] c.

(** [[0-9.]] *)
Definition is_version_char (c : char) : bool :=
  in_range 48 57 c || N.eqb c (ch ".").

(** [[a-zA-Z0-9._/-]] *)
Definition is_module_char (c : char) : bool :=
  is_alnum c || char_in [ch "."; ch "_"; ch "/"; ch "-"] c.

(** [[\s\S]] *)
Definition any_char (c : char) : bool := true.

(** The double quote. *)
Definition quote : jsstring := [34%N].

(** [/^([a-zA-Z0-9_-]+)\s*([=><]+)\s*([0-9.]+)/] *)
Definition re_requirement : list atom :=
  [Many1 is_name_char; Many is_ws; Many1 is_operator_char; Many is_ws;
   Many1 is_version_char].

(** [/^(?:require\s+)?([a-zA-Z0-9._/-]+)\s+v([0-9.]+)/]: with the optional
    group, and without it. *)
Definition re_require_prefixed : list atom :=
  [Lit (u "require"); Many1 is_ws; Many1 is_module_char; Many1 is_ws;
   Lit (u "v"); Many1 is_version_char].
Definition re_require_bare : list atom :=
  [Many1 is_module_char; Many1 is_ws; Lit (u "v"); Many1 is_version_char].

(** [/^([a-zA-Z0-9_-]+)\s*=\s*"([0-9.]+)"/] *)
Definition re_dep_plain : list atom :=
  [Many1 is_name_char; Many is_ws; Lit (u "="); Many is_ws; Lit quote;
   Many1 is_version_char; Lit quote].

(** [/^([a-zA-Z0-9_-]+)\s*=\s*\{.*version\s*=\s*"([0-9.]+)"/] *)
Definition re_dep_table : list atom :=
  [Many1 is_name_char; Many is_ws; Lit (u "="); Many is_ws; Lit (u "{");
   Many dot; Lit (u "version"); Many is_ws; Lit (u "="); Many is_ws;
   Lit quote; Many1 is_version_char; Lit quote].

(** [/<dependency>[\s\S]*?<groupId>(.*?)<\/groupId>[\s\S]*?<artifactId>(.*?)<\/artifactId>[\s\S]*?<version>(.*?)<\/version>[\s\S]*?<\/dependency>/g] *)
Definition re_dependency : list atom :=
  [Lit (u "<dependency>"); Few any_char;
   Lit (u "<groupId>"); Few dot; Lit (u "</groupId>"); Few any_char;
   Lit (u "<artifactId>"); Few dot; Lit (u "</artifactId>"); Few any_char;
   Lit (u "<version>"); Few dot; Lit (u "</version>"); Few any_char;
   Lit (u "</dependency>")].

Definition package (ecosystem : string) (name version manifestFile : jsstring)
  : PackageInfo :=
  {| pkg_name := name;
     pkg_version := version;
     pkg_ecosystem := u ecosystem;
     pkg_manifestFile := manifestFile |}.

Module Parsers.

(** One iteration of the loop of [extractPythonPackages]. *)
Definition python_line (manifestFile : jsstring)
    (packages : list PackageInfo) (line : jsstring) : list PackageInfo :=
  let trimmed := trim line in
  if negb (truthy trimmed) || starts_with (u "#") trimmed then packages
  else
    match match_parts re_requirement trimmed with
    | Some ([name; _; _; _; matched], _) =>
        let version := cleanVersion (Some matched) in
        if truthy version
        then packages ++ [package "PyPI" name version manifestFile]
        else packages
    | _ => packages
    end.

Definition extractPythonPackages (content manifestFile : jsstring)
  : list PackageInfo :=
  fold_left (python_line manifestFile) (split_on 10%N content) [].

(** [trimmed.match(...)] in [extractGoPackages]: the module and the
    version.  The optional [require] is tried first and given up only
    when nothing matches with it. *)
Definition match_require (trimmed : jsstring) : option (jsstring * jsstring) :=
  match match_parts re_require_prefixed trimmed with
  | Some ([_; _; name; _; _; version], _) => Some (name, version)
  | _ =>
      match match_parts re_require_bare trimmed with
      | Some ([name; _; _; version], _) => Some (name, version)
      | _ => None
      end
  end.

(** One iteration of the loop of [extractGoPackages] on the pair of
    [inRequireBlock] and [packages]. *)
Definition go_line (manifestFile : jsstring)
    (state : bool * list PackageInfo) (line : jsstring)
  : bool * list PackageInfo :=
  let trimmed := trim line in
  if Js.eqb trimmed (u "require (") then (true, snd state)
  else if Js.eqb trimmed (u ")") then (false, snd state)
  else if negb (truthy trimmed) || starts_with (u "//") trimmed then state
  else
    match match_require trimmed with
    | Some (name, version) =>
        if fst state || starts_with (u "require") trimmed
        then (fst state,
              snd state ++ [package "Go" name version manifestFile])
        else state
    | None => state
    end.

Definition extractGoPackages (content manifestFile : jsstring)
  : list PackageInfo :=
  snd (fold_left (go_line manifestFile) (split_on 10%N content) (false, [])).

(** The two [trimmed.match(...)] of [extractRustPackages]: the table form
    is tried only when the plain form does not match. *)
Definition match_dependency (trimmed : jsstring)
  : option (jsstring * jsstring) :=
  match match_parts re_dep_plain trimmed with
  | Some ([name; _; _; _; _; version; _], _) => Some (name, version)
  | _ =>
      match match_parts re_dep_table trimmed with
      | Some ([name; _; _; _; _; _; _; _; _; _; _; version; _], _) =>
          Some (name, version)
      | _ => None
      end
  end.

(** One iteration of the loop of [extractRustPackages] on the pair of
    [inDependencies] and [packages]. *)
Definition rust_line (manifestFile : jsstring)
    (state : bool * list PackageInfo) (line : jsstring)
  : bool * list PackageInfo :=
  let trimmed := trim line in
  if Js.eqb trimmed (u "[dependencies]")
     || Js.eqb trimmed (u "[dev-dependencies]")
  then (true, snd state)
  else if starts_with (u "[") trimmed && fst state then (false, snd state)
  else if negb (truthy trimmed) || starts_with (u "#") trimmed
          || negb (fst state)
  then state
  else
    match match_dependency trimmed with
    | Some (name, matched) =>
        let version := cleanVersion (Some matched) in
        if truthy version
        then (fst state,
              snd state ++ [package "crates.io" name version manifestFile])
        else state
    | None => state
    end.

Definition extractRustPackages (content manifestFile : jsstring)
  : list PackageInfo :=
  snd (fold_left (rust_line manifestFile) (split_on 10%N content) (false, [])).

(** The body of the [while] loop of [extractMavenPackages] for one match. *)
Definition maven_match (manifestFile : jsstring)
    (packages : list PackageInfo) (matched : list jsstring)
  : list PackageInfo :=
  match matched with
  | [_; _; _; g; _; _; _; a; _; _; _; v; _; _; _] =>
      let groupId := trim g in
      let artifactId := trim a in
      let version := cleanVersion (Some (trim v)) in
      if truthy version
      then packages ++
           [package "Maven" (groupId ++ u ":" ++ artifactId) version
              manifestFile]
      else packages
  | _ => packages
  end.

(** A match consumes at least one character, so the loop runs at most
    [content.length] times. *)
Definition extractMavenPackages (content manifestFile : jsstring)
  : list PackageInfo :=
  fold_left (maven_match manifestFile)
    (exec_all (List.length content) re_dependency content) [].

End Parsers.

(** The parsers of the source as the parsers of the scan. *)
#[local] Instance source_parsers : ManifestParsers := {|
  extractPythonPackages := Parsers.extractPythonPackages;
  extractGoPackages := Parsers.extractGoPackages;
  extractRustPackages := Parsers.extractRustPackages;
  extractMavenPackages := Parsers.extractMavenPackages
|}.

(* ================================================================= *)
(** ** Notions used by the further properties *)

(** A text without whitespace. *)
Definition no_ws (s : jsstring) : bool :=
  forallb (fun x => negb (is_ws x)) s.

(** What an atom of an expression can consume. *)
Definition fits (a : atom) (t : jsstring) : Prop :=
  match a with
  | Lit l => t = l
  | Many p => forallb p t = true
  | Many1 p => t <> [] /\ forallb p t = true
  | Few p => forallb p t = true
  end.

(** [a <= b] on two numbers. *)
Definition num_leb (a b : number) : bool :=
  match a, b with
  | NaN, _ | _, NaN => false
  | NegInf, _ => true
  | _, PosInf => true
  | Fin p, Fin q => Qle_bool p q
  | _, _ => false
  end.

(** The severities by increasing risk. *)
Definition severity_rank (s : Severity) : nat :=
  match s with
  | UNKNOWN => 0
  | LOW => 1
  | MEDIUM => 2
  | HIGH => 3
  | CRITICAL => 4
  end.

(** [v] is the non-empty [fixed] value of an event of a range of an
    affected entry of [apiVuln] whose package name is that of [pkg]. *)
Definition fixed_for (apiVuln : OsvApiVulnerability) (pkg : PackageInfo)
    (v : jsstring) : Prop :=
  exists affs aff p rs r evs ev,
    api_affected apiVuln = Some affs /\ In aff affs /\
    aff_package aff = Some p /\ op_name p = pkg_name pkg /\
    aff_ranges aff = Some rs /\ In r rs /\
    range_events r = Some evs /\ In ev evs /\
    ev_fixed ev = Some v /\ v <> [].

(** The batch requests posted in a trace, oldest first. *)
Definition posts (events : list Event) : list OsvBatchRequest :=
  flat_map (fun ev => match ev with EvPost r => [r] | _ => [] end) events.

(** The query sent for a package. *)
Definition query_of (pkg : PackageInfo) : OsvPackageQuery :=
  {| q_ecosystem := pkg_ecosystem pkg;
     q_name := pkg_name pkg;
     q_version := pkg_version pkg |}.

(** A vulnerability reported for one of [packages]. *)
Definition reported_for (packages : list PackageInfo) (v : OsvVulnerability)
  : Prop :=
  exists pkg,
    In pkg packages /\
    packageName v = pkg_name pkg /\
    version v = pkg_version pkg /\
    ecosystem v = pkg_ecosystem pkg /\
    manifestFile v = pkg_manifestFile pkg.

Section Behaviours.

Context {svc : OsvService}.

(** A service whose batch endpoint always answers with a success status
    and a JSON body. *)
Definition always_answers : Prop :=
  forall req env, exists status data env',
    post_querybatch req env = (Response status (JsonOk data), env') /\
    response_ok status = true.

(** A service whose detail endpoint never gives a record. *)
Definition details_unavailable : Prop :=
  forall vulnId env,
    match fst (get_vuln vulnId env) with
    | Response status (JsonOk _) => response_ok status = false
    | _ => True
    end.

(** What [fetchVulnerabilityDetails] makes of the outcome of its request. *)
Definition details_of (outcome : FetchOutcome OsvApiVulnerability)
  : option OsvApiVulnerability :=
  match outcome with
  | Response status (JsonOk v) => if response_ok status then Some v else None
  | _ => None
  end.

End Behaviours.

(** A service that finds nothing: every batch is answered with status 200
    and no results, every detail request with 404. *)
Module Quiet.

#[local] Instance service : OsvService := {|
  Env := unit;
  post_querybatch := fun _ env =>
    (Response 200 (JsonOk {| results := [] |}), env);
  get_vuln := fun _ env => (Response 404 (JsonFails []), env);
  wait := fun _ env => env;
  clock := fun env => (0%Z, env)
|}.

End Quiet.

(** Every entry of the map belongs to one of [packages] and holds at least
    one vulnerability. *)
Definition keyed_by (packages : list PackageInfo) (m : VulnMap) : Prop :=
  forall key vs,
    map_get key m = Some vs ->
    vs <> [] /\ exists pkg, In pkg packages /\ key = package_key pkg.

(** [t] is [literal] up to the case of ASCII letters. *)
Definition ci_equal (literal : string) (t : jsstring) : Prop :=
  Forall2 (fun a c => ci a c = true) (list_ascii_of_string literal) t.

(** [s] ends with [literal] up to the case of ASCII letters. *)
Definition ends_ci (literal : string) (s : jsstring) : Prop :=
  exists p t, s = p ++ t /\ ci_equal literal t.

(** The file-name endings that [detectManifestType] looks for. *)
Definition recognized_suffixes : list string :=
  ["package.json"; "requirements.txt"; "Pipfile"; "pyproject.toml";
   "go.mod"; "Cargo.toml"; "pom.xml"; "packages.config"; ".csproj";
   "composer.json"; "Gemfile"]%string.

(** The identifier of an ecosystem, as [OsvEcosystem] spells it. *)
Definition ecosystem_text (e : OsvEcosystem) : jsstring :=
  match e with
  | Npm => u "npm"
  | PyPI => u "PyPI"
  | Go => u "Go"
  | CratesIo => u "crates.io"
  | Maven => u "Maven"
  | NuGet => u "NuGet"
  | Packagist => u "Packagist"
  | RubyGems => u "RubyGems"
  | Hex => u "Hex"
  end.

(** A package of ecosystem [eco] read from [manifestFile], with a
    non-empty name and a non-empty version made of the given characters. *)
Definition package_of (eco : string) (manifestFile : jsstring)
    (name_ok version_ok : char -> bool) (p : PackageInfo) : Prop :=
  pkg_ecosystem p = u eco /\
  pkg_manifestFile p = manifestFile /\
  pkg_name p <> [] /\ forallb name_ok (pkg_name p) = true /\
  pkg_version p <> [] /\ forallb version_ok (pkg_version p) = true.

(** A package with a cleaned, non-empty version read from [manifestFile]. *)
Definition cleaned_package (eco : string) (manifestFile : jsstring)
    (p : PackageInfo) : Prop :=
  pkg_ecosystem p = u eco /\
  pkg_manifestFile p = manifestFile /\
  pkg_version p <> [] /\ no_ws (pkg_version p) = true.

(** A package extracted from one of the recognized files of [files]. *)
Definition extracted_from {rt : JsRuntime} (files : list FileRec)
    (p : PackageInfo) : Prop :=
  pkg_version p <> [] /\
  exists file e,
    In file files /\ pkg_manifestFile p = path file /\
    detectManifestType (path file) = Some e /\
    pkg_ecosystem p = ecosystem_text e.

(** A runtime whose [JSON.parse] reads every text as [null]. *)
Module Null.

#[local] Instance runtime : JsRuntime := {|
  toUpperCase := fun s => s;
  toLowerCase := fun s => s;
  parseFloat := fun _ => NaN;
  JSON_parse := fun _ => Some JNull
|}.

End Null.

(* ================================================================= *)
(** ** A concrete runtime, service and inputs for the examples *)

Module Demo.

Definition ascii_lower (c : char) : char :=
  if (65 <=? c)%N && (c <=? 90)%N then (c + 32)%N else c.

Definition digit (c : char) : option N :=
  if (48 <=? c)%N && (c <=? 57)%N then Some (c - 48)%N else None.

(** Digits read so far as a numerator and a count of the digits read. *)
Fixpoint digits (acc : N) (count : nat) (s : jsstring) : N * nat * jsstring :=
  match s with
  | c :: s' =>
      match digit c with
      | Some d => digits (10 * acc + d)%N (S count) s'
      | None => (acc, count, s)
      end
  | [] => (acc, count, s)
  end.

(** [parseFloat] on unsigned decimal literals [ddd] and [ddd.ddd]; every
    other text is read as NaN. *)
Definition parse_decimal (s : jsstring) : number :=
  let '(int_part, n_int, rest) := digits 0 0 s in
  match n_int with
  | O => NaN
  | S _ =>
      match rest with
      | c :: rest' =>
          if N.eqb c (ch ".") then
            let '(all_digits, n_frac, _) := digits int_part 0 rest' in
            Fin (Z.of_N all_digits # Nat.iter n_frac (Pos.mul 10) 1%positive)
          else Fin (Z.of_N int_part # 1)
      | [] => Fin (Z.of_N int_part # 1)
      end
  end.

(** Text written with apostrophes in place of the double quotes. *)
Definition quoted (s : string) : jsstring :=
  map (fun c => if N.eqb c 39 then 34%N else c) (u s).

Definition manifest_text : jsstring :=
  quoted "{'dependencies':{'lodash':'^4.17.21','left-pad':'1.2.x'},'devDependencies':{'jest':'~29.0.0'}}".

Definition manifest_value : json :=
  JObj [(u "dependencies",
         JObj [(u "lodash", JStr (u "^4.17.21"));
               (u "left-pad", JStr (u "1.2.x"))]);
        (u "devDependencies", JObj [(u "jest", JStr (u "~29.0.0"))])].

(** A runtime that knows one document. *)
#[local] Instance runtime : JsRuntime := {|
  toUpperCase := map ascii_upper;
  toLowerCase := map ascii_lower;
  parseFloat := parse_decimal;
  JSON_parse := fun text =>
    if Js.eqb text manifest_text then Some manifest_value else None
|}.

#[local] Instance no_other_parsers : ManifestParsers := {|
  extractPythonPackages := fun _ _ => [];
  extractGoPackages := fun _ _ => [];
  extractRustPackages := fun _ _ => [];
  extractMavenPackages := fun _ _ => []
|}.

(** A service that answers the POSTs from a script, answers every detail
    request with 404, and whose clock stands still. *)
#[local] Instance scripted : OsvService := {|
  Env := list (FetchOutcome OsvBatchResponse);
  post_querybatch := fun _ env =>
    match env with
    | [] => (Rejected (u "fetch failed"), [])
    | o :: env' => (o, env')
    end;
  get_vuln := fun _ env => (Response 404 (JsonFails []), env);
  wait := fun _ env => env;
  clock := fun env => (0%Z, env)
|}.

Definition bare_vuln (vid : string) : OsvApiVulnerability :=
  {| api_id := u vid;
     api_summary := None;
     api_details := None;
     api_aliases := None;
     api_affected := None;
     api_references := None;
     api_severity := None;
     api_database_specific := None |}.

Definition scored_vuln (score : number) : OsvApiVulnerability :=
  {| api_id := u "GHSA-demo";
     api_summary := None;
     api_details := None;
     api_aliases := None;
     api_affected := None;
     api_references := None;
     api_severity := None;
     api_database_specific :=
       Some {| ds_severity := None; ds_cvss_score := Some score |} |}.

End Demo.

(* ================================================================= *)
(** * Properties *)

(** ** Evaluation on concrete inputs *)

Example cleanVersion_range :
  cleanVersion (Some (u "1.0.0 - 2.0.0")) = u "1.0.0".
Proof. reflexivity. Qed.

Example cleanVersion_prerelease :
  cleanVersion (Some (u "1.0.0-beta.1")) = u "1.0.0".
Proof. reflexivity. Qed.

Example cleanVersion_spaced_constraint :
  cleanVersion (Some (u ">= 1.2.3")) = [].
Proof. reflexivity. Qed.

Example cleanVersion_two_constraints :
  cleanVersion (Some (u "  >=1.0.0 <2.0.0 ")) = u "1.0.0".
Proof. reflexivity. Qed.

Example cleanVersion_star : cleanVersion (Some (u "*")) = u "0".
Proof. reflexivity. Qed.

Example detect_npm :
  detectManifestType (rt := Demo.runtime) (u "web/Package.JSON") = Some Npm.
Proof. reflexivity. Qed.

Example detect_python :
  detectManifestType (rt := Demo.runtime) (u "api/pyproject.toml") = Some PyPI.
Proof. reflexivity. Qed.

Example detect_gradle_unsupported :
  detectManifestType (rt := Demo.runtime) (u "build.gradle") = None.
Proof. reflexivity. Qed.

Example classify_database_text :
  mapOsvSeverity (rt := Demo.runtime)
    {| api_id := u "GHSA-1"; api_summary := None; api_details := None;
       api_aliases := None; api_affected := None; api_references := None;
       api_severity := None;
       api_database_specific :=
         Some {| ds_severity := Some (u "Moderate");
                 ds_cvss_score := None |} |}
  = MEDIUM.
Proof. reflexivity. Qed.

Example classify_severity_entry :
  mapOsvSeverity (rt := Demo.runtime)
    {| api_id := u "GHSA-2"; api_summary := None; api_details := None;
       api_aliases := None; api_affected := None; api_references := None;
       api_severity :=
         Some [{| sev_type := u "CVSS_V3"; sev_score := u "9.8" |}];
       api_database_specific := None |}
  = CRITICAL.
Proof. reflexivity. Qed.

Example classify_vector_entry :
  mapOsvSeverity (rt := Demo.runtime)
    {| api_id := u "GHSA-3"; api_summary := None; api_details := None;
       api_aliases := None; api_affected := None; api_references := None;
       api_severity :=
         Some [{| sev_type := u "CVSS_V3";
                  sev_score := u "CVSS:3.1/AV:N/AC:L" |}];
       api_database_specific :=
         Some {| ds_severity := Some (u "LOW"); ds_cvss_score := None |} |}
  = LOW.
Proof. reflexivity. Qed.

Example convert_fixed_versions :
  let fixed (v : string) := {| ev_introduced := None; ev_fixed := Some (u v);
                    ev_last_affected := None; ev_limit := None |} in
  let range (vs : list string) := {| range_type := u "SEMVER";
                     range_events := Some (map fixed vs) |} in
  let affected (name : string) (vs : list string) :=
    {| aff_package := Some {| op_ecosystem := u "npm"; op_name := u name |};
       aff_ranges := Some [range vs];
       aff_versions := None;
       aff_database_specific := None |} in
  let pkg := {| pkg_name := u "lodash"; pkg_version := u "4.17.20";
                pkg_ecosystem := u "npm";
                pkg_manifestFile := u "package.json" |} in
  let vuln :=
    {| api_id := u "GHSA-4"; api_summary := Some (u "  ");
       api_details := Some (u "Prototype pollution. More text.");
       api_aliases := None;
       api_affected :=
         Some [affected "lodash"%string
                 ["4.17.21"%string; "5.0.0"%string];
               affected "other"%string ["9.9.9"%string];
               affected "lodash"%string ["4.17.21"%string]];
       api_references := None; api_severity := None;
       api_database_specific := None |} in
  let converted := convertOsvVulnerability (rt := Demo.runtime) vuln pkg in
  fixedVersions converted = [u "4.17.21"; u "5.0.0"] /\
  summary converted = u "Prototype pollution" /\
  severity converted = MEDIUM.
Proof. repeat split. Qed.

Example scan_reports_one_vulnerability :
  let found : FetchOutcome OsvBatchResponse :=
    Response 200
      (JsonOk {| results :=
                   [{| vulns := Some [Demo.scored_vuln (Fin (19 # 2))] |}] |}) in
  let w : World (svc := Demo.scripted) := ([found], []) in
  let manifest := {| path := u "package.json";
                     content := Demo.manifest_text |} in
  let reply := action (rt := Demo.runtime)
                 (parsers := Demo.no_other_parsers)
                 (BodyFiles (Some [manifest])) w in
  success (fst (fst reply)) = true /\
  stats (fst (fst reply))
  = {| total := 1; critical := 1; high := 0; medium := 0; low := 0 |} /\
  scannedPackages (fst (fst reply)) = 3 /\
  snd (snd reply)
  = [EvPost (batch_request
               (extractNpmPackages (rt := Demo.runtime) Demo.manifest_text
                  (u "package.json")));
     EvGet (u "GHSA-demo")].
Proof. repeat split. Qed.

(** ** Strings *)

Ltac case_ifs :=
  repeat match goal with
         | |- context [if ?b then _ else _] => destruct b
         end.

Lemma eqb_eq (a b : jsstring) : Js.eqb a b = true <-> a = b.
Proof.
  unfold Js.eqb. destruct (list_eq_dec N.eq_dec a b); split; congruence.
Qed.

Lemma eqb_refl (a : jsstring) : Js.eqb a a = true.
Proof. now apply eqb_eq. Qed.

Lemma truthy_nonempty (s : jsstring) : truthy s = true <-> s <> [].
Proof. destruct s; simpl; split; congruence. Qed.

(** ** Numbers *)

Lemma num_lt_not_ge (a : number) (b : Q) :
  num_lt a b = true -> num_ge a b = false.
Proof.
  destruct a; simpl; try discriminate; auto.
  destruct (q ?= b)%Q; auto; discriminate.
Qed.

Lemma num_ge_or_lt (a : number) (b : Q) :
  a <> NaN -> num_ge a b = true \/ num_lt a b = true.
Proof.
  destruct a; simpl; auto; try congruence.
  destruct (q ?= b)%Q; auto.
Qed.

(** ** Severity classification *)

Section ClassifierFacts.

Context {rt : JsRuntime}.

Lemma first_cvss_entry_not_NaN (sevs : list OsvSeverity) (n : number) :
  first_cvss_entry sevs = Some n -> n <> NaN.
Proof.
  induction sevs as [|sev rest IH]; simpl; [discriminate|].
  destruct (includes (u "CVSS") (sev_type sev)); auto.
  destruct (parseFloat (sev_score sev)) eqn:E; simpl; auto;
    intros [= <-]; discriminate.
Qed.

Lemma getCvssScore_not_NaN (vuln : OsvApiVulnerability) (n : number) :
  getCvssScore vuln = Some n -> n <> NaN.
Proof.
  unfold getCvssScore, db_cvss_score.
  destruct (api_database_specific vuln) as [ds|].
  - destruct (ds_cvss_score ds) as [m|].
    + destruct (num_truthy m) eqn:T.
      * intros [= <-]. destruct m; simpl in T; congruence.
      * destruct (api_severity vuln) as [[|sev rest]|]; try discriminate.
        apply first_cvss_entry_not_NaN.
    + destruct (api_severity vuln) as [[|sev rest]|]; try discriminate.
      apply first_cvss_entry_not_NaN.
  - destruct (api_severity vuln) as [[|sev rest]|]; try discriminate.
    apply first_cvss_entry_not_NaN.
Qed.

Lemma severity_of_text_known (text : jsstring) (s : Severity) :
  severity_of_text text = Some s -> s <> UNKNOWN.
Proof.
  unfold severity_of_text. case_ifs; intros [= <-]; discriminate.
Qed.

Lemma mapOsvSeverity_known (vuln : OsvApiVulnerability) :
  mapOsvSeverity vuln <> UNKNOWN.
Proof.
  unfold mapOsvSeverity.
  destruct (getCvssScore vuln) as [score|].
  - case_ifs; discriminate.
  - destruct (severity_field vuln) as [s|] eqn:E1.
    + unfold severity_field in E1.
      destruct (api_severity vuln) as [[|sev0 rest]|]; try discriminate.
      eapply severity_of_text_known; eauto.
    + destruct (db_severity_field vuln) as [s|] eqn:E2; [|discriminate].
      unfold db_severity_field in E2.
      destruct (api_database_specific vuln) as [ds|]; try discriminate.
      destruct (ds_severity ds) as [t|]; try discriminate.
      destruct (truthy t); try discriminate.
      eapply severity_of_text_known; eauto.
Qed.

(** C1. [mapOsvSeverity] returns one of the five severities for every raw
    record, it never returns [UNKNOWN], and a record that carries no CVSS
    score, no severity entries and no database-specific severity is
    classified [MEDIUM]. *)
Theorem mapOsvSeverity_total_default_medium :
  forall vuln : OsvApiVulnerability,
    In (mapOsvSeverity vuln) [CRITICAL; HIGH; MEDIUM; LOW; UNKNOWN] /\
    mapOsvSeverity vuln <> UNKNOWN /\
    (carries_no_severity_data vuln -> mapOsvSeverity vuln = MEDIUM).
Proof.
  intros vuln. split; [|split].
  - destruct (mapOsvSeverity vuln); simpl; auto 6.
  - apply mapOsvSeverity_known.
  - intros [Hsev Hdb].
    unfold mapOsvSeverity, getCvssScore, db_cvss_score, severity_field,
      db_severity_field.
    destruct (api_database_specific vuln) as [ds|].
    + destruct (Hdb ds eq_refl) as [-> ->].
      destruct Hsev as [-> | ->]; reflexivity.
    + destruct Hsev as [-> | ->]; reflexivity.
Qed.

(** C4. Whenever [getCvssScore] yields a score, the classification follows
    the thresholds 9.0, 7.0 and 4.0; a record whose
    [database_specific.cvss_score] is 9.5 is [CRITICAL], and with 6.0 it is
    [MEDIUM]. *)
Theorem mapOsvSeverity_cvss_thresholds :
  forall vuln : OsvApiVulnerability,
    (forall score,
        getCvssScore vuln = Some score ->
        (num_ge score 9 = true -> mapOsvSeverity vuln = CRITICAL) /\
        (num_ge score 7 = true -> num_lt score 9 = true ->
         mapOsvSeverity vuln = HIGH) /\
        (num_ge score 4 = true -> num_lt score 7 = true ->
         mapOsvSeverity vuln = MEDIUM) /\
        (num_ge score 9 = false ->
         ~ (num_ge score 7 = true /\ num_lt score 9 = true) ->
         ~ (num_ge score 4 = true /\ num_lt score 7 = true) ->
         mapOsvSeverity vuln = LOW)) /\
    (forall ds,
        api_database_specific vuln = Some ds ->
        (ds_cvss_score ds = Some (Fin (19 # 2)) ->
         mapOsvSeverity vuln = CRITICAL) /\
        (ds_cvss_score ds = Some (Fin 6) -> mapOsvSeverity vuln = MEDIUM)).
Proof.
  intros vuln. split.
  - intros score Hs. pose proof (getCvssScore_not_NaN _ _ Hs) as Hn.
    unfold mapOsvSeverity. rewrite Hs.
    repeat split.
    + intros ->. reflexivity.
    + intros H7 H9. rewrite (num_lt_not_ge _ _ H9), H7. reflexivity.
    + intros H4 H7. rewrite (num_lt_not_ge _ _ H7).
      destruct (num_ge score 9) eqn:H9.
      * exfalso. destruct score; simpl in *; try discriminate.
        destruct (q ?= 7)%Q eqn:C7; try discriminate.
        destruct (q ?= 9)%Q eqn:C9; try discriminate.
        -- apply Qeq_alt in C9. apply Qlt_alt in C7. rewrite C9 in C7.
           discriminate.
        -- apply Qgt_alt in C9. apply Qlt_alt in C7.
           assert (9 < 7)%Q by (eapply Qlt_trans; eauto). discriminate.
      * rewrite H4. reflexivity.
    + intros H9 N7 N4. rewrite H9.
      destruct (num_ge score 7) eqn:H7.
      * exfalso. apply N7. split; auto.
        destruct (num_ge_or_lt _ 9 Hn); congruence.
      * destruct (num_ge score 4) eqn:H4; auto.
        exfalso. apply N4. split; auto.
        destruct (num_ge_or_lt _ 7 Hn); congruence.
  - intros ds Hds. unfold mapOsvSeverity, getCvssScore, db_cvss_score.
    rewrite Hds. split; intros ->; reflexivity.
Qed.

End ClassifierFacts.

Lemma mapOsvSeverity_default_witness :
  carries_no_severity_data (Demo.bare_vuln "GHSA-0000") /\
  mapOsvSeverity (rt := Demo.runtime) (Demo.bare_vuln "GHSA-0000") = MEDIUM.
Proof.
  assert (H : carries_no_severity_data (Demo.bare_vuln "GHSA-0000")).
  { split; [left; reflexivity | intros ds Hds; discriminate Hds]. }
  split; [exact H|].
  exact (proj2 (proj2 (mapOsvSeverity_total_default_medium
                         (rt := Demo.runtime) _)) H).
Defined.

Lemma mapOsvSeverity_high_witness :
  getCvssScore (rt := Demo.runtime) (Demo.scored_vuln (Fin (15 # 2)))
    = Some (Fin (15 # 2)) /\
  mapOsvSeverity (rt := Demo.runtime) (Demo.scored_vuln (Fin (15 # 2))) = HIGH.
Proof.
  split; [reflexivity|].
  refine (proj1 (proj2 (proj1 (mapOsvSeverity_cvss_thresholds
                                 (rt := Demo.runtime) _) _ _)) _ _);
    reflexivity.
Defined.

(** ** Conversion of an OSV record *)





Section ConvertFacts.

Context {rt : JsRuntime}.

Lemma convert_severity (apiVuln : OsvApiVulnerability) (pkg : PackageInfo) :
  severity (convertOsvVulnerability apiVuln pkg) = mapOsvSeverity apiVuln.
Proof. reflexivity. Qed.




End ConvertFacts.

(** ** Statistics *)

Lemma calculateStats_total (vs : list OsvVulnerability) :
  total (calculateStats vs) = List.length vs.
Proof. reflexivity. Qed.

Lemma calculateStats_buckets (vs : list OsvVulnerability) :
  Forall counted vs ->
  List.length vs
  = (critical (calculateStats vs) + high (calculateStats vs)
     + medium (calculateStats vs) + low (calculateStats vs))%nat.
Proof.
  unfold calculateStats, count_severity. cbn [critical high medium low].
  induction 1 as [|v vs Hv _ IH]; [reflexivity|].
  cbn [filter List.length]. unfold counted in Hv.
  destruct (severity v); try congruence; cbn [Severity_eqb List.length]; lia.
Qed.

(** ** The client: what a scan can return *)

Section ClientFacts.

Context {rt : JsRuntime} {svc : OsvService}.

Lemma convert_counted (apiVuln : OsvApiVulnerability) (pkg : PackageInfo) :
  counted (convertOsvVulnerability apiVuln pkg).
Proof. unfold counted. rewrite convert_severity. apply mapOsvSeverity_known. Qed.

Lemma convert_each_counted (pkg : PackageInfo) (vs : list OsvApiVulnerability)
    (acc : list OsvVulnerability) :
  Forall counted acc ->
  Forall counted
    (fold_left (fun acc apiVuln => acc ++ [convertOsvVulnerability apiVuln pkg])
       vs acc).
Proof.
  revert acc. induction vs as [|v vs IH]; simpl; intros acc Hacc; auto.
  apply IH. apply Forall_app. split; auto.
  constructor; [apply convert_counted|constructor].
Qed.

Lemma convert_all_counted (packages : list PackageInfo) (m : VulnMap) :
  Forall counted (convert_all packages m).
Proof.
  unfold convert_all.
  assert (H : forall acc, Forall counted acc ->
           Forall counted
             (fold_left
                (fun allVulnerabilities pkg =>
                   match map_get (package_key pkg) m with
                   | Some vs =>
                       fold_left
                         (fun acc apiVuln =>
                            acc ++ [convertOsvVulnerability apiVuln pkg])
                         vs allVulnerabilities
                   | None => allVulnerabilities
                   end) packages acc)).
  { induction packages as [|pkg rest IH]; simpl; intros acc Hacc; auto.
    apply IH. destruct (map_get (package_key pkg) m); auto.
    now apply convert_each_counted. }
  apply H. constructor.
Qed.

Lemma scanPackages_counted (packages : list PackageInfo) (w w' : World)
    (vs : list OsvVulnerability) :
  scanPackages packages w = (Ok vs, w') -> Forall counted vs.
Proof.
  unfold scanPackages. destruct packages as [|pkg rest].
  - intros [= <- _]. constructor.
  - unfold bind, ret.
    destruct (queryOsvBatch (pkg :: rest) w) as [[m|e] w1]; intros [= <- _].
    apply convert_all_counted.
Qed.

End ClientFacts.

(** ** The scan action *)

Section RouteFacts.

Context {rt : JsRuntime} {parsers : ManifestParsers} {svc : OsvService}.

Lemma date_now_trace (w : World) : snd (snd (date_now w)) = snd w.
Proof. unfold date_now. destruct (clock (fst w)). reflexivity. Qed.

(** Every reply is a failure with no vulnerabilities, or a success whose
    statistics are those of its vulnerabilities, all of them counted. *)
Lemma action_reply_cases (request : RequestBody) (w : World) :
  (exists message duration status,
      fst (action request w) = failure message duration status) \/
  (exists vs files packages duration,
      Forall counted vs /\
      fst (action request w)
      = ({| success := true;
            vulnerabilities := vs;
            stats := calculateStats vs;
            scannedFiles := files;
            scannedPackages := packages;
            scanDuration := duration;
            error := None |}, 200%Z)).
Proof.
  unfold action.
  destruct (date_now w) as [startTime w0].
  destruct (action_try startTime request w0) as [[reply|e] w1] eqn:Etry.
  - cbn [fst]. unfold action_try in Etry.
    destruct request as [e|[[|file files]|]];
      try (injection Etry as <- _; left; eauto; fail);
      try discriminate.
    destruct (filter is_manifest (file :: files)) as [|m ms];
      [injection Etry as <- _; left; eauto|].
    destruct (extractAllPackages (m :: ms)) as [|pkg pkgs].
    + unfold bind, get_time, ret in Etry.
      destruct (date_now w0) as [now w'].
      injection Etry as <- _. right.
      exists [], (List.length (m :: ms)), 0%nat, (now - startTime)%Z.
      split; [constructor|reflexivity].
    + unfold bind, get_time, ret in Etry.
      destruct (scanPackages (pkg :: pkgs) w0) as [[vs|e] w'] eqn:Escan;
        [|discriminate].
      destruct (date_now w') as [now w''].
      injection Etry as <- _. right.
      exists vs, (List.length (m :: ms)), (List.length (pkg :: pkgs)),
        (now - startTime)%Z.
      split; [eapply scanPackages_counted; eauto|reflexivity].
  - destruct (date_now w1) as [now w2]. left. cbn [fst]. eauto.
Qed.

(** C10. In every reply of the scan action, [stats.total] is the number
    of vulnerabilities and is the sum of the four severity counts; no
    vulnerability of the reply has the severity [UNKNOWN]. *)
Theorem action_stats_consistent :
  forall (request : RequestBody) (w : World),
    let result := fst (fst (action request w)) in
    total (stats result) = List.length (vulnerabilities result) /\
    total (stats result)
    = (critical (stats result) + high (stats result)
       + medium (stats result) + low (stats result))%nat /\
    Forall counted (vulnerabilities result).
Proof.
  intros request w result. subst result.
  destruct (action_reply_cases request w)
    as [(message & duration & status & ->)
       |(vs & files & packages & duration & Hvs & ->)].
  - repeat split. constructor.
  - cbn [fst stats vulnerabilities]. repeat split.
    + rewrite calculateStats_total. now apply calculateStats_buckets.
    + exact Hvs.
Qed.

Lemma filter_none (files : list FileRec) :
  (forall f, In f files -> detectManifestType (path f) = None) ->
  filter is_manifest files = [].
Proof.
  induction files as [|f files IH]; intros H; [reflexivity|].
  cbn [filter]. unfold is_manifest at 1.
  rewrite (H f (or_introl eq_refl)). apply IH.
  intros g Hg. apply H. now right.
Qed.

Lemma filter_some (files : list FileRec) :
  (exists f, In f files /\ detectManifestType (path f) <> None) ->
  filter is_manifest files <> [].
Proof.
  intros (f & Hin & Hf) Hnil.
  assert (In f (filter is_manifest files)) as Hin'.
  { apply filter_In. split; [exact Hin|]. unfold is_manifest.
    destruct (detectManifestType (path f)); congruence. }
  rewrite Hnil in Hin'. destruct Hin'.
Qed.

(** C2. For a non-empty file list: when no path matches a manifest
    pattern the reply has [success = false], the error text about missing
    manifest files and no vulnerabilities; when some manifest file is
    recognized and no package is extracted from the recognized files the
    reply has [success = true], no vulnerabilities and all-zero stats. *)
Theorem action_without_manifests_or_packages :
  forall (files : list FileRec) (w : World),
    files <> [] ->
    let result := fst (fst (action (BodyFiles (Some files)) w)) in
    ((forall f, In f files -> detectManifestType (path f) = None) ->
     success result = false /\
     error result = Some no_manifest_error /\
     no_manifest_error <> [] /\
     vulnerabilities result = []) /\
    ((exists f, In f files /\ detectManifestType (path f) <> None) ->
     extractAllPackages (filter is_manifest files) = [] ->
     success result = true /\
     vulnerabilities result = [] /\
     stats result = zero_stats).
Proof.
  intros files w Hfiles result. subst result.
  unfold action. destruct (date_now w) as [startTime w0].
  unfold action_try. destruct files as [|file files]; [congruence|].
  split.
  - intros Hnone. rewrite (filter_none _ Hnone).
    unfold ret. cbn. repeat split; discriminate.
  - intros Hsome Hpkgs. pose proof (filter_some _ Hsome) as Hne.
    destruct (filter is_manifest (file :: files)) as [|m ms] eqn:Ef;
      [congruence|].
    rewrite Hpkgs. unfold bind, get_time, ret.
    destruct (date_now w0) as [now w1]. cbn. repeat split.
Qed.

End RouteFacts.

Lemma action_manifest_witness :
  let w : World (svc := Demo.scripted) := ([], []) in
  let readme := {| path := u "README.md"; content := [] |} in
  let gemfile := {| path := u "Gemfile"; content := [] |} in
  success (fst (fst (action (rt := Demo.runtime)
                       (parsers := Demo.no_other_parsers)
                       (BodyFiles (Some [readme])) w))) = false /\
  success (fst (fst (action (rt := Demo.runtime)
                       (parsers := Demo.no_other_parsers)
                       (BodyFiles (Some [gemfile])) w))) = true.
Proof.
  intros w readme gemfile. split.
  - refine (proj1 (proj1 (action_without_manifests_or_packages
                            (rt := Demo.runtime)
                            (parsers := Demo.no_other_parsers)
                            [readme] w _) _)).
    + discriminate.
    + intros f [<- | []]. reflexivity.
  - refine (proj1 (proj2 (action_without_manifests_or_packages
                            (rt := Demo.runtime)
                            (parsers := Demo.no_other_parsers)
                            [gemfile] w _) _ _)).
    + discriminate.
    + exists gemfile. split; [left; reflexivity | discriminate].
    + reflexivity.
Defined.

(** ** The npm parser *)

Lemma push_entries_spec (manifestFile : jsstring) (v : access)
    (packages : list PackageInfo) :
  push_entries manifestFile v packages
  = packages ++ map (npm_package manifestFile) (filter usable (string_entries v)).
Proof.
  unfold push_entries, string_entries.
  destruct (object_entries v) as [entries|]; [|now rewrite app_nil_r].
  revert packages.
  induction entries as [|[name value] entries IH]; intros packages.
  - now rewrite app_nil_r.
  - cbn [fold_left flat_map]. rewrite IH. unfold push_entry at 1.
    cbn [fst snd].
    destruct value; try reflexivity.
    cbn [app filter]. unfold usable at 2. cbn [snd].
    destruct (truthy (cleanVersion (Some s))); [|reflexivity].
    cbn [map]. rewrite <- app_assoc. reflexivity.
Qed.

Lemma length_filter_all {A} (f : A -> bool) (l : list A) :
  forallb f l = true -> filter f l = l.
Proof.
  induction l as [|a l IH]; simpl; [reflexivity|].
  intros H. apply andb_true_iff in H as [-> H]. now rewrite IH.
Qed.

Section NpmFacts.

Context {rt : JsRuntime}.

(** C6. When the content parses to a JSON object, [extractNpmPackages]
    returns one npm record with the cleaned version for each string-valued
    entry of [dependencies] and [devDependencies] whose cleaned version is
    not empty, so as many records as such entries when no cleaned version
    is empty; when the content is not JSON it returns the empty list. *)
Theorem extractNpmPackages_entries :
  forall content manifestFile : jsstring,
    (forall fields,
        JSON_parse content = Some (JObj fields) ->
        extractNpmPackages content manifestFile
        = map (npm_package manifestFile)
            (filter usable (npm_entries (JObj fields))) /\
        (forallb usable (npm_entries (JObj fields)) = true ->
         List.length (extractNpmPackages content manifestFile)
         = List.length (npm_entries (JObj fields)))) /\
    (JSON_parse content = None ->
     extractNpmPackages content manifestFile = []).
Proof.
  intros content manifestFile. split.
  - intros fields Hparse.
    assert (extractNpmPackages content manifestFile
            = map (npm_package manifestFile)
                (filter usable (npm_entries (JObj fields)))) as Heq.
    { unfold extractNpmPackages, npm_entries. rewrite Hparse.
      cbn [get_property].
      destruct (assoc (u "dependencies") fields) as [deps|];
        destruct (assoc (u "devDependencies") fields) as [devDeps|];
        rewrite !push_entries_spec, filter_app, map_app; reflexivity. }
    split; [exact Heq|].
    intros Hall. rewrite Heq, length_map, (length_filter_all _ _ Hall).
    reflexivity.
  - intros Hparse. unfold extractNpmPackages. rewrite Hparse. reflexivity.
Qed.

End NpmFacts.

Lemma extractNpmPackages_witness :
  JSON_parse (JsRuntime := Demo.runtime) Demo.manifest_text
    = Some Demo.manifest_value /\
  List.length (extractNpmPackages (rt := Demo.runtime) Demo.manifest_text
                 (u "package.json")) = 3%nat /\
  extractNpmPackages (rt := Demo.runtime) (u "{not json") (u "package.json")
    = [].
Proof.
  split; [reflexivity|]. split.
  - transitivity (List.length (npm_entries Demo.manifest_value));
      [|reflexivity].
    refine (proj2 (proj1 (extractNpmPackages_entries (rt := Demo.runtime)
                            Demo.manifest_text (u "package.json")) _ _) _);
      reflexivity.
  - refine (proj2 (extractNpmPackages_entries (rt := Demo.runtime)
                     (u "{not json") (u "package.json")) _).
    reflexivity.
Defined.

(** ** Batched queries: rate limiting and failures *)

Section BatchFacts.

Context {rt : JsRuntime} {svc : OsvService}.

Lemma fetchVulnerabilityDetails_ok (vulnId : jsstring) (w : World) :
  exists r env',
    fetchVulnerabilityDetails vulnId w
    = (Ok r, (env', snd w ++ [EvGet vulnId])).
Proof.
  unfold fetchVulnerabilityDetails, try_catch, bind, fetch_get, log, ret.
  destruct (get_vuln vulnId (fst w)) as [[e|status body] env'];
    cbn [fst snd]; eauto.
  destruct (negb (response_ok status)); cbn; eauto.
  destruct body as [v|e]; cbn; eauto.
Qed.

Lemma fetch_all_details_ok (vs : list OsvApiVulnerability) (w : World) :
  exists r env' gets,
    only_gets gets /\
    fetch_all_details vs w = (Ok r, (env', snd w ++ gets)).
Proof.
  revert w. induction vs as [|v vs IH]; intros w; cbn [fetch_all_details].
  - exists [], (fst w), []. split; [constructor|].
    unfold ret. rewrite app_nil_r. now destruct w.
  - unfold bind at 1.
    destruct (fetchVulnerabilityDetails_ok (api_id v) w) as (r & env1 & ->).
    unfold bind at 1.
    destruct (IH (env1, snd w ++ [EvGet (api_id v)]))
      as (rs & env2 & gets & Hgets & ->).
    unfold ret. cbn [snd]. rewrite <- app_assoc.
    eexists _, env2, (EvGet (api_id v) :: gets).
    split; [constructor; auto|reflexivity].
Qed.

Lemma process_results_ok (batch : list PackageInfo) (index : nat)
    (data : OsvBatchResponse) (m : VulnMap) (w : World) :
  exists m' env' gets,
    only_gets gets /\
    process_results batch index data m w = (Ok m', (env', snd w ++ gets)).
Proof.
  revert index m w.
  induction batch as [|pkg rest IH]; intros index m w;
    cbn [process_results].
  - exists m, (fst w), []. split; [constructor|].
    unfold ret. rewrite app_nil_r. now destruct w.
  - destruct (nth_error (results data) index) as [[[[|v vs]|]]|]; auto.
    unfold bind.
    destruct (fetch_all_details_ok (v :: vs) w)
      as (full & env1 & gets1 & Hg1 & ->).
    destruct (IH (S index) (map_set (package_key pkg) full m)
                (env1, snd w ++ gets1))
      as (m' & env2 & gets2 & Hg2 & ->).
    cbn [snd]. rewrite <- app_assoc.
    exists m', env2, (gets1 ++ gets2).
    split; [apply Forall_app; auto|reflexivity].
Qed.

Lemma query_batches_abort (pre : list (list PackageInfo))
    (batch : list PackageInfo) (rest : list (list PackageInfo))
    (m0 m1 : VulnMap) (w0 w1 w2 : World) (e : exn) :
  query_batches pre m0 w0 = (Ok m1, w1) ->
  process_batch batch m1 w1 = (Throw e, w2) ->
  query_batches (pre ++ batch :: rest) m0 w0 = (Throw e, w2).
Proof.
  revert m0 w0. induction pre as [|b pre IH]; intros m0 w0 Hpre Hbatch.
  - cbn in Hpre. injection Hpre as <- <-.
    cbn [app query_batches]. unfold bind. now rewrite Hbatch.
  - cbn [app query_batches] in *. unfold bind in *.
    destruct (process_batch b m0 w0) as [[m|e'] w']; [|discriminate].
    now apply IH.
Qed.

Lemma batches_of_nil : batches_of [] = [].
Proof. reflexivity. Qed.

End BatchFacts.

Section ScanFacts.

Context {rt : JsRuntime} {parsers : ManifestParsers} {svc : OsvService}.

(** C3. A batch whose first response is a failure other than 429 throws at
    once, after that single request.  After a 429 the client waits 2000 ms
    and posts the same request once more: a failed second response throws,
    a successful one is processed with detail requests only.  Whenever a
    batch throws, the scan stops there and the action replies
    [success = false] with the error. *)
Theorem queryOsvBatch_retry_policy :
  (forall (batch : list PackageInfo) (m : VulnMap) (w : World)
          (status : Z) (body : Body OsvBatchResponse) (env1 : Env),
      let request := batch_request batch in
      post_querybatch request (fst w) = (Response status body, env1) ->
      response_ok status = false ->
      (status <> 429%Z ->
       process_batch batch m w
       = (Throw (u "OSV API request failed: " ++ z_to_jsstring status),
          (env1, snd w ++ [EvPost request]))) /\
      (status = 429%Z ->
       forall (status2 : Z) (body2 : Body OsvBatchResponse) (env2 : Env),
         post_querybatch request (wait 2000 env1)
         = (Response status2 body2, env2) ->
         (response_ok status2 = false ->
          process_batch batch m w
          = (Throw (u "OSV API failed after retry: "
                      ++ z_to_jsstring status2),
             (env2, snd w ++ [EvPost request; EvSleep 2000; EvPost request])))
         /\
         (response_ok status2 = true ->
          forall data, body2 = JsonOk data ->
          exists m' env3 gets,
            only_gets gets /\
            process_batch batch m w
            = (Ok m',
               (env3,
                snd w ++ [EvPost request; EvSleep 2000; EvPost request]
                  ++ gets))))) /\
  (forall (files : list FileRec) (w : World)
          (pre : list (list PackageInfo)) (batch : list PackageInfo)
          (rest : list (list PackageInfo)) (m : VulnMap) (w1 w2 : World)
          (e : exn),
      batches_of (extractAllPackages (filter is_manifest files))
      = pre ++ batch :: rest ->
      query_batches pre [] (snd (date_now w)) = (Ok m, w1) ->
      process_batch batch m w1 = (Throw e, w2) ->
      let reply := action (BodyFiles (Some files)) w in
      success (fst (fst reply)) = false /\
      error (fst (fst reply))
      = Some (if truthy e then e else unknown_error) /\
      vulnerabilities (fst (fst reply)) = [] /\
      snd (snd reply) = snd w2).
Proof.
  split.
  - intros batch m w status body env1 request Hpost Hok. split.
    + intros Hne.
      unfold process_batch, try_catch, bind, fetch_post, log.
      fold request. rewrite Hpost. cbn [fst snd]. rewrite Hok. cbn [negb].
      apply Z.eqb_neq in Hne. rewrite Hne. reflexivity.
    + intros -> status2 body2 env2 Hretry. split.
      * intros Hok2.
        unfold process_batch, try_catch, bind, fetch_post, sleep, log.
        fold request. rewrite Hpost. cbn [fst snd]. rewrite Hok.
        cbn [fst snd negb Z.eqb Pos.eqb].
        rewrite Hretry. cbn [fst snd]. rewrite Hok2. cbn [negb].
        unfold throw. rewrite <- !app_assoc. reflexivity.
      * intros Hok2 data ->.
        unfold process_batch, try_catch, bind, fetch_post, sleep, log.
        fold request. rewrite Hpost. cbn [fst snd]. rewrite Hok.
        cbn [fst snd negb Z.eqb Pos.eqb].
        rewrite Hretry. cbn [fst snd]. rewrite Hok2.
        cbn [negb read_json]. unfold ret at 1.
        match goal with
        | |- context [process_results batch 0 data m ?w'] =>
            destruct (process_results_ok batch 0 data m w')
              as (m' & env3 & gets & Hgets & ->)
        end.
        cbn [snd]. exists m', env3, gets. split; [exact Hgets|].
        rewrite <- !app_assoc. reflexivity.
  - intros files w pre batch rest m w1 w2 e Hbatches Hpre Hthrow reply.
    destruct (date_now w) as [startTime w0] eqn:Enow. cbn [snd] in Hpre.
    assert (Htry : action_try startTime (BodyFiles (Some files)) w0
                   = (Throw e, w2)).
    { unfold action_try.
      destruct files as [|file files];
        [cbn in Hbatches; now destruct pre|].
      destruct (filter is_manifest (file :: files)) as [|mf mfs];
        [cbn in Hbatches; now destruct pre|].
      destruct (extractAllPackages (mf :: mfs)) as [|pkg pkgs] eqn:Epk;
        [cbn in Hbatches; now destruct pre|].
      unfold bind at 1, scanPackages, bind at 1, queryOsvBatch.
      rewrite Hbatches.
      now rewrite (@query_batches_abort _ pre batch rest [] m w0 w1 w2 e
                     Hpre Hthrow). }
    subst reply. unfold action. rewrite Enow, Htry.
    pose proof (date_now_trace w2) as Htr.
    destruct (date_now w2) as [now w3]. cbn [fst snd] in *.
    repeat split; auto.
Qed.

End ScanFacts.

Lemma queryOsvBatch_retry_witness :
  let rate_limited : FetchOutcome OsvBatchResponse :=
    Response 429 (JsonFails []) in
  let w : World (svc := Demo.scripted) := ([rate_limited; rate_limited], []) in
  let manifest := {| path := u "package.json";
                     content := Demo.manifest_text |} in
  success (fst (fst (action (rt := Demo.runtime)
                       (parsers := Demo.no_other_parsers)
                       (BodyFiles (Some [manifest])) w))) = false.
Proof.
  intros rate_limited w manifest.
  pose (batch := extractAllPackages (rt := Demo.runtime)
                   (parsers := Demo.no_other_parsers)
                   (filter (is_manifest (rt := Demo.runtime)) [manifest])).
  pose proof (queryOsvBatch_retry_policy (rt := Demo.runtime)
                (parsers := Demo.no_other_parsers) (svc := Demo.scripted))
    as [Hbatch Hscan].
  destruct (Hbatch batch [] w 429%Z (JsonFails []) [rate_limited]
              eq_refl eq_refl) as [_ H429].
  destruct (H429 eq_refl 429%Z (JsonFails []) [] eq_refl) as [Hfail _].
  specialize (Hfail eq_refl).
  exact (proj1 (Hscan [manifest] w [] batch [] [] w _ _
                  eq_refl eq_refl Hfail)).
Defined.

(** ** The matcher on the expressions of [cleanVersion] *)

Lemma match_plus (p : char -> bool) (s : jsstring) :
  match_here (plus p) s
  = match s with
    | c :: s' => if p c then Some (dropWhile p s') else None
    | [] => None
    end.
Proof.
  destruct s as [|c s]; [reflexivity|].
  cbn [plus match_here]. destruct (p c); [|reflexivity].
  induction s as [|d s IH]; [reflexivity|].
  cbn [dropWhile]. destruct (p d); [|reflexivity].
  now rewrite IH.
Qed.

Lemma replace_constraint_prefix (s : jsstring) :
  replace_anchored re_constraint_prefix [] s = strip_constraints s.
Proof.
  unfold replace_anchored, re_constraint_prefix, strip_constraints.
  rewrite match_plus. destruct s as [|c s]; [reflexivity|].
  cbn [dropWhile]. destruct (is_constraint c); reflexivity.
Qed.

Lemma split_first_spaces (s : jsstring) :
  split_first re_spaces s = first_token s.
Proof.
  unfold split_first, re_spaces, first_token.
  induction s as [|c s IH]; [reflexivity|].
  cbn [search takeWhile]. rewrite match_plus.
  destruct (is_ws c); [reflexivity|]. cbn [negb].
  destruct (search (plus is_ws) s) as [[b r]|]; now rewrite <- IH.
Qed.

Lemma match_tail (s : jsstring) :
  match_here [Star dot; Eos] s = if forallb dot s then Some [] else None.
Proof.
  induction s as [|c s IH]; [reflexivity|].
  cbn [match_here forallb] in *. destruct (dot c); [|reflexivity].
  cbn [andb]. rewrite IH. destruct (forallb dot s); reflexivity.
Qed.

Lemma match_literal (marker : jsstring) (re : regex) (s : jsstring) :
  match_here (map (fun m => Chr (fun c => N.eqb c m)) marker ++ re) s
  = if starts_with marker s
    then match_here re (skipn (List.length marker) s)
    else None.
Proof.
  revert s. induction marker as [|m marker IH]; intros s; [reflexivity|].
  cbn [map app match_here]. destruct s as [|c s]; [reflexivity|].
  cbn [starts_with List.length skipn]. rewrite (N.eqb_sym m c).
  destruct (N.eqb c m); [apply IH|reflexivity].
Qed.

Lemma match_marker (marker s : jsstring) :
  match_here (map (fun m => Chr (fun c => N.eqb c m)) marker
                ++ [Star dot; Eos]) s
  = if marks marker s then Some [] else None.
Proof.
  rewrite match_literal. unfold marks.
  destruct (starts_with marker s); [|reflexivity].
  apply match_tail.
Qed.

Lemma marks_head (marker : jsstring) (c : char) (s : jsstring) :
  solid marker -> marks marker (c :: s) = true -> is_ws c = false.
Proof.
  destruct marker as [|m marker]; [intros []|]. cbn [solid].
  unfold marks. cbn [starts_with]. intros Hm H.
  apply andb_true_iff in H as [H _]. apply andb_true_iff in H as [H _].
  apply N.eqb_eq in H. now subst.
Qed.

Lemma match_cut (marker s : jsstring) :
  solid marker ->
  match_here (re_cut marker) s
  = if marks marker (dropWhile is_ws s) then Some [] else None.
Proof.
  intros Hm. unfold re_cut.
  induction s as [|c s IH].
  - cbn [match_here dropWhile]. apply match_marker.
  - cbn [match_here dropWhile] in *. destruct (is_ws c) eqn:Ec.
    + rewrite IH. destruct (marks marker (dropWhile is_ws s)); [reflexivity|].
      rewrite match_marker.
      destruct (marks marker (c :: s)) eqn:Em; [|reflexivity].
      apply marks_head in Em; congruence.
    + apply match_marker.
Qed.

(** ** Trailing whitespace *)

Lemma dropWhile_all (p : char -> bool) (l : jsstring) :
  forallb p l = true -> dropWhile p l = [].
Proof.
  induction l as [|c l IH]; [reflexivity|]. cbn [forallb dropWhile].
  intros H. apply andb_true_iff in H as [-> H]. auto.
Qed.

Lemma dropWhile_snoc (p : char -> bool) (l : jsstring) (c : char) :
  dropWhile p (l ++ [c])
  = if forallb p l then (if p c then [] else [c])
    else dropWhile p l ++ [c].
Proof.
  induction l as [|d l IH]; [reflexivity|].
  cbn [app dropWhile forallb]. destruct (p d); [exact IH|reflexivity].
Qed.

Lemma forallb_rev (p : char -> bool) (l : jsstring) :
  forallb p (rev l) = forallb p l.
Proof.
  induction l as [|c l IH]; [reflexivity|].
  cbn [rev forallb]. rewrite forallb_app, IH. cbn [forallb].
  rewrite andb_true_r. apply andb_comm.
Qed.

Lemma rstrip_cons (c : char) (p : jsstring) :
  rstrip (c :: p)
  = if is_ws c && forallb is_ws p then [] else c :: rstrip p.
Proof.
  unfold rstrip. cbn [rev]. rewrite dropWhile_snoc, forallb_rev.
  destruct (forallb is_ws p) eqn:Ep.
  - rewrite andb_true_r.
    rewrite (dropWhile_all is_ws (rev p)) by now rewrite forallb_rev.
    destruct (is_ws c); reflexivity.
  - rewrite andb_false_r. now rewrite rev_app_distr.
Qed.

Lemma rstrip_all_ws (p : jsstring) : forallb is_ws p = true -> rstrip p = [].
Proof.
  intros H. unfold rstrip.
  rewrite dropWhile_all; [reflexivity|now rewrite forallb_rev].
Qed.

(** ** Cutting at a marker *)

Lemma cut_at_split (marker s p : jsstring) :
  cut_at marker s = Some p ->
  exists m, s = p ++ m /\ marks marker m = true.
Proof.
  revert p. induction s as [|c s IH]; intros p; cbn [cut_at].
  - destruct (marks marker []) eqn:E; [|discriminate].
    intros [= <-]. now exists [].
  - destruct (marks marker (c :: s)) eqn:E.
    + intros [= <-]. now exists (c :: s).
    + destruct (cut_at marker s) as [q|]; [|discriminate].
      intros [= <-]. destruct (IH q eq_refl) as (m & -> & Hm).
      now exists m.
Qed.

Lemma cut_at_after_ws (marker s : jsstring) :
  solid marker ->
  marks marker (dropWhile is_ws s) = true ->
  exists p, cut_at marker s = Some p /\ forallb is_ws p = true.
Proof.
  intros Hm. induction s as [|c s IH]; cbn [dropWhile cut_at]; intros H.
  - rewrite H. now exists [].
  - destruct (marks marker (c :: s)) eqn:E; [now exists []|].
    destruct (is_ws c) eqn:Ec; [|congruence].
    destruct (IH H) as (p & -> & Hp). exists (c :: p).
    cbn [forallb]. now rewrite Ec, Hp.
Qed.

Lemma search_cut (marker s : jsstring) :
  solid marker ->
  search (re_cut marker) s
  = match cut_at marker s with
    | Some p => Some (rstrip p, [])
    | None => None
    end.
Proof.
  intros Hm. induction s as [|c s IH].
  - cbn [search cut_at]. rewrite match_cut by assumption.
    cbn [dropWhile]. destruct (marks marker []); reflexivity.
  - cbn [search]. rewrite match_cut by assumption.
    destruct (marks marker (dropWhile is_ws (c :: s))) eqn:E.
    + destruct (@cut_at_after_ws marker (c :: s) Hm E) as (p & -> & Hp).
      now rewrite rstrip_all_ws.
    + rewrite IH. cbn [cut_at].
      destruct (marks marker (c :: s)) eqn:E1.
      { pose proof (@marks_head marker c s Hm E1) as Hc.
        cbn [dropWhile] in E. rewrite Hc in E. congruence. }
      destruct (cut_at marker s) as [p|] eqn:Ecut; [|reflexivity].
      rewrite rstrip_cons.
      destruct (is_ws c && forallb is_ws p) eqn:Eall; [|reflexivity].
      exfalso. apply andb_true_iff in Eall as [Ec Hp].
      destruct (@cut_at_split marker s p Ecut) as (m & -> & Hmarks).
      assert (dropWhile is_ws (c :: p ++ m) = m) as Hd.
      { cbn [dropWhile]. rewrite Ec. clear - Hp Hmarks Hm.
        induction p as [|d p IH]; cbn [app dropWhile].
        - destruct m as [|k m]; [reflexivity|].
          cbn [dropWhile]. now rewrite (@marks_head marker k m Hm Hmarks).
        - cbn [forallb] in Hp. apply andb_true_iff in Hp as [-> Hp]. auto. }
      rewrite Hd in E. congruence.
Qed.

Lemma replace_cut (marker s : jsstring) :
  solid marker -> replace (re_cut marker) [] s = cut_before marker s.
Proof.
  intros Hm. unfold replace, cut_before. rewrite search_cut by assumption.
  destruct (cut_at marker s); [apply app_nil_r|reflexivity].
Qed.

Lemma cleanVersion_base_steps (v : jsstring) :
  cleanVersion_base v = steps_exact v.
Proof.
  unfold cleanVersion_base, steps_exact.
  rewrite split_first_spaces, replace_constraint_prefix.
  change re_or with (re_cut (u "||")). change re_dash with (re_cut (u "-")).
  rewrite !replace_cut by reflexivity. reflexivity.
Qed.

Lemma cleanVersion_unfold (v : jsstring) :
  cleanVersion (Some v) = handle_wildcards (steps_exact v).
Proof.
  destruct v as [|c v]; [reflexivity|].
  cbn [cleanVersion]. now rewrite cleanVersion_base_steps.
Qed.

(** ** Initial parts, occurrences and whitespace *)

Lemma prefix_refl (s : jsstring) : prefix s s.
Proof. exists []. now rewrite app_nil_r. Qed.

Lemma prefix_trans (a b c : jsstring) : prefix a b -> prefix b c -> prefix a c.
Proof.
  intros [r ->] [t ->]. exists (r ++ t). now rewrite app_assoc.
Qed.

Lemma prefix_nil (s : jsstring) : prefix [] s.
Proof. now exists s. Qed.

Lemma prefix_cons (c : char) (p s : jsstring) :
  prefix p s -> prefix (c :: p) (c :: s).
Proof. intros [r ->]. now exists r. Qed.

Lemma takeWhile_prefix (f : char -> bool) (s : jsstring) :
  prefix (takeWhile f s) s.
Proof.
  induction s as [|c s IH]; cbn [takeWhile]; [apply prefix_nil|].
  destruct (f c); [now apply prefix_cons|apply prefix_nil].
Qed.

Lemma rstrip_prefix (p : jsstring) : prefix (rstrip p) p.
Proof.
  induction p as [|c p IH]; [apply prefix_nil|].
  rewrite rstrip_cons.
  destruct (is_ws c && forallb is_ws p);
    [apply prefix_nil|now apply prefix_cons].
Qed.

Lemma cut_before_prefix (marker s : jsstring) : prefix (cut_before marker s) s.
Proof.
  unfold cut_before. destruct (cut_at marker s) as [p|] eqn:E;
    [|apply prefix_refl].
  destruct (@cut_at_split marker s p E) as (m & -> & _).
  eapply prefix_trans; [apply rstrip_prefix|]. now exists m.
Qed.

Lemma prefix_forallb (f : char -> bool) (p s : jsstring) :
  prefix p s -> forallb f s = true -> forallb f p = true.
Proof.
  intros [r ->]. rewrite forallb_app. intros H.
  now apply andb_true_iff in H.
Qed.

Lemma prefix_unconstrained (p s : jsstring) :
  prefix p s -> unconstrained s -> unconstrained p.
Proof. intros [r ->]. destruct p; [constructor|auto]. Qed.

Lemma strip_unconstrained (s : jsstring) : unconstrained (strip_constraints s).
Proof.
  unfold strip_constraints.
  induction s as [|c s IH]; cbn [dropWhile]; [constructor|].
  destruct (is_constraint c) eqn:E; [exact IH|exact E].
Qed.

Lemma unconstrained_strip (s : jsstring) :
  unconstrained s -> strip_constraints s = s.
Proof.
  destruct s as [|c s]; [reflexivity|].
  cbn [unconstrained strip_constraints dropWhile]. now intros ->.
Qed.

Lemma dropWhile_forallb (f g : char -> bool) (s : jsstring) :
  forallb f s = true -> forallb f (dropWhile g s) = true.
Proof.
  induction s as [|c s IH]; [reflexivity|]. cbn [dropWhile].
  destruct (g c); [|auto]. cbn [forallb]. intros H.
  apply andb_true_iff in H as [_ H]. auto.
Qed.

Lemma skipn_forallb (f : char -> bool) (n : nat) (s : jsstring) :
  forallb f s = true -> forallb f (skipn n s) = true.
Proof.
  revert s. induction n as [|n IH]; intros [|c s]; cbn [skipn]; auto.
  cbn [forallb]. intros H. apply andb_true_iff in H as [_ H]. auto.
Qed.

Lemma starts_with_app (m p q : jsstring) :
  starts_with m p = true -> starts_with m (p ++ q) = true.
Proof.
  revert p. induction m as [|a m IH]; intros [|c p]; cbn; auto;
    try discriminate.
  intros H. apply andb_true_iff in H as [-> H]. cbn. auto.
Qed.

Lemma includes_app (m p q : jsstring) :
  includes m p = true -> includes m (p ++ q) = true.
Proof.
  induction p as [|c p IH]; cbn [includes app].
  - rewrite orb_false_r. intros H.
    destruct m; [|discriminate]. now destruct q.
  - intros H. apply orb_true_iff in H as [H | H].
    + pose proof (starts_with_app _ _ q H) as H'. cbn [app] in H'.
      now rewrite H'.
    + rewrite (IH H). apply orb_true_r.
Qed.

Lemma prefix_includes (m p s : jsstring) :
  prefix p s -> includes m s = false -> includes m p = false.
Proof.
  intros [r ->] H. destruct (includes m p) eqn:E; [|reflexivity].
  now rewrite (includes_app _ _ r E) in H.
Qed.

Lemma starts_with_snoc (m q : jsstring) (z : char) :
  existsb (N.eqb z) m = false ->
  starts_with m (q ++ [z]) = true -> starts_with m q = true.
Proof.
  revert q. induction m as [|a m IH]; intros q Hz; [now destruct q|].
  cbn [existsb] in Hz. apply orb_false_iff in Hz as [Ha Hz].
  destruct q as [|b q]; cbn [app starts_with]; intros H;
    apply andb_true_iff in H as [Hab H].
  - apply N.eqb_eq in Hab. subst. now rewrite N.eqb_refl in Ha.
  - rewrite Hab. cbn. auto.
Qed.

Lemma includes_snoc (m p : jsstring) (z : char) :
  m <> [] -> existsb (N.eqb z) m = false ->
  includes m p = false -> includes m (p ++ [z]) = false.
Proof.
  intros Hm Hz. induction p as [|c p IH]; cbn [includes app]; intros H.
  - destruct m as [|a m]; [congruence|]. cbn [existsb] in Hz.
    apply orb_false_iff in Hz as [Ha _]. cbn. rewrite N.eqb_sym, Ha.
    reflexivity.
  - apply orb_false_iff in H as [H1 H2]. rewrite (IH H2), orb_false_r.
    destruct (starts_with m (c :: p ++ [z])) eqn:E; [|reflexivity].
    change (c :: p ++ [z]) with ((c :: p) ++ [z]) in E.
    now rewrite (starts_with_snoc _ _ _ Hz E) in H1.
Qed.

Lemma includes_single (z : char) (s : jsstring) :
  includes [z] s = existsb (N.eqb z) s.
Proof.
  induction s as [|c s IH]; [reflexivity|].
  cbn [includes existsb starts_with]. rewrite IH.
  destruct s; now rewrite andb_true_r.
Qed.

Lemma char_in_subset (small big : list char) (c : char) :
  incl small big -> char_in big c = false -> char_in small c = false.
Proof.
  unfold char_in. intros Hincl Hbig.
  destruct (existsb (N.eqb c) small) eqn:E; [|reflexivity].
  apply existsb_exists in E as (x & Hx & Hc).
  assert (existsb (N.eqb c) big = true) as H.
  { apply existsb_exists. exists x. split; [now apply Hincl|exact Hc]. }
  congruence.
Qed.

Lemma no_ws_is_dot (c : char) : is_ws c = false -> dot c = true.
Proof.
  intros H. unfold dot, is_line_terminator.
  rewrite (char_in_subset _ _ c) with (2 := H); [reflexivity|].
  intros x Hx. cbn in Hx. cbn. intuition.
Qed.

Lemma no_ws_single_line (s : jsstring) :
  forallb (fun x => negb (is_ws x)) s = true -> single_line s = true.
Proof.
  unfold single_line. induction s as [|c s IH]; [reflexivity|].
  cbn [forallb]. intros H. apply andb_true_iff in H as [Hc H].
  apply negb_true_iff in Hc. now rewrite (no_ws_is_dot _ Hc), IH.
Qed.

Lemma takeWhile_all (f : char -> bool) (s : jsstring) :
  forallb f s = true -> takeWhile f s = s.
Proof.
  induction s as [|c s IH]; [reflexivity|]. cbn [forallb takeWhile].
  intros H. apply andb_true_iff in H as [-> H]. now rewrite IH.
Qed.

Lemma takeWhile_forallb (f : char -> bool) (s : jsstring) :
  forallb f (takeWhile f s) = true.
Proof.
  induction s as [|c s IH]; [reflexivity|]. cbn [takeWhile].
  destruct (f c) eqn:E; [|reflexivity]. cbn [forallb]. now rewrite E.
Qed.

Lemma trim_no_ws (s : jsstring) :
  forallb (fun x => negb (is_ws x)) s = true -> trim s = s.
Proof.
  intros H. unfold trim.
  assert (forall l, forallb (fun x => negb (is_ws x)) l = true ->
                    dropWhile is_ws l = l) as Hd.
  { intros [|c l]; [reflexivity|]. cbn [forallb dropWhile]. intros Hl.
    apply andb_true_iff in Hl as [Hc _]. apply negb_true_iff in Hc.
    now rewrite Hc. }
  rewrite (Hd s H), Hd, rev_involutive; [reflexivity|].
  now rewrite forallb_rev.
Qed.

(** ** Cutting a single-line text *)

Lemma marks_single_line (marker s : jsstring) :
  single_line s = true -> marks marker s = starts_with marker s.
Proof.
  intros H. unfold marks. unfold single_line in H.
  now rewrite (skipn_forallb _ _ _ H), andb_true_r.
Qed.

Lemma cut_at_none (marker s : jsstring) :
  includes marker s = false -> cut_at marker s = None.
Proof.
  induction s as [|c s IH]; cbn [includes cut_at]; intros H;
    apply orb_false_iff in H as [H1 H2]; unfold marks; rewrite H1;
    cbn [andb]; [reflexivity|].
  now rewrite IH.
Qed.

Lemma cut_at_some_clear (marker s p : jsstring) :
  marker <> [] -> single_line s = true ->
  cut_at marker s = Some p -> includes marker p = false.
Proof.
  intros Hm. revert p. induction s as [|c s IH]; intros p Hs; cbn [cut_at].
  - destruct (marks marker []); [|discriminate]. intros [= <-].
    now destruct marker.
  - destruct (marks marker (c :: s)) eqn:E.
    + intros [= <-]. now destruct marker.
    + destruct (cut_at marker s) as [q|] eqn:Eq; [|discriminate].
      intros [= <-]. cbn [includes].
      assert (single_line s = true) as Hs'.
      { unfold single_line in *. cbn [forallb] in Hs.
        now apply andb_true_iff in Hs. }
      rewrite (IH q Hs' eq_refl), orb_false_r.
      destruct (starts_with marker (c :: q)) eqn:Esw; [|reflexivity].
      destruct (@cut_at_split marker s q Eq) as (m & -> & _).
      rewrite marks_single_line in E by assumption.
      change (c :: q ++ m) with ((c :: q) ++ m) in E.
      now rewrite (starts_with_app _ _ m Esw) in E.
Qed.

Lemma cut_at_none_clear (marker s : jsstring) :
  single_line s = true ->
  cut_at marker s = None -> includes marker s = false.
Proof.
  induction s as [|c s IH]; intros Hs; cbn [cut_at includes].
  - rewrite marks_single_line by assumption.
    destruct (starts_with marker []); [discriminate|reflexivity].
  - rewrite marks_single_line by assumption.
    destruct (starts_with marker (c :: s)); [discriminate|].
    destruct (cut_at marker s) eqn:E; [discriminate|]. intros _.
    apply IH; [|reflexivity].
    unfold single_line in *. cbn [forallb] in Hs.
    now apply andb_true_iff in Hs.
Qed.

Lemma cut_before_clear (marker s : jsstring) :
  marker <> [] -> single_line s = true ->
  includes marker (cut_before marker s) = false.
Proof.
  intros Hm Hs. unfold cut_before.
  destruct (cut_at marker s) as [p|] eqn:E.
  - eapply prefix_includes; [apply rstrip_prefix|].
    eapply cut_at_some_clear; eauto.
  - now apply cut_at_none_clear.
Qed.

Lemma cut_before_fixed (marker s : jsstring) :
  includes marker s = false -> cut_before marker s = s.
Proof. intros H. unfold cut_before. now rewrite cut_at_none. Qed.

(** ** A settled version is a fixed point *)

Lemma settled_fixed (c : jsstring) : settled c -> cleanVersion (Some c) = c.
Proof.
  intros (Hws & Hun & Hor & Hdash & Hstar & Hx).
  rewrite cleanVersion_unfold. unfold steps_exact.
  rewrite (trim_no_ws _ Hws), (unconstrained_strip _ Hun),
    (cut_before_fixed _ _ Hor), (cut_before_fixed _ _ Hdash).
  unfold first_token. rewrite (takeWhile_all _ _ Hws).
  unfold handle_wildcards. now rewrite Hstar, Hx.
Qed.

(** ** The wildcard handling *)

Lemma search_wild (s : jsstring) :
  single_line s = true ->
  search re_wild s
  = if existsb is_wild s
    then Some (takeWhile (fun c => negb (is_wild c)) s, [])
    else None.
Proof.
  unfold single_line, re_wild.
  induction s as [|c s IH]; intros Hs; [reflexivity|].
  cbn [forallb] in Hs. apply andb_true_iff in Hs as [_ Hs].
  cbn [search existsb takeWhile].
  change (match_here [Chr is_wild; Star dot; Eos] (c :: s))
    with (if is_wild c then match_here [Star dot; Eos] s else None).
  destruct (is_wild c); cbn [negb orb].
  - now rewrite match_tail, Hs.
  - rewrite (IH Hs). destruct (existsb is_wild s); reflexivity.
Qed.

Lemma search_final_dot_snoc (p : jsstring) (z : char) :
  lit "." z = false -> search re_final_dot (p ++ [z]) = None.
Proof.
  intros Hz. unfold re_final_dot.
  induction p as [|c p IH]; cbn [app search match_here].
  - now rewrite Hz.
  - rewrite IH. destruct (lit "." c); [|reflexivity].
    destruct (p ++ [z]) eqn:E; [|reflexivity].
    now destruct p.
Qed.

Lemma includes_wild (z : char) (s : jsstring) :
  is_wild z = true -> includes [z] s = true -> existsb is_wild s = true.
Proof.
  intros Hz. rewrite includes_single. intros H.
  apply existsb_exists in H as (x & Hx & Hzx).
  apply N.eqb_eq in Hzx. subst x.
  apply existsb_exists. now exists z.
Qed.

Lemma handle_wildcards_value (c0 : jsstring) :
  single_line c0 = true ->
  handle_wildcards c0
  = if includes (u "*") c0 || includes (u "x") c0
    then takeWhile (fun c => negb (is_wild c)) c0 ++ u "0"
    else c0.
Proof.
  intros Hs. unfold handle_wildcards.
  destruct (includes (u "*") c0 || includes (u "x") c0) eqn:E;
    [|reflexivity].
  assert (existsb is_wild c0 = true) as Hw.
  { apply orb_true_iff in E as [E | E];
      eapply includes_wild; try exact E; reflexivity. }
  unfold replace at 2. rewrite (search_wild _ Hs), Hw.
  rewrite app_nil_r. unfold replace.
  change (u "0") with [ch "0"].
  now rewrite search_final_dot_snoc.
Qed.

Lemma not_wild_clear (z : char) (p : jsstring) :
  is_wild z = true ->
  forallb (fun c => negb (is_wild c)) p = true -> includes [z] p = false.
Proof.
  intros Hz Hp. rewrite includes_single.
  destruct (existsb (N.eqb z) p) eqn:E; [|reflexivity].
  apply existsb_exists in E as (x & Hx & Hzx).
  apply N.eqb_eq in Hzx. subst x.
  rewrite forallb_forall in Hp. specialize (Hp z Hx).
  now rewrite Hz in Hp.
Qed.

Lemma handle_wildcards_settled (c0 : jsstring) :
  forallb (fun x => negb (is_ws x)) c0 = true ->
  unconstrained c0 ->
  includes (u "||") c0 = false ->
  includes (u "-") c0 = false ->
  settled (handle_wildcards c0).
Proof.
  intros Hws Hun Hor Hdash.
  rewrite handle_wildcards_value by now apply no_ws_single_line.
  destruct (includes (u "*") c0 || includes (u "x") c0) eqn:E.
  - set (p := takeWhile (fun c => negb (is_wild c)) c0).
    assert (prefix p c0) as Hp by apply takeWhile_prefix.
    assert (forallb (fun c => negb (is_wild c)) p = true) as Hnw
        by apply takeWhile_forallb.
    change (u "0") with [ch "0"].
    repeat split.
    + rewrite forallb_app, (prefix_forallb _ _ _ Hp Hws). reflexivity.
    + pose proof (prefix_unconstrained _ _ Hp Hun) as Hup.
      destruct p; [reflexivity|exact Hup].
    + apply includes_snoc; [discriminate|reflexivity|].
      eapply prefix_includes; eauto.
    + apply includes_snoc; [discriminate|reflexivity|].
      eapply prefix_includes; eauto.
    + apply includes_snoc; [discriminate|reflexivity|].
      now apply not_wild_clear.
    + apply includes_snoc; [discriminate|reflexivity|].
      now apply not_wild_clear.
  - apply orb_false_iff in E as [Hstar Hx]. repeat split; assumption.
Qed.

Lemma steps_settled (v : jsstring) :
  single_line (trim v) = true ->
  settled (handle_wildcards (steps_exact v)).
Proof.
  intros Hs. unfold steps_exact.
  set (t := strip_constraints (trim v)).
  set (s2 := cut_before (u "||") t).
  set (s3 := cut_before (u "-") s2).
  assert (single_line t = true) as Ht
      by (apply dropWhile_forallb; exact Hs).
  assert (prefix s2 t) as P2 by apply cut_before_prefix.
  assert (prefix s3 s2) as P3 by apply cut_before_prefix.
  assert (prefix (first_token s3) s3) as P4 by apply takeWhile_prefix.
  assert (single_line s2 = true) as Hs2
      by (eapply prefix_forallb; eauto).
  apply handle_wildcards_settled.
  - apply (takeWhile_forallb (fun c => negb (is_ws c))).
  - eapply prefix_unconstrained; [|apply (strip_unconstrained (trim v))].
    eapply prefix_trans; [exact P4|].
    eapply prefix_trans; [exact P3|exact P2].
  - eapply prefix_includes;
      [eapply prefix_trans; [exact P4|exact P3]|].
    apply cut_before_clear; [discriminate|exact Ht].
  - eapply prefix_includes; [exact P4|].
    apply cut_before_clear; [discriminate|exact Hs2].
Qed.

(** C9. On every version whose trimmed text has no line terminator,
    cleaning a cleaned version changes nothing; so does it on an undefined
    version. *)
Theorem cleanVersion_idempotent_single_line :
  forall v : option jsstring,
    (forall s, v = Some s -> single_line (trim s) = true) ->
    cleanVersion (Some (cleanVersion v)) = cleanVersion v.
Proof.
  intros [s|] H; [|reflexivity].
  rewrite (cleanVersion_unfold s).
  apply settled_fixed, steps_settled, H. reflexivity.
Qed.

Lemma cleanVersion_idempotent_witness :
  cleanVersion (Some (cleanVersion (Some (u " >=1.2.x || 2.0.0 "))))
  = cleanVersion (Some (u " >=1.2.x || 2.0.0 ")).
Proof.
  apply cleanVersion_idempotent_single_line.
  intros s [= <-]. reflexivity.
Defined.

(** C9, as stated: a line terminator after [||] keeps the cut from
    matching the first time, and the second cleaning then cuts. *)
Lemma cleanVersion_not_idempotent :
  ~ (forall v : jsstring,
        cleanVersion (Some (cleanVersion (Some v))) = cleanVersion (Some v)).
Proof.
  intros H. specialize (H (u "1||2" ++ [10%N] ++ u "3")).
  vm_compute in H. discriminate H.
Qed.

(** ** The steps on a single-line text *)


















(** C7. On ["1.2.x"] and on ["1.x"] the code returns ["10"]: the class
    [[.*x]] also matches the first dot, so everything from that dot on is
    replaced by ["0"]. *)
Theorem cleanVersion_wildcard_values :
  cleanVersion (Some (u "1.2.x")) = u "10" /\
  cleanVersion (Some (u "1.x")) = u "10".
Proof. split; reflexivity. Qed.

(* ================================================================= *)
(** * Further properties of the scan pipeline *)

(** ** The line parsers on concrete manifests *)

Example python_requirements :
  Parsers.extractPythonPackages
    (u "flask==2.0.1" ++ [10%N] ++ u "# comment" ++ [10%N]
       ++ u "django>=3.2" ++ [10%N])
    (u "requirements.txt")
  = [package "PyPI" (u "flask") (u "2.0.1") (u "requirements.txt");
     package "PyPI" (u "django") (u "3.2") (u "requirements.txt")].
Proof. reflexivity. Qed.

Example go_mod :
  Parsers.extractGoPackages
    (u "module example.com/app" ++ [10%N] ++ u "require (" ++ [10%N]
       ++ [9%N] ++ u "github.com/pkg/errors v0.9.1" ++ [10%N] ++ u ")"
       ++ [10%N] ++ u "require golang.org/x/text v0.3.7" ++ [10%N]
       ++ u "golang.org/x/net v0.1.0")
    (u "go.mod")
  = [package "Go" (u "github.com/pkg/errors") (u "0.9.1") (u "go.mod");
     package "Go" (u "golang.org/x/text") (u "0.3.7") (u "go.mod")].
Proof. reflexivity. Qed.

Example go_require_alone :
  Parsers.extractGoPackages (u "require v1.2.3") (u "go.mod")
  = [package "Go" (u "require") (u "1.2.3") (u "go.mod")].
Proof. reflexivity. Qed.

Example cargo_toml :
  Parsers.extractRustPackages
    (u "[package]" ++ [10%N] ++ u "name = " ++ quote ++ u "1.0" ++ quote
       ++ [10%N] ++ u "[dependencies]" ++ [10%N]
       ++ u "serde = { version = " ++ quote ++ u "1.0.100" ++ quote
       ++ u ", features = [" ++ quote ++ u "derive" ++ quote ++ u "] }"
       ++ [10%N] ++ u "rand = " ++ quote ++ u "0.8" ++ quote)
    (u "Cargo.toml")
  = [package "crates.io" (u "serde") (u "1.0.100") (u "Cargo.toml");
     package "crates.io" (u "rand") (u "0.8") (u "Cargo.toml")].
Proof. reflexivity. Qed.

Example pom_xml :
  Parsers.extractMavenPackages
    (u "<dependencies><dependency>" ++ [10%N]
       ++ u "<groupId> org.slf4j </groupId><artifactId>slf4j-api</artifactId>"
       ++ [10%N] ++ u "<version>1.7.36</version></dependency>"
       ++ u "<dependency><groupId>junit</groupId><artifactId>junit</artifactId><version>4.x</version></dependency></dependencies>")
    (u "pom.xml")
  = [package "Maven" (u "org.slf4j:slf4j-api") (u "1.7.36") (u "pom.xml");
     package "Maven" (u "junit:junit") (u "40") (u "pom.xml")].
Proof. vm_compute. reflexivity. Qed.

(** ** The shape of a cleaned version *)

Lemma steps_exact_shape (v : jsstring) :
  no_ws (steps_exact v) = true /\ unconstrained (steps_exact v).
Proof.
  unfold steps_exact. split.
  - apply (takeWhile_forallb (fun c => negb (is_ws c))).
  - eapply prefix_unconstrained; [|apply (strip_unconstrained (trim v))].
    eapply prefix_trans; [apply takeWhile_prefix|].
    eapply prefix_trans; apply cut_before_prefix.
Qed.

Lemma handle_wildcards_shape (c0 : jsstring) :
  no_ws c0 = true -> unconstrained c0 ->
  no_ws (handle_wildcards c0) = true /\
  unconstrained (handle_wildcards c0) /\
  includes (u "*") (handle_wildcards c0) = false /\
  includes (u "x") (handle_wildcards c0) = false.
Proof.
  intros Hws Hun. unfold no_ws in *.
  rewrite handle_wildcards_value by now apply no_ws_single_line.
  destruct (includes (u "*") c0 || includes (u "x") c0) eqn:E.
  - set (p := takeWhile (fun c => negb (is_wild c)) c0).
    assert (prefix p c0) as Hp by apply takeWhile_prefix.
    assert (forallb (fun c => negb (is_wild c)) p = true) as Hnw
        by apply takeWhile_forallb.
    change (u "0") with [ch "0"]. repeat split.
    + rewrite forallb_app, (prefix_forallb _ _ _ Hp Hws). reflexivity.
    + pose proof (prefix_unconstrained _ _ Hp Hun) as Hup.
      destruct p; [reflexivity|exact Hup].
    + apply includes_snoc; [discriminate|reflexivity|].
      now apply not_wild_clear.
    + apply includes_snoc; [discriminate|reflexivity|].
      now apply not_wild_clear.
  - apply orb_false_iff in E as [Hstar Hx]. repeat split; assumption.
Qed.

Lemma cleanVersion_shape (v : option jsstring) :
  no_ws (cleanVersion v) = true /\
  unconstrained (cleanVersion v) /\
  includes (u "*") (cleanVersion v) = false /\
  includes (u "x") (cleanVersion v) = false.
Proof.
  destruct v as [v|]; [|repeat split].
  rewrite cleanVersion_unfold.
  destruct (steps_exact_shape v) as [Hws Hun].
  now apply handle_wildcards_shape.
Qed.

(** X1. Whatever the input, the text [cleanVersion] returns contains no
    whitespace, no [*] and no [x], and does not start with one of the
    constraint characters. *)
Theorem cleanVersion_output_shape :
  forall v : option jsstring,
    no_ws (cleanVersion v) = true /\
    unconstrained (cleanVersion v) /\
    includes (u "*") (cleanVersion v) = false /\
    includes (u "x") (cleanVersion v) = false.
Proof. exact cleanVersion_shape. Qed.

(** X2. When the trimmed input has no line terminator, the cleaned
    version contains no hyphen and no [||] either. *)
Theorem cleanVersion_single_line_output :
  forall v : jsstring,
    single_line (trim v) = true ->
    includes (u "-") (cleanVersion (Some v)) = false /\
    includes (u "||") (cleanVersion (Some v)) = false.
Proof.
  intros v Hs. rewrite cleanVersion_unfold.
  destruct (steps_settled v Hs) as (_ & _ & Hor & Hdash & _).
  now split.
Qed.

Lemma cleanVersion_single_line_output_witness :
  includes (u "-") (cleanVersion (Some (u " ^2.1.0-rc.1 || 3 "))) = false.
Proof.
  apply (cleanVersion_single_line_output (u " ^2.1.0-rc.1 || 3 ")).
  reflexivity.
Defined.

Lemma includes_needs_head (a : char) (m s : jsstring) :
  includes (a :: m) s = true -> existsb (N.eqb a) s = true.
Proof.
  induction s as [|c s IH]; [discriminate|].
  cbn [includes starts_with existsb]. intros H.
  apply orb_true_iff in H as [H | H].
  - apply andb_true_iff in H as [-> _]. reflexivity.
  - rewrite (IH H). apply orb_true_r.
Qed.

Lemma class_excludes (p : char -> bool) (a : char) (m s : jsstring) :
  p a = false -> forallb p s = true -> includes (a :: m) s = false.
Proof.
  intros Ha Hs. destruct (includes (a :: m) s) eqn:E; [|reflexivity].
  apply includes_needs_head in E. apply existsb_exists in E as (x & Hx & Hax).
  apply N.eqb_eq in Hax. subst x.
  rewrite forallb_forall in Hs. rewrite (Hs a Hx) in Ha. discriminate.
Qed.

Lemma version_char_cases (c : char) :
  is_version_char c = true -> (48 <= c <= 57)%N \/ c = 46%N.
Proof.
  unfold is_version_char, in_range. intros H.
  apply orb_true_iff in H as [H | H].
  - apply andb_true_iff in H as [H1 H2].
    apply N.leb_le in H1, H2. left. now split.
  - apply N.eqb_eq in H. right. exact H.
Qed.

Lemma version_char_no_ws (c : char) :
  is_version_char c = true -> is_ws c = false.
Proof.
  intros H. destruct (version_char_cases c H) as [[H1 H2] | ->];
    [|reflexivity].
  unfold is_ws, char_in. cbn [existsb].
  repeat (apply orb_false_intro; [apply N.eqb_neq; lia|]). reflexivity.
Qed.

Lemma version_char_unconstrained (c : char) :
  is_version_char c = true -> is_constraint c = false.
Proof.
  intros H. destruct (version_char_cases c H) as [[H1 H2] | ->];
    [|reflexivity].
  unfold is_constraint, char_in. cbn.
  repeat (apply orb_false_intro; [apply N.eqb_neq; lia|]). reflexivity.
Qed.

Lemma version_text_settled (v : jsstring) :
  forallb is_version_char v = true -> settled v.
Proof.
  intros H. repeat split.
  - rewrite forallb_forall in *. intros c Hc.
    now rewrite (version_char_no_ws c (H c Hc)).
  - destruct v as [|c v]; [constructor|]. cbn [forallb] in H.
    apply andb_true_iff in H as [Hc _].
    now apply version_char_unconstrained.
  - now apply (class_excludes is_version_char).
  - now apply (class_excludes is_version_char).
  - now apply (class_excludes is_version_char).
  - now apply (class_excludes is_version_char).
Qed.

Lemma cleanVersion_version_text (v : jsstring) :
  forallb is_version_char v = true -> cleanVersion (Some v) = v.
Proof. intros H. apply settled_fixed, version_text_settled, H. Qed.

(** X3. A version made of digits and dots only is returned unchanged. *)
Theorem cleanVersion_plain_version :
  forall v : jsstring,
    forallb is_version_char v = true -> cleanVersion (Some v) = v.
Proof. exact cleanVersion_version_text. Qed.

Lemma cleanVersion_plain_version_witness :
  cleanVersion (Some (u "4.17.21")) = u "4.17.21".
Proof. apply cleanVersion_plain_version. reflexivity. Defined.

(** X4. When the token left by the cutting steps contains [*] or [x], the
    result is the part of that token before its first dot, [*] or [x],
    followed by [0]. *)
Theorem cleanVersion_wildcard_result :
  forall v : jsstring,
    includes (u "*") (steps_exact v) || includes (u "x") (steps_exact v)
    = true ->
    cleanVersion (Some v)
    = takeWhile (fun c => negb (is_wild c)) (steps_exact v) ++ u "0".
Proof.
  intros v H. rewrite cleanVersion_unfold.
  destruct (steps_exact_shape v) as [Hws _].
  rewrite handle_wildcards_value by now apply no_ws_single_line.
  now rewrite H.
Qed.

Lemma cleanVersion_wildcard_result_witness :
  cleanVersion (Some (u "~12.4.x")) = u "120".
Proof.
  apply (cleanVersion_wildcard_result (u "~12.4.x")). reflexivity.
Defined.

(** ** Scores and severities *)

Lemma num_ge_iff (q b : Q) : num_ge (Fin q) b = true <-> (b <= q)%Q.
Proof.
  cbn [num_ge]. destruct (q ?= b)%Q eqn:E; split; intros H;
    try reflexivity; try discriminate.
  - apply Qeq_alt in E. rewrite E. apply Qle_refl.
  - apply Qlt_alt in E. exfalso. now apply (Qle_not_lt _ _ H).
  - apply Qgt_alt in E. now apply Qlt_le_weak.
Qed.

Lemma num_ge_mono (s1 s2 : number) (b : Q) :
  num_leb s1 s2 = true -> num_ge s1 b = true -> num_ge s2 b = true.
Proof.
  destruct s1 as [| | |p], s2 as [| | |q]; cbn [num_leb];
    try discriminate; try reflexivity.
  intros Hle Hge. apply Qle_bool_iff in Hle.
  apply num_ge_iff. apply num_ge_iff in Hge.
  eapply Qle_trans; eauto.
Qed.

Section ScoreFacts.

Context {rt : JsRuntime}.


(** X6. The classification by score is monotone: of two records with a
    CVSS score, the one with the larger score never gets the lower
    severity. *)
Theorem mapOsvSeverity_monotone :
  forall (v1 v2 : OsvApiVulnerability) (s1 s2 : number),
    getCvssScore v1 = Some s1 ->
    getCvssScore v2 = Some s2 ->
    num_leb s1 s2 = true ->
    (severity_rank (mapOsvSeverity v1)
     <= severity_rank (mapOsvSeverity v2))%nat.
Proof.
  intros v1 v2 s1 s2 H1 H2 Hle. unfold mapOsvSeverity. rewrite H1, H2.
  pose proof (num_ge_mono s1 s2 9 Hle) as M9.
  pose proof (num_ge_mono s1 s2 7 Hle) as M7.
  pose proof (num_ge_mono s1 s2 4 Hle) as M4.
  destruct (num_ge s1 9); [rewrite (M9 eq_refl); cbn; lia|].
  destruct (num_ge s1 7);
    [rewrite (M7 eq_refl); destruct (num_ge s2 9); cbn; lia|].
  destruct (num_ge s1 4);
    [rewrite (M4 eq_refl); destruct (num_ge s2 9), (num_ge s2 7);
     cbn; lia|].
  destruct (num_ge s2 9), (num_ge s2 7), (num_ge s2 4); cbn; lia.
Qed.

End ScoreFacts.


Lemma mapOsvSeverity_monotone_witness :
  (severity_rank
     (mapOsvSeverity (rt := Demo.runtime) (Demo.scored_vuln (Fin (7 # 2))))
   <= severity_rank
        (mapOsvSeverity (rt := Demo.runtime) (Demo.scored_vuln (Fin 8))))%nat.
Proof.
  apply (mapOsvSeverity_monotone (rt := Demo.runtime) _ _
           (Fin (7 # 2)) (Fin 8)); reflexivity.
Defined.

(** ** Fixed versions and summaries *)

Lemma fold_left_app_flat_map {A B} (f : A -> list B) (xs : list A)
    (acc : list B) :
  fold_left (fun acc x => acc ++ f x) xs acc = acc ++ flat_map f xs.
Proof.
  revert acc. induction xs as [|x xs IH]; intros acc; cbn [fold_left flat_map].
  - now rewrite app_nil_r.
  - now rewrite IH, app_assoc.
Qed.

Lemma fold_set_add_In (xs acc : list jsstring) (x : jsstring) :
  In x (fold_left set_add xs acc) <-> In x acc \/ In x xs.
Proof.
  revert acc. induction xs as [|y xs IH]; intros acc; cbn [fold_left In].
  - tauto.
  - rewrite IH. unfold set_add.
    destruct (existsb (Js.eqb y) acc) eqn:E.
    + apply existsb_exists in E as (z & Hz & Hyz).
      apply eqb_eq in Hyz. subst z. intuition (subst; auto).
    + rewrite in_app_iff. cbn [In]. intuition.
Qed.

Lemma spread_set_In (xs : list jsstring) (x : jsstring) :
  In x (spread_set xs) <-> In x xs.
Proof. unfold spread_set. rewrite fold_set_add_In. cbn [In]. tauto. Qed.

Lemma extractFixedVersions_flat (rs : list OsvAffectedRange) :
  extractFixedVersions (Some rs)
  = flat_map (fun r => match range_events r with
                       | Some evs => flat_map fixed_of_event evs
                       | None => []
                       end) rs.
Proof.
  cbn [extractFixedVersions].
  assert (H : forall acc,
             fold_left
               (fun fixedVersions range =>
                  match range_events range with
                  | Some evs =>
                      fold_left (fun acc ev => acc ++ fixed_of_event ev) evs
                        fixedVersions
                  | None => fixedVersions
                  end) rs acc
             = acc ++ flat_map (fun r => match range_events r with
                                         | Some evs =>
                                             flat_map fixed_of_event evs
                                         | None => []
                                         end) rs).
  { induction rs as [|r rs IH]; intros acc; cbn [fold_left flat_map].
    - now rewrite app_nil_r.
    - rewrite IH. destruct (range_events r) as [evs|].
      + now rewrite fold_left_app_flat_map, app_assoc.
      + reflexivity. }
  apply H.
Qed.

Lemma fixed_of_event_In (ev : RangeEvent) (v : jsstring) :
  In v (fixed_of_event ev) <-> ev_fixed ev = Some v /\ v <> [].
Proof.
  unfold fixed_of_event. destruct (ev_fixed ev) as [f|].
  - destruct f as [|c f]; cbn.
    + split; [tauto|]. intros [[= <-] H]. congruence.
    + split.
      * intros [<- | []]. split; [reflexivity|discriminate].
      * intros [[= <-] _]. now left.
  - cbn. split; [tauto|]. intros [H _]. discriminate.
Qed.

Lemma extractFixedVersions_In (ranges : option (list OsvAffectedRange))
    (v : jsstring) :
  In v (extractFixedVersions ranges) <->
  exists rs r evs ev,
    ranges = Some rs /\ In r rs /\ range_events r = Some evs /\
    In ev evs /\ ev_fixed ev = Some v /\ v <> [].
Proof.
  destruct ranges as [rs|].
  - rewrite extractFixedVersions_flat, in_flat_map. split.
    + intros (r & Hr & Hv). destruct (range_events r) as [evs|] eqn:E;
        [|destruct Hv].
      apply in_flat_map in Hv as (ev & Hev & Hv).
      apply fixed_of_event_In in Hv as [Hf Hne].
      now exists rs, r, evs, ev.
    + intros (rs' & r & evs & ev & [= <-] & Hr & E & Hev & Hf & Hne).
      exists r. split; [exact Hr|]. rewrite E.
      apply in_flat_map. exists ev. split; [exact Hev|].
      now apply fixed_of_event_In.
  - cbn. split; [tauto|].
    intros (rs & r & evs & ev & H & _). discriminate.
Qed.

Section FixedFacts.

Context {rt : JsRuntime}.

(** X7. The fixed versions of a converted vulnerability are exactly the
    non-empty [fixed] values found in the ranges of the affected entries
    whose package name is that of the queried package. *)
Theorem convert_fixedVersions_members :
  forall (apiVuln : OsvApiVulnerability) (pkg : PackageInfo) (v : jsstring),
    In v (fixedVersions (convertOsvVulnerability apiVuln pkg))
    <-> fixed_for apiVuln pkg v.
Proof.
  intros apiVuln pkg v. unfold convertOsvVulnerability.
  cbn [fixedVersions]. rewrite spread_set_In. unfold fixed_for.
  destruct (api_affected apiVuln) as [affs|].
  - assert (Hflat :
      match affs with
      | [] => []
      | _ :: _ =>
          fold_left
            (fun acc affected =>
               if same_package affected pkg
               then acc ++ extractFixedVersions (aff_ranges affected)
               else acc) affs []
      end
      = flat_map (fun affected =>
                    if same_package affected pkg
                    then extractFixedVersions (aff_ranges affected)
                    else []) affs).
    { assert (H : forall l acc,
                 fold_left
                   (fun acc affected =>
                      if same_package affected pkg
                      then acc ++ extractFixedVersions (aff_ranges affected)
                      else acc) l acc
                 = acc ++ flat_map
                            (fun affected =>
                               if same_package affected pkg
                               then extractFixedVersions (aff_ranges affected)
                               else []) l).
      { induction l as [|x l IH]; intros acc; cbn [fold_left flat_map].
        - now rewrite app_nil_r.
        - rewrite IH. destruct (same_package x pkg).
          + now rewrite app_assoc.
          + reflexivity. }
      destruct affs as [|a affs]; [reflexivity|]. apply H. }
    rewrite Hflat, in_flat_map. split.
    + intros (aff & Haff & Hv).
      destruct (same_package aff pkg) eqn:Esame; [|destruct Hv].
      unfold same_package in Esame.
      destruct (aff_package aff) as [p|] eqn:Ep; [|discriminate].
      apply eqb_eq in Esame.
      apply extractFixedVersions_In in Hv
        as (rs & r & evs & ev & Hrs & Hr & Hevs & Hev & Hf & Hne).
      exists affs, aff, p, rs, r, evs, ev. repeat split; auto.
    + intros (affs' & aff & p & rs & r & evs & ev & [= <-] & Haff & Hp
              & Hname & Hrs & Hr & Hevs & Hev & Hf & Hne).
      exists aff. split; [exact Haff|].
      unfold same_package. rewrite Hp, Hname, eqb_refl.
      apply extractFixedVersions_In. now exists rs, r, evs, ev.
  - cbn. split; [tauto|].
    intros (affs & aff & p & rs & r & evs & ev & H & _). discriminate.
Qed.


End FixedFacts.


(** ** Batches *)

Lemma slices_concat (size fuel : nat) (l : list PackageInfo) :
  (0 < size)%nat -> (List.length l <= fuel)%nat ->
  List.concat (slices fuel size l) = l.
Proof.
  intros Hsize. revert l. induction fuel as [|fuel IH]; intros l Hl.
  - destruct l; [reflexivity|cbn in Hl; lia].
  - destruct l as [|x l]; [reflexivity|].
    cbn [slices List.concat]. rewrite IH.
    + apply firstn_skipn.
    + rewrite length_skipn. cbn [List.length] in *. lia.
Qed.

Lemma slices_bounds (size fuel : nat) (l : list PackageInfo) :
  (0 < size)%nat ->
  Forall (fun b => b <> [] /\ (List.length b <= size)%nat)
    (slices fuel size l).
Proof.
  intros Hsize. revert l. induction fuel as [|fuel IH]; intros l;
    [constructor|].
  destruct l as [|x l]; [constructor|].
  cbn [slices]. constructor; [|apply IH]. split.
  - destruct size; [lia|]. discriminate.
  - rewrite length_firstn. lia.
Qed.

Lemma ceil_step (n size : nat) :
  (0 < size)%nat -> (1 <= n)%nat ->
  S ((n - size + size - 1) / size) = ((n + size - 1) / size)%nat.
Proof.
  intros Hsize Hn. destruct (Nat.le_gt_cases size n) as [Hge | Hlt].
  - replace (n + size - 1)%nat with ((n - size + size - 1) + 1 * size)%nat
      by lia.
    rewrite Nat.div_add by lia. lia.
  - replace (n - size)%nat with 0%nat by lia.
    rewrite (Nat.div_small (0 + size - 1)) by lia.
    apply (Nat.div_unique _ _ 1 (n - 1)); lia.
Qed.

Lemma slices_count (size fuel : nat) (l : list PackageInfo) :
  (0 < size)%nat -> (List.length l <= fuel)%nat ->
  List.length (slices fuel size l) = ((List.length l + size - 1) / size)%nat.
Proof.
  intros Hsize. revert l. induction fuel as [|fuel IH]; intros l Hl.
  - destruct l; [|cbn in Hl; lia]. cbn [slices List.length].
    symmetry. apply Nat.div_small. lia.
  - destruct l as [|x l].
    + cbn [slices List.length]. symmetry. apply Nat.div_small. lia.
    + cbn [slices]. cbn [List.length]. rewrite IH.
      * rewrite length_skipn.
        change (S (List.length l)) with (List.length (x :: l)).
        apply ceil_step; [exact Hsize|cbn; lia].
      * rewrite length_skipn. cbn [List.length] in *. lia.
Qed.

Lemma batches_of_partition_aux (packages : list PackageInfo) :
  List.concat (batches_of packages) = packages /\
  Forall (fun b => b <> [] /\ (List.length b <= MAX_BATCH_SIZE)%nat)
    (batches_of packages).
Proof.
  assert (0 < MAX_BATCH_SIZE)%nat as Hsize by (unfold MAX_BATCH_SIZE; lia).
  unfold batches_of. split.
  - now apply slices_concat.
  - now apply slices_bounds.
Qed.

(** X9. The batches partition the package list in order: their
    concatenation is the list, none is empty, none has more than 1000
    packages, and there are ceil(n / 1000) of them. *)
Theorem batches_of_partition :
  forall packages : list PackageInfo,
    List.concat (batches_of packages) = packages /\
    Forall (fun b => b <> [] /\ (List.length b <= 1000)%nat)
      (batches_of packages) /\
    List.length (batches_of packages)
    = ((List.length packages + 999) / 1000)%nat.
Proof.
  intros packages. unfold batches_of.
  assert (0 < MAX_BATCH_SIZE)%nat as Hsize by (unfold MAX_BATCH_SIZE; lia).
  split; [|split].
  - now apply slices_concat.
  - now apply slices_bounds.
  - rewrite slices_count by auto. unfold MAX_BATCH_SIZE.
    f_equal. lia.
Qed.

(** ** Detail requests *)

Section DetailFacts.

Context {svc : OsvService}.

Lemma fetchVulnerabilityDetails_run (vulnId : jsstring) (w : World) :
  fetchVulnerabilityDetails vulnId w
  = (Ok (details_of (fst (get_vuln vulnId (fst w)))),
     (snd (get_vuln vulnId (fst w)), snd w ++ [EvGet vulnId])).
Proof.
  unfold fetchVulnerabilityDetails, try_catch, bind, fetch_get, log, ret,
    details_of.
  destruct (get_vuln vulnId (fst w)) as [[e|status body] env'];
    cbn [fst snd]; [reflexivity|].
  destruct (response_ok status); cbn [negb].
  - destruct body as [v|e]; reflexivity.
  - destruct body as [v|e]; reflexivity.
Qed.

Lemma fetch_all_details_run (vs : list OsvApiVulnerability) (w : World) :
  exists full env',
    fetch_all_details vs w
    = (Ok full, (env', snd w ++ map (fun v => EvGet (api_id v)) vs)) /\
    List.length full = List.length vs.
Proof.
  revert w. induction vs as [|v vs IH]; intros w;
    cbn [fetch_all_details map].
  - exists [], (fst w). unfold ret. rewrite app_nil_r.
    destruct w; split; reflexivity.
  - unfold bind at 1. rewrite fetchVulnerabilityDetails_run.
    unfold bind at 1.
    destruct (IH (snd (get_vuln (api_id v) (fst w)),
                  snd w ++ [EvGet (api_id v)]))
      as (full & env' & -> & Hlen).
    unfold ret. cbn [snd]. rewrite <- app_assoc.
    eexists _, env'. split; [reflexivity|]. cbn [List.length]. now rewrite Hlen.
Qed.

(** X10. Fetching the details of a list of vulnerabilities never throws,
    sends exactly one request per vulnerability, in order, and returns as
    many records as it was given. *)
Theorem fetch_all_details_total :
  forall (vs : list OsvApiVulnerability) (w : World),
    exists full env',
      fetch_all_details vs w
      = (Ok full, (env', snd w ++ map (fun v => EvGet (api_id v)) vs)) /\
      List.length full = List.length vs.
Proof. exact fetch_all_details_run. Qed.

(** X11. When the detail endpoint gives no record (rejection, failure
    status or unreadable body), the minimal records of the batch response
    are kept as they are. *)
Theorem fetch_all_details_fallback :
  details_unavailable ->
  forall (vs : list OsvApiVulnerability) (w : World),
    fst (fetch_all_details vs w) = Ok vs.
Proof.
  intros Hdown. induction vs as [|v vs IH]; intros w;
    cbn [fetch_all_details]; [reflexivity|].
  unfold bind at 1. rewrite fetchVulnerabilityDetails_run.
  unfold bind at 1.
  specialize (IH (snd (get_vuln (api_id v) (fst w)),
                  snd w ++ [EvGet (api_id v)])).
  destruct (fetch_all_details vs _) as [[full|e] w']; cbn [fst] in IH;
    [|discriminate].
  injection IH as ->. unfold ret. cbn [fst].
  specialize (Hdown (api_id v) (fst w)). unfold details_of.
  destruct (fst (get_vuln (api_id v) (fst w))) as [e|status [b|e]];
    try reflexivity.
  now rewrite Hdown.
Qed.

End DetailFacts.

Lemma fetch_all_details_fallback_witness :
  fst (fetch_all_details (svc := Demo.scripted)
         [Demo.bare_vuln "GHSA-a"; Demo.bare_vuln "GHSA-b"] ([], []))
  = Ok [Demo.bare_vuln "GHSA-a"; Demo.bare_vuln "GHSA-b"].
Proof.
  apply (fetch_all_details_fallback (svc := Demo.scripted)).
  intros vulnId env. exact I.
Defined.

(** ** Runs of the batched query *)

Lemma posts_app (a b : list Event) : posts (a ++ b) = posts a ++ posts b.
Proof. unfold posts. apply flat_map_app. Qed.

Lemma posts_only_gets (gets : list Event) : only_gets gets -> posts gets = [].
Proof.
  induction 1 as [|ev gets Hev _ IH]; [reflexivity|].
  destruct ev; try contradiction. exact IH.
Qed.

Lemma only_gets_no_sleep (gets : list Event) (ms : Z) :
  only_gets gets -> ~ In (EvSleep ms) gets.
Proof.
  intros H Hin. unfold only_gets in H. rewrite Forall_forall in H.
  exact (H _ Hin).
Qed.

Lemma map_get_set (key key' : jsstring) (value : list OsvApiVulnerability)
    (m : VulnMap) :
  map_get key (map_set key' value m)
  = if Js.eqb key' key then Some value else map_get key m.
Proof.
  induction m as [|[k v] m IH]; cbn [map_set map_get].
  - destruct (Js.eqb key' key); reflexivity.
  - destruct (Js.eqb k key') eqn:E; cbn [map_get].
    + apply eqb_eq in E. subst k.
      destruct (Js.eqb key' key); reflexivity.
    + rewrite IH. destruct (Js.eqb k key) eqn:E1; [|reflexivity].
      apply eqb_eq in E1. subst k.
      destruct (Js.eqb key' key) eqn:E2; [|reflexivity].
      apply eqb_eq in E2. subst key'. now rewrite eqb_refl in E.
Qed.

Section RunFacts.

Context {svc : OsvService}.

Lemma process_batch_answered (batch : list PackageInfo) (m : VulnMap)
    (w : World) (status : Z) (data : OsvBatchResponse) (env1 : Env) :
  post_querybatch (batch_request batch) (fst w)
  = (Response status (JsonOk data), env1) ->
  response_ok status = true ->
  process_batch batch m w
  = process_results batch 0 data m
      (env1, snd w ++ [EvPost (batch_request batch)]).
Proof.
  intros Hpost Hok.
  unfold process_batch, try_catch, bind, fetch_post, log.
  rewrite Hpost. cbn [fst snd]. rewrite Hok. cbn [negb read_json].
  unfold ret at 1.
  destruct (process_results_ok batch 0 data m
              (env1, snd w ++ [EvPost (batch_request batch)]))
    as (m' & env' & gets & _ & ->).
  reflexivity.
Qed.

Lemma process_batch_inv (batch : list PackageInfo) (m m' : VulnMap)
    (w w' : World) :
  process_batch batch m w = (Ok m', w') ->
  exists data w0, process_results batch 0 data m w0 = (Ok m', w').
Proof.
  unfold process_batch, try_catch, bind, fetch_post, sleep, log, throw.
  destruct (post_querybatch (batch_request batch) (fst w))
    as [[e|status body] env1]; cbn [fst snd]; [discriminate|].
  destruct (response_ok status); cbn [negb].
  - destruct body as [data|e]; cbn [read_json]; [|discriminate].
    unfold ret at 1.
    destruct (process_results batch 0 data m _) as [[r|e] w1] eqn:E;
      [|discriminate].
    intros [= <- <-]. eauto.
  - destruct (status =? 429)%Z; cbn [fst snd]; [|discriminate].
    destruct (post_querybatch (batch_request batch) (wait 2000 env1))
      as [[e|status2 body2] env2]; cbn [fst snd]; [discriminate|].
    destruct (response_ok status2); cbn [negb]; [|discriminate].
    destruct body2 as [data|e]; cbn [read_json]; [|discriminate].
    unfold ret at 1.
    destruct (process_results batch 0 data m _) as [[r|e] w1] eqn:E;
      [|discriminate].
    intros [= <- <-]. eauto.
Qed.

Lemma process_results_keyed (packages batch : list PackageInfo)
    (index : nat) (data : OsvBatchResponse) (m m' : VulnMap) (w w' : World) :
  incl batch packages -> keyed_by packages m ->
  process_results batch index data m w = (Ok m', w') ->
  keyed_by packages m'.
Proof.
  revert index m w. induction batch as [|pkg rest IH];
    intros index m w Hincl Hm; cbn [process_results].
  - unfold ret. now intros [= <- _].
  - assert (incl rest packages) as Hrest
        by (intros x Hx; apply Hincl; now right).
    destruct (nth_error (results data) index) as [[[[|v vs]|]]|];
      try (apply IH; assumption).
    unfold bind.
    destruct (fetch_all_details_run (v :: vs) w)
      as (full & env1 & -> & Hlen).
    apply IH; [exact Hrest|].
    intros key found. rewrite map_get_set.
    destruct (Js.eqb (package_key pkg) key) eqn:E.
    + intros [= <-]. split.
      * destruct full; [discriminate Hlen|discriminate].
      * exists pkg. split; [apply Hincl; now left|].
        apply eqb_eq in E. now symmetry.
    + apply Hm.
Qed.

Lemma query_batches_keyed (packages : list PackageInfo)
    (batches : list (list PackageInfo)) (m m' : VulnMap) (w w' : World) :
  (forall b, In b batches -> incl b packages) -> keyed_by packages m ->
  query_batches batches m w = (Ok m', w') ->
  keyed_by packages m'.
Proof.
  revert m w. induction batches as [|b batches IH]; intros m w Hb Hm;
    cbn [query_batches].
  - unfold ret. now intros [= <- _].
  - unfold bind.
    destruct (process_batch b m w) as [[m1|e] w1] eqn:E; [|discriminate].
    apply process_batch_inv in E as (data & w0 & E).
    apply IH.
    + intros b' Hb'. apply Hb. now right.
    + eapply process_results_keyed; [|exact Hm|exact E].
      apply Hb. now left.
Qed.

Lemma batches_incl (packages b : list PackageInfo) :
  In b (batches_of packages) -> incl b packages.
Proof.
  intros Hb x Hx.
  rewrite <- (proj1 (batches_of_partition_aux packages)).
  apply in_concat. now exists b.
Qed.

(** X12. When every batch request is answered with a success status and a
    JSON body, the query ends normally after exactly one POST per batch,
    in order and without waiting; together the requests carry every
    package exactly once, in order. *)
Theorem queryOsvBatch_one_post_per_batch :
  always_answers ->
  forall (packages : list PackageInfo) (w : World),
    exists m w',
      queryOsvBatch packages w = (Ok m, w') /\
      posts (snd w')
      = posts (snd w) ++ map batch_request (batches_of packages) /\
      (forall ms, In (EvSleep ms) (snd w') -> In (EvSleep ms) (snd w)) /\
      List.concat (map queries (map batch_request (batches_of packages)))
      = map query_of packages.
Proof.
  intros Hsvc packages w. unfold queryOsvBatch.
  assert (Hrun : forall batches m0 w0, exists m w',
             query_batches batches m0 w0 = (Ok m, w') /\
             posts (snd w') = posts (snd w0) ++ map batch_request batches /\
             (forall ms, In (EvSleep ms) (snd w') ->
                         In (EvSleep ms) (snd w0))).
  { induction batches as [|b batches IH]; intros m0 w0;
      cbn [query_batches map].
    - exists m0, w0. unfold ret. rewrite app_nil_r. auto.
    - destruct (Hsvc (batch_request b) (fst w0))
        as (status & data & env1 & Hpost & Hok).
      unfold bind.
      rewrite (process_batch_answered b m0 w0 status data env1 Hpost Hok).
      destruct (process_results_ok b 0 data m0
                  (env1, snd w0 ++ [EvPost (batch_request b)]))
        as (m1 & env2 & gets & Hgets & ->).
      cbn [snd].
      destruct (IH m1 (env2, (snd w0 ++ [EvPost (batch_request b)]) ++ gets))
        as (m & w' & -> & Hposts & Hsleep).
      exists m, w'. split; [reflexivity|]. cbn [snd] in *. split.
      + rewrite Hposts, !posts_app, (posts_only_gets gets Hgets).
        cbn [posts flat_map app]. rewrite app_nil_r, <- app_assoc.
        reflexivity.
      + intros ms Hin. apply Hsleep in Hin.
        rewrite !in_app_iff in Hin. destruct Hin as [[Hin | Hin] | Hin].
        * exact Hin.
        * destruct Hin as [Hin | []]. discriminate Hin.
        * exfalso. exact (only_gets_no_sleep gets ms Hgets Hin). }
  destruct (Hrun (batches_of packages) [] w) as (m & w' & Hq & Hp & Hs).
  exists m, w'. repeat split; try assumption.
  rewrite map_map.
  rewrite <- (proj1 (batches_of_partition_aux packages)) at 2.
  rewrite concat_map. reflexivity.
Qed.

(** X13. Every key of the map returned by the batched query is the key of
    one of the queried packages, and every entry holds at least one
    vulnerability. *)
Theorem queryOsvBatch_keys :
  forall (packages : list PackageInfo) (w w' : World) (m : VulnMap),
    queryOsvBatch packages w = (Ok m, w') -> keyed_by packages m.
Proof.
  intros packages w w' m. unfold queryOsvBatch.
  apply query_batches_keyed.
  - intros b. apply batches_incl.
  - intros key vs H. discriminate H.
Qed.

End RunFacts.

Lemma queryOsvBatch_one_post_witness :
  let pkg := package "npm" (u "lodash") (u "4.17.20") (u "package.json") in
  exists m w',
    queryOsvBatch (svc := Quiet.service) [pkg] (tt, []) = (Ok m, w') /\
    posts (snd w') = [batch_request [pkg]].
Proof.
  intros pkg.
  assert (always_answers (svc := Quiet.service)) as H.
  { intros req env. exists 200%Z, {| results := [] |}, env.
    split; reflexivity. }
  destruct (queryOsvBatch_one_post_per_batch (svc := Quiet.service) H
              [pkg] (tt, [])) as (m & w' & Hq & Hp & _).
  exists m, w'. split; [exact Hq|exact Hp].
Defined.

Lemma queryOsvBatch_keys_witness :
  let pkg := package "npm" (u "lodash") (u "4.17.20") (u "package.json") in
  let found : FetchOutcome OsvBatchResponse :=
    Response 200
      (JsonOk {| results := [{| vulns := Some [Demo.bare_vuln "GHSA-k"] |}] |})
  in
  keyed_by [pkg] [(package_key pkg, [Demo.bare_vuln "GHSA-k"])].
Proof.
  intros pkg found.
  apply (queryOsvBatch_keys (svc := Demo.scripted) [pkg]
           ([found], []) ([], [EvPost (batch_request [pkg]);
                               EvGet (u "GHSA-k")])).
  reflexivity.
Defined.

(** ** What a scan reports *)

Section ReportFacts.

Context {rt : JsRuntime} {svc : OsvService}.

Lemma convert_all_reported (packages : list PackageInfo) (m : VulnMap) :
  Forall (reported_for packages) (convert_all packages m).
Proof.
  unfold convert_all.
  assert (H : forall rest acc,
             incl rest packages ->
             Forall (reported_for packages) acc ->
             Forall (reported_for packages)
               (fold_left
                  (fun allVulnerabilities pkg =>
                     match map_get (package_key pkg) m with
                     | Some vs =>
                         fold_left
                           (fun acc apiVuln =>
                              acc ++ [convertOsvVulnerability apiVuln pkg])
                           vs allVulnerabilities
                     | None => allVulnerabilities
                     end) rest acc)).
  { induction rest as [|pkg rest IH]; intros acc Hincl Hacc; [exact Hacc|].
    cbn [fold_left]. apply IH; [intros x Hx; apply Hincl; now right|].
    destruct (map_get (package_key pkg) m) as [vs|]; [|exact Hacc].
    assert (In pkg packages) as Hpkg by (apply Hincl; now left).
    clear - Hacc Hpkg. revert acc Hacc.
    induction vs as [|v vs IHv]; intros acc Hacc; [exact Hacc|].
    cbn [fold_left]. apply IHv. apply Forall_app. split; [exact Hacc|].
    constructor; [|constructor]. exists pkg. repeat split. exact Hpkg. }
  apply H; [apply incl_refl|constructor].
Qed.

(** X14. Every vulnerability a scan returns carries the name, version,
    ecosystem and manifest file of one of the scanned packages. *)
Theorem scanPackages_reports_scanned_packages :
  forall (packages : list PackageInfo) (w w' : World)
         (vs : list OsvVulnerability),
    scanPackages packages w = (Ok vs, w') ->
    Forall (reported_for packages) vs.
Proof.
  intros packages w w' vs. unfold scanPackages.
  destruct packages as [|pkg rest].
  - intros [= <- _]. constructor.
  - unfold bind, ret.
    destruct (queryOsvBatch (pkg :: rest) w) as [[m|e] w1]; intros [= <- _].
    apply convert_all_reported.
Qed.

End ReportFacts.

Lemma scanPackages_reports_witness :
  let pkg := package "npm" (u "lodash") (u "4.17.20") (u "package.json") in
  let found : FetchOutcome OsvBatchResponse :=
    Response 200
      (JsonOk {| results := [{| vulns := Some [Demo.bare_vuln "GHSA-k"] |}] |})
  in
  Forall (reported_for [pkg])
    [convertOsvVulnerability (rt := Demo.runtime) (Demo.bare_vuln "GHSA-k")
       pkg].
Proof.
  intros pkg found.
  apply (scanPackages_reports_scanned_packages (rt := Demo.runtime)
           (svc := Demo.scripted) [pkg] ([found], [])
           ([], [EvPost (batch_request [pkg]); EvGet (u "GHSA-k")])).
  reflexivity.
Defined.

(** ** Statistics *)

Lemma count_severity_app (s : Severity) (a b : list OsvVulnerability) :
  count_severity s (a ++ b) = (count_severity s a + count_severity s b)%nat.
Proof. unfold count_severity. now rewrite filter_app, length_app. Qed.

(** X15. Statistics add up over concatenation, and the total is the sum
    of the four buckets plus the number of vulnerabilities of severity
    [UNKNOWN], which no bucket counts. *)
Theorem calculateStats_additive :
  (forall a b : list OsvVulnerability,
      calculateStats (a ++ b)
      = {| total := total (calculateStats a) + total (calculateStats b);
           critical :=
             critical (calculateStats a) + critical (calculateStats b);
           high := high (calculateStats a) + high (calculateStats b);
           medium := medium (calculateStats a) + medium (calculateStats b);
           low := low (calculateStats a) + low (calculateStats b) |}) /\
  (forall vs : list OsvVulnerability,
      total (calculateStats vs)
      = (critical (calculateStats vs) + high (calculateStats vs)
         + medium (calculateStats vs) + low (calculateStats vs)
         + count_severity UNKNOWN vs)%nat).
Proof.
  split.
  - intros a b. unfold calculateStats. cbn [total critical high medium low].
    now rewrite length_app, !count_severity_app.
  - intros vs. unfold calculateStats, count_severity.
    cbn [total critical high medium low].
    induction vs as [|v vs IH]; [reflexivity|].
    cbn [filter List.length].
    destruct (severity v); cbn [Severity_eqb List.length]; lia.
Qed.

(** ** Replies of the scan action *)

Section ReplyFacts.

Context {rt : JsRuntime} {parsers : ManifestParsers} {svc : OsvService}.

(** X16. The HTTP status tells the outcome: 200 with [success = true] and
    no error text; 400 with [success = false], a zero duration and one of
    the two usage messages; 500 with [success = false] and a non-empty
    error text. *)
Theorem action_status :
  forall (request : RequestBody) (w : World),
    let result := fst (fst (action request w)) in
    let status := snd (fst (action request w)) in
    (status = 200%Z /\ success result = true /\ error result = None) \/
    (status = 400%Z /\ success result = false /\
     scanDuration result = 0%Z /\
     (error result = Some no_files_error \/
      error result = Some no_manifest_error)) \/
    (status = 500%Z /\ success result = false /\
     exists message, error result = Some message /\ message <> []).
Proof.
  intros request w result status. subst result status. unfold action.
  destruct (date_now w) as [startTime w0].
  destruct (action_try startTime request w0) as [[reply|e] w1] eqn:Etry.
  - cbn [fst snd]. unfold action_try in Etry.
    destruct request as [e|[[|file files]|]];
      try discriminate;
      try (injection Etry as <- _; right; left; cbn; auto; fail).
    destruct (filter is_manifest (file :: files)) as [|m ms];
      [injection Etry as <- _; right; left; cbn; auto|].
    destruct (extractAllPackages (m :: ms)) as [|pkg pkgs].
    + unfold bind, get_time, ret in Etry.
      destruct (date_now w0) as [now w'].
      injection Etry as <- _. left. cbn. auto.
    + unfold bind, get_time, ret in Etry.
      destruct (scanPackages (pkg :: pkgs) w0) as [[vs|e] w'];
        [|discriminate].
      destruct (date_now w') as [now w''].
      injection Etry as <- _. left. cbn. auto.
  - destruct (date_now w1) as [now w2]. cbn [fst snd]. right. right.
    cbn. repeat split. destruct e as [|c e]; cbn [truthy].
    + exists unknown_error. split; [reflexivity|discriminate].
    + exists (c :: e). split; [reflexivity|discriminate].
Qed.

(** X17. A request that gives nothing to scan (unreadable body, no files,
    no recognized manifest, or no extracted package) is answered without
    any request to the OSV service and without waiting. *)
Theorem action_offline_without_packages :
  forall (request : RequestBody) (w : World),
    match request with
    | BodyFiles (Some files) =>
        extractAllPackages (filter is_manifest files) = []
    | _ => True
    end ->
    snd (snd (action request w)) = snd w.
Proof.
  intros request w H. unfold action.
  pose proof (date_now_trace w) as T0.
  destruct (date_now w) as [startTime w0]. cbn [snd] in T0.
  unfold action_try.
  destruct request as [e|[[|file files]|]].
  - unfold throw. pose proof (date_now_trace w0) as T1.
    destruct (date_now w0) as [now w1]. cbn [snd] in *. congruence.
  - unfold ret. cbn [snd]. exact T0.
  - destruct (filter is_manifest (file :: files)) as [|m ms];
      [unfold ret; cbn [snd]; exact T0|].
    rewrite H. unfold bind, get_time, ret.
    pose proof (date_now_trace w0) as T1.
    destruct (date_now w0) as [now w1]. cbn [snd] in *. congruence.
  - unfold ret. cbn [snd]. exact T0.
Qed.

Lemma extractAllPackages_flat (files : list FileRec) :
  extractAllPackages files
  = flat_map (fun file =>
                fst (extractPackagesFromManifest (path file) (content file)))
      files.
Proof.
  unfold extractAllPackages.
  rewrite (fold_left_app_flat_map
             (fun file =>
                fst (extractPackagesFromManifest (path file) (content file)))
             files []).
  reflexivity.
Qed.

(** X18. Files of the ecosystems without a parser (NuGet, Packagist and
    RubyGems) are recognized as manifests but give no package: a request
    made only of such files is answered with status 200,
    [success = true], all the files counted as scanned, no package and no
    vulnerability. *)
Theorem action_unsupported_ecosystems :
  forall (files : list FileRec) (w : World),
    files <> [] ->
    (forall f, In f files ->
               detectManifestType (path f) = Some NuGet \/
               detectManifestType (path f) = Some Packagist \/
               detectManifestType (path f) = Some RubyGems) ->
    let result := fst (fst (action (BodyFiles (Some files)) w)) in
    snd (fst (action (BodyFiles (Some files)) w)) = 200%Z /\
    success result = true /\
    vulnerabilities result = [] /\
    scannedFiles result = List.length files /\
    scannedPackages result = 0%nat.
Proof.
  intros files w Hne Hfiles result. subst result.
  assert (filter is_manifest files = files) as Hfilter.
  { clear Hne. induction files as [|f files IH]; [reflexivity|].
    cbn [filter]. unfold is_manifest at 1.
    destruct (Hfiles f (or_introl eq_refl)) as [-> | [-> | ->]];
      (rewrite IH; [reflexivity|intros g Hg; apply Hfiles; now right]). }
  assert (extractAllPackages files = []) as Hpkgs.
  { rewrite extractAllPackages_flat. clear Hne Hfilter.
    induction files as [|f files IH]; [reflexivity|].
    cbn [flat_map]. rewrite IH by (intros g Hg; apply Hfiles; now right).
    unfold extractPackagesFromManifest.
    destruct (Hfiles f (or_introl eq_refl)) as [-> | [-> | ->]];
      reflexivity. }
  unfold action. destruct (date_now w) as [startTime w0].
  unfold action_try. destruct files as [|file files]; [congruence|].
  rewrite Hfilter, Hpkgs. unfold bind, get_time, ret.
  destruct (date_now w0) as [now w1]. cbn. repeat split.
Qed.

End ReplyFacts.

Lemma action_offline_witness :
  let w : World (svc := Demo.scripted) := ([], [EvSleep 1]) in
  snd (snd (action (rt := Demo.runtime) (parsers := source_parsers)
              (BodyFiles (Some [{| path := u "requirements.txt";
                                   content := u "# nothing pinned" |}])) w))
  = [EvSleep 1].
Proof.
  intros w.
  apply (action_offline_without_packages (rt := Demo.runtime)
           (parsers := source_parsers) (svc := Demo.scripted)
           (BodyFiles (Some [{| path := u "requirements.txt";
                                content := u "# nothing pinned" |}])) w).
  reflexivity.
Defined.

Lemma action_unsupported_witness :
  let w : World (svc := Demo.scripted) := ([], []) in
  let files := [{| path := u "Gemfile"; content := u "gem 'rails'" |};
                {| path := u "app/composer.json"; content := u "{}" |}] in
  scannedFiles (fst (fst (action (rt := Demo.runtime)
                            (parsers := source_parsers)
                            (BodyFiles (Some files)) w))) = 2%nat.
Proof.
  intros w files.
  refine (proj1 (proj2 (proj2 (proj2
            (action_unsupported_ecosystems (rt := Demo.runtime)
               (parsers := source_parsers) (svc := Demo.scripted)
               files w _ _))))).
  - discriminate.
  - intros f [<- | [<- | []]]; [right; right|right; left]; reflexivity.
Defined.

(** ** Manifest detection *)

Lemma match_suffix (l : list ascii) (s : jsstring) :
  match_here (map (fun a => Chr (ci a)) l ++ [Eos]) s <> None <->
  Forall2 (fun a c => ci a c = true) l s.
Proof.
  revert s. induction l as [|a l IH]; intros s; cbn [map app match_here].
  - destruct s; split; intros H; try constructor; try congruence.
    inversion H.
  - destruct s as [|c s]; [split; [congruence|intros H; inversion H]|].
    destruct (ci a c) eqn:E.
    + rewrite IH. split; [now constructor|].
      intros H. now inversion H.
    + split; [congruence|]. intros H. inversion H. congruence.
Qed.

Lemma search_somewhere (re : regex) (s : jsstring) :
  search re s <> None <->
  exists p t, s = p ++ t /\ match_here re t <> None.
Proof.
  induction s as [|c s IH]; cbn [search].
  - destruct (match_here re []) eqn:E.
    + split; [|intros _; discriminate]. intros _. exists [], [].
      split; [reflexivity|]. rewrite E. discriminate.
    + split; [intros H; now contradiction H|]. intros (p & t & Hpt & Ht).
      symmetry in Hpt. apply app_eq_nil in Hpt as [-> ->].
      now rewrite E in Ht.
  - destruct (match_here re (c :: s)) eqn:E.
    + split; [|intros _; discriminate]. intros _. exists [], (c :: s).
      split; [reflexivity|]. rewrite E. discriminate.
    + split.
      * intros H. destruct (search re s) as [[b r]|] eqn:Es;
          [|now contradiction H].
        destruct (proj1 IH) as (p & t & -> & Ht); [discriminate|].
        now exists (c :: p), t.
      * intros (p & t & Hpt & Ht). destruct p as [|d p].
        -- cbn in Hpt. subst t. now rewrite E in Ht.
        -- injection Hpt as <- ->.
           destruct (search re (p ++ t)) as [[b r]|] eqn:Es; [discriminate|].
           exfalso. apply (proj2 IH); [|reflexivity]. now exists p, t.
Qed.

Lemma test_suffix (literal : string) (s : jsstring) :
  test (re_suffix_ci literal) s = true <-> ends_ci literal s.
Proof.
  unfold test, ends_ci, ci_equal, re_suffix_ci.
  pose proof (search_somewhere
                (map (fun a => Chr (ci a)) (list_ascii_of_string literal)
                   ++ [Eos]) s) as H.
  destruct (search _ s) as [r|].
  - split; [|reflexivity]. intros _.
    destruct (proj1 H) as (p & t & Hpt & Ht); [congruence|].
    exists p, t. split; [exact Hpt|]. now apply match_suffix.
  - split; [discriminate|]. intros (p & t & Hpt & Ht). exfalso.
    apply (proj2 H); [|reflexivity].
    exists p, t. split; [exact Hpt|]. now apply match_suffix.
Qed.

Lemma test_any_suffixes (literals : list string) (s : jsstring) :
  test_any (map re_suffix_ci literals) s = true <->
  exists literal, In literal literals /\ ends_ci literal s.
Proof.
  unfold test_any. rewrite existsb_exists. split.
  - intros (re & Hre & Ht). apply in_map_iff in Hre as (lit0 & <- & Hin).
    exists lit0. split; [exact Hin|]. now apply test_suffix.
  - intros (lit0 & Hin & He). exists (re_suffix_ci lit0).
    split; [now apply in_map|]. now apply test_suffix.
Qed.

Section DetectFacts.

Context {rt : JsRuntime}.

(** X19. A path is detected as an npm manifest exactly when its
    lower-cased text ends with [package.json]; it is rejected exactly when
    it ends with none of the eleven recognized endings (the Gradle
    endings are not among them); and no path is detected as [Hex]. *)
Theorem detectManifestType_by_suffix :
  forall filePath : jsstring,
    (detectManifestType filePath = Some Npm <->
     ends_ci "package.json" (toLowerCase filePath)) /\
    (detectManifestType filePath = None <->
     forall literal, In literal recognized_suffixes ->
                     ~ ends_ci literal (toLowerCase filePath)) /\
    detectManifestType filePath <> Some Hex.
Proof.
  intros filePath. unfold detectManifestType.
  set (name := toLowerCase filePath).
  pose proof (test_any_suffixes ["package.json"%string] name) as Hnpm.
  pose proof (test_any_suffixes
                ["requirements.txt"; "Pipfile"; "pyproject.toml"]%string
                name) as Hpy.
  pose proof (test_any_suffixes ["go.mod"%string] name) as Hgo.
  pose proof (test_any_suffixes ["Cargo.toml"%string] name) as Hrust.
  pose proof (test_any_suffixes ["pom.xml"%string] name) as Hmvn.
  pose proof (test_any_suffixes ["packages.config"; ".csproj"]%string name)
    as Hnuget.
  pose proof (test_any_suffixes ["composer.json"%string] name) as Hcomp.
  pose proof (test_any_suffixes ["Gemfile"%string] name) as Hruby.
  change (map re_suffix_ci ["package.json"%string]) with pattern_npm in Hnpm.
  change (map re_suffix_ci
            ["requirements.txt"; "Pipfile"; "pyproject.toml"]%string)
    with pattern_python in Hpy.
  change (map re_suffix_ci ["go.mod"%string]) with pattern_go in Hgo.
  change (map re_suffix_ci ["Cargo.toml"%string]) with pattern_rust in Hrust.
  change (map re_suffix_ci ["pom.xml"%string]) with pattern_maven in Hmvn.
  change (map re_suffix_ci ["packages.config"; ".csproj"]%string)
    with pattern_nuget in Hnuget.
  change (map re_suffix_ci ["composer.json"%string])
    with pattern_composer in Hcomp.
  change (map re_suffix_ci ["Gemfile"%string]) with pattern_ruby in Hruby.
  split; [|split].
  - destruct (test_any pattern_npm name).
    + split; [|reflexivity]. intros _.
      destruct (proj1 Hnpm eq_refl) as (l & [<- | []] & He). exact He.
    + split.
      * case_ifs; discriminate.
      * intros He. assert (false = true) as F; [|discriminate].
        apply Hnpm. exists "package.json"%string. split; [now left|exact He].
  - split.
    + intros Hnone literal Hin He.
      assert (forall group,
                 In literal group ->
                 test_any (map re_suffix_ci group) name = true) as Htest.
      { intros group Hg. apply test_any_suffixes. now exists literal. }
      unfold recognized_suffixes in Hin. cbn [In] in Hin.
      destruct (test_any pattern_npm name) eqn:E1; [discriminate|].
      destruct (test_any pattern_python name) eqn:E2; [discriminate|].
      destruct (test_any pattern_go name) eqn:E3; [discriminate|].
      destruct (test_any pattern_rust name) eqn:E4; [discriminate|].
      destruct (test_any pattern_maven name) eqn:E5; [discriminate|].
      destruct (test_any pattern_nuget name) eqn:E6; [discriminate|].
      destruct (test_any pattern_composer name) eqn:E7; [discriminate|].
      destruct (test_any pattern_ruby name) eqn:E8; [discriminate|].
      assert (forall group,
                 test_any (map re_suffix_ci group) name = false ->
                 ~ In literal group) as Hout.
      { intros group Hf Hg. rewrite (Htest group Hg) in Hf. discriminate. }
      destruct Hin as [<- | [<- | [<- | [<- | [<- | [<- | [<- | [<- | [<-
                      | [<- | [<- | []]]]]]]]]]]].
      * apply (Hout (["package.json"%string]) E1). now left.
      * apply (Hout (["requirements.txt"; "Pipfile"; "pyproject.toml"]%string) E2). now left.
      * apply (Hout (["requirements.txt"; "Pipfile"; "pyproject.toml"]%string) E2). right. now left.
      * apply (Hout (["requirements.txt"; "Pipfile"; "pyproject.toml"]%string) E2). right. right. now left.
      * apply (Hout (["go.mod"%string]) E3). now left.
      * apply (Hout (["Cargo.toml"%string]) E4). now left.
      * apply (Hout (["pom.xml"%string]) E5). now left.
      * apply (Hout (["packages.config"; ".csproj"]%string) E6). now left.
      * apply (Hout (["packages.config"; ".csproj"]%string) E6). right. now left.
      * apply (Hout (["composer.json"%string]) E7). now left.
      * apply (Hout (["Gemfile"%string]) E8). now left.
    + intros Hnone.
      assert (forall group,
                 incl group recognized_suffixes ->
                 test_any (map re_suffix_ci group) name = false) as Hf.
      { intros group Hincl.
        destruct (test_any (map re_suffix_ci group) name) eqn:E;
          [|reflexivity].
        apply test_any_suffixes in E as (l & Hl & He).
        exfalso. exact (Hnone l (Hincl l Hl) He). }
      assert (forall group : list string,
                 forallb (fun l => existsb (String.eqb l) recognized_suffixes)
                   group = true ->
                 incl group recognized_suffixes) as Hincl.
      { intros group Hg l Hl. rewrite forallb_forall in Hg.
        specialize (Hg l Hl). apply existsb_exists in Hg as (x & Hx & Hlx).
        apply String.eqb_eq in Hlx. now subst. }
      change pattern_npm with (map re_suffix_ci ["package.json"%string]).
      change pattern_python
        with (map re_suffix_ci
                ["requirements.txt"; "Pipfile"; "pyproject.toml"]%string).
      change pattern_go with (map re_suffix_ci ["go.mod"%string]).
      change pattern_rust with (map re_suffix_ci ["Cargo.toml"%string]).
      change pattern_maven with (map re_suffix_ci ["pom.xml"%string]).
      change pattern_nuget
        with (map re_suffix_ci ["packages.config"; ".csproj"]%string).
      change pattern_composer with (map re_suffix_ci ["composer.json"%string]).
      change pattern_ruby with (map re_suffix_ci ["Gemfile"%string]).
      rewrite !Hf by (apply Hincl; reflexivity). reflexivity.
  - case_ifs; discriminate.
Qed.

End DetectFacts.

(** ** The npm parser on every content *)

Section NpmShape.

Context {rt : JsRuntime}.

Lemma push_entries_undefined (manifestFile : jsstring)
    (packages : list PackageInfo) :
  push_entries manifestFile Undefined packages = packages.
Proof. reflexivity. Qed.

Lemma npm_entries_cleaned (manifestFile : jsstring)
    (es : list (jsstring * jsstring)) :
  Forall (fun p => pkg_ecosystem p = u "npm" /\
                   pkg_manifestFile p = manifestFile /\
                   pkg_version p <> [] /\
                   no_ws (pkg_version p) = true)
    (map (npm_package manifestFile) (filter usable es)).
Proof.
  apply Forall_forall. intros p Hp.
  apply in_map_iff in Hp as (e & <- & He).
  apply filter_In in He as [_ He]. unfold usable in He.
  cbn [npm_package pkg_ecosystem pkg_manifestFile pkg_version].
  repeat split.
  - now apply truthy_nonempty.
  - apply cleanVersion_shape.
Qed.

Lemma extractNpmPackages_cleaned (content manifestFile : jsstring) :
  Forall (fun p => pkg_ecosystem p = u "npm" /\
                   pkg_manifestFile p = manifestFile /\
                   pkg_version p <> [] /\
                   no_ws (pkg_version p) = true)
    (extractNpmPackages content manifestFile).
Proof.
  unfold extractNpmPackages.
  destruct (JSON_parse content) as [j|]; [|constructor].
  destruct (get_property j (u "dependencies")) eqn:E1; [constructor| |];
    (destruct (get_property j (u "devDependencies")) eqn:E2;
     rewrite ?push_entries_spec; cbn [app];
     rewrite ?app_nil_r, <- ?map_app, <- ?filter_app;
     try apply npm_entries_cleaned; try constructor).
Qed.

(** X20. Whatever the content, every package returned by
    [extractNpmPackages] has the ecosystem [npm], the given manifest file
    and a non-empty version without whitespace; and when the content
    parses to a JSON value that is not an object (null, a boolean, a
    number, a string or an array), no package is returned. *)
Theorem extractNpmPackages_shape :
  forall content manifestFile : jsstring,
    Forall (fun p => pkg_ecosystem p = u "npm" /\
                     pkg_manifestFile p = manifestFile /\
                     pkg_version p <> [] /\
                     no_ws (pkg_version p) = true)
      (extractNpmPackages content manifestFile) /\
    (forall j, JSON_parse content = Some j ->
               (forall fields, j <> JObj fields) ->
               extractNpmPackages content manifestFile = []).
Proof.
  intros content manifestFile. split.
  - apply extractNpmPackages_cleaned.
  - intros j Hj Hno. unfold extractNpmPackages. rewrite Hj.
    destruct j; try reflexivity. exfalso. now apply (Hno fields).
Qed.

End NpmShape.

Lemma detectManifestType_by_suffix_witness :
  detectManifestType (rt := Demo.runtime) (u "web/Package.JSON") = Some Npm.
Proof.
  apply (proj1 (detectManifestType_by_suffix (rt := Demo.runtime)
                  (u "web/Package.JSON"))).
  exists (u "web/"), (u "package.json"). split; [reflexivity|].
  repeat constructor.
Defined.

Lemma extractNpmPackages_shape_witness :
  extractNpmPackages (rt := Null.runtime) (u "null") (u "package.json") = [].
Proof.
  apply (proj2 (extractNpmPackages_shape (rt := Null.runtime)
                  (u "null") (u "package.json")) JNull).
  - reflexivity.
  - discriminate.
Defined.

(** ** The matcher with parts *)

Lemma starts_with_split (t s : jsstring) :
  starts_with t s = true -> s = t ++ skipn (List.length t) s.
Proof.
  revert s. induction t as [|a t IH]; intros s; [reflexivity|].
  destruct s as [|c s]; [discriminate|]. cbn [starts_with].
  intros H. apply andb_true_iff in H as [Hac H].
  apply N.eqb_eq in Hac. subst c. cbn [List.length skipn app].
  f_equal. now apply IH.
Qed.

Lemma many_sound (p : char -> bool) (k : jsstring -> option parts)
    (s q : jsstring) (r : parts) :
  many p k s = Some (q, r) ->
  forallb p q = true /\ exists s', s = q ++ s' /\ k s' = Some r.
Proof.
  assert (Hzero : forall t, option_map (pair []) (k t) = Some (q, r) ->
            forallb p q = true /\ exists s', t = q ++ s' /\ k s' = Some r).
  { intros t H. destruct (k t) as [r'|] eqn:E; [|discriminate].
    injection H as <- <-. split; [reflexivity|]. now exists t. }
  revert q r Hzero. induction s as [|c s IH]; intros q r Hzero;
    cbn [many]; [apply Hzero|].
  destruct (p c) eqn:Ec; [|apply Hzero].
  destruct (many p k s) as [[q' r']|] eqn:Em; [|apply Hzero].
  intros [= <- <-].
  destruct (IH q' r') as (Hq & s' & -> & Hk); [|reflexivity|].
  - intros t H. destruct (k t) as [r''|] eqn:E; [|discriminate].
    injection H as <- <-. split; [reflexivity|]. now exists t.
  - split; [cbn [forallb]; now rewrite Ec, Hq|]. now exists s'.
Qed.

Lemma few_sound (p : char -> bool) (k : jsstring -> option parts)
    (s q : jsstring) (r : parts) :
  few p k s = Some (q, r) ->
  forallb p q = true /\ exists s', s = q ++ s' /\ k s' = Some r.
Proof.
  revert q r. induction s as [|c s IH]; intros q r; cbn [few].
  - destruct (k []) as [r'|] eqn:E; [|discriminate].
    intros [= <- <-]. split; [reflexivity|]. now exists [].
  - destruct (k (c :: s)) as [r'|] eqn:E.
    + intros [= <- <-]. split; [reflexivity|]. now exists (c :: s).
    + destruct (p c) eqn:Ec; [|discriminate].
      destruct (few p k s) as [[q' r']|] eqn:Ef; [|discriminate].
      intros [= <- <-].
      destruct (IH q' r' eq_refl) as (Hq & s' & -> & Hk).
      split; [cbn [forallb]; now rewrite Ec, Hq|]. now exists s'.
Qed.

Lemma match_parts_sound (re : list atom) (s : jsstring)
    (ps : list jsstring) (rest : jsstring) :
  match_parts re s = Some (ps, rest) ->
  Forall2 fits re ps /\ s = List.concat ps ++ rest.
Proof.
  revert s ps. induction re as [|a re IH]; intros s ps; cbn [match_parts].
  - intros [= <- <-]. split; [constructor|reflexivity].
  - destruct a as [t|p|p|p].
    + destruct (starts_with t s) eqn:Et; [|discriminate].
      destruct (match_parts re (skipn (List.length t) s))
        as [[ps' r']|] eqn:Em; [|discriminate].
      cbn [option_map record]. intros [= <- <-].
      destruct (IH _ _ Em) as [Hf Hs]. split; [now constructor|].
      cbn [List.concat]. rewrite <- app_assoc, <- Hs.
      now apply starts_with_split.
    + destruct (many p (match_parts re) s) as [[q [ps' r']]|] eqn:Em;
        [|discriminate].
      cbn [record]. intros [= <- <-].
      destruct (many_sound _ _ _ _ _ Em) as (Hq & s' & -> & Hk).
      destruct (IH _ _ Hk) as [Hf Hs]. split; [now constructor|].
      cbn [List.concat]. now rewrite <- app_assoc, <- Hs.
    + destruct s as [|c s]; [discriminate|].
      destruct (p c) eqn:Ec; [|discriminate].
      destruct (many p (match_parts re) s) as [[q [ps' r']]|] eqn:Em;
        [|discriminate].
      cbn [record]. intros [= <- <-].
      destruct (many_sound _ _ _ _ _ Em) as (Hq & s' & -> & Hk).
      destruct (IH _ _ Hk) as [Hf Hs]. split.
      * constructor; [|exact Hf]. split; [discriminate|].
        cbn [forallb]. now rewrite Ec, Hq.
      * cbn [List.concat app]. now rewrite <- app_assoc, <- Hs.
    + destruct (few p (match_parts re) s) as [[q [ps' r']]|] eqn:Em;
        [|discriminate].
      cbn [record]. intros [= <- <-].
      destruct (few_sound _ _ _ _ _ Em) as (Hq & s' & -> & Hk).
      destruct (IH _ _ Hk) as [Hf Hs]. split; [now constructor|].
      cbn [List.concat]. now rewrite <- app_assoc, <- Hs.
Qed.

(** A loop that pushes at most one package per step keeps every property
    of the packages pushed. *)
Lemma fold_pushes {S X : Type} (out : S -> list PackageInfo)
    (step : S -> X -> S) (P : PackageInfo -> Prop) :
  (forall st x,
      out (step st x) = out st \/
      exists p, P p /\ out (step st x) = out st ++ [p]) ->
  forall xs st,
    Forall P (out st) ->
    Forall P (out (fold_left step xs st)) /\
    (List.length (out (fold_left step xs st))
     <= List.length (out st) + List.length xs)%nat.
Proof.
  intros Hstep. induction xs as [|x xs IH]; intros st Hst; cbn [fold_left].
  - split; [exact Hst|cbn; lia].
  - destruct (Hstep st x) as [Heq | (p & Hp & Heq)].
    + destruct (IH (step st x)) as [HF HL]; [now rewrite Heq|].
      split; [exact HF|]. rewrite Heq in HL. cbn [List.length]. lia.
    + destruct (IH (step st x)) as [HF HL].
      * rewrite Heq. apply Forall_app. split; [exact Hst|].
        constructor; [exact Hp|constructor].
      * split; [exact HF|]. rewrite Heq, length_app in HL.
        cbn [List.length] in *. lia.
Qed.

(** A loop whose steps all leave a state unchanged leaves it unchanged. *)
Lemma fold_idle {S X : Type} (step : S -> X -> S) (xs : list X) (st : S) :
  (forall x, In x xs -> step st x = st) -> fold_left step xs st = st.
Proof.
  induction xs as [|x xs IH]; intros H; [reflexivity|].
  cbn [fold_left]. rewrite (H x (or_introl eq_refl)).
  apply IH. intros y Hy. apply H. now right.
Qed.

(** ** The Python parser *)

Lemma python_line_pushes (manifestFile : jsstring)
    (packages : list PackageInfo) (line : jsstring) :
  Parsers.python_line manifestFile packages line = packages \/
  exists p,
    package_of "PyPI" manifestFile is_name_char is_version_char p /\
    Parsers.python_line manifestFile packages line = packages ++ [p].
Proof.
  unfold Parsers.python_line.
  destruct (negb (truthy (trim line)) || starts_with (u "#") (trim line));
    [now left|].
  destruct (match_parts re_requirement (trim line)) as [[ps rest]|] eqn:E;
    [|now left].
  destruct (match_parts_sound _ _ _ _ E) as [Hf _].
  unfold re_requirement in Hf.
  inversion Hf as [|a1 name r1 ps1 Hname Hf1]; subst.
  inversion Hf1 as [|a2 x2 r2 ps2 _ Hf2]; subst.
  inversion Hf2 as [|a3 x3 r3 ps3 _ Hf3]; subst.
  inversion Hf3 as [|a4 x4 r4 ps4 _ Hf4]; subst.
  inversion Hf4 as [|a5 matched r5 ps5 Hver Hf5]; subst.
  inversion Hf5; subst.
  destruct Hname as [Hn1 Hn2]. destruct Hver as [Hv1 Hv2].
  rewrite (cleanVersion_version_text matched Hv2).
  destruct matched as [|c matched]; [congruence|]. cbn [truthy].
  right. eexists. split; [|reflexivity]. repeat split; assumption.
Qed.

Lemma python_packages_shape (content manifestFile : jsstring) :
  Forall (package_of "PyPI" manifestFile is_name_char is_version_char)
    (Parsers.extractPythonPackages content manifestFile) /\
  (List.length (Parsers.extractPythonPackages content manifestFile)
   <= List.length (split_on 10%N content))%nat.
Proof.
  unfold Parsers.extractPythonPackages.
  destruct (fold_pushes (fun l => l) (Parsers.python_line manifestFile)
              (package_of "PyPI" manifestFile is_name_char is_version_char)
              (python_line_pushes manifestFile)
              (split_on 10%N content) [] (Forall_nil _)) as [HF HL].
  split; [exact HF|exact HL].
Qed.

(** X21. Every package returned by [extractPythonPackages] has the
    ecosystem [PyPI], the given manifest file, a non-empty name made of
    letters, digits, [_] and [-], and a non-empty version made of digits
    and dots; there is at most one package per line. *)
Theorem extractPythonPackages_shape :
  forall content manifestFile : jsstring,
    Forall (package_of "PyPI" manifestFile is_name_char is_version_char)
      (Parsers.extractPythonPackages content manifestFile) /\
    (List.length (Parsers.extractPythonPackages content manifestFile)
     <= List.length (split_on 10%N content))%nat.
Proof. exact python_packages_shape. Qed.

(** X22. A requirements file whose lines are all blank or comments gives
    no package. *)
Theorem extractPythonPackages_comments :
  forall content manifestFile : jsstring,
    (forall line, In line (split_on 10%N content) ->
                  trim line = [] \/ starts_with (u "#") (trim line) = true) ->
    Parsers.extractPythonPackages content manifestFile = [].
Proof.
  intros content manifestFile H. unfold Parsers.extractPythonPackages.
  apply fold_idle. intros line Hline. unfold Parsers.python_line.
  destruct (H line Hline) as [-> | ->]; [reflexivity|].
  now rewrite orb_true_r.
Qed.

Lemma extractPythonPackages_comments_witness :
  Parsers.extractPythonPackages
    (u "# pinned later" ++ [10%N] ++ u "   " ++ [10%N])
    (u "requirements.txt") = [].
Proof.
  apply extractPythonPackages_comments.
  intros line [<- | [<- | [<- | []]]]; [right|left|left]; reflexivity.
Defined.

(** ** The Go parser *)

Ltac split_parts H :=
  repeat match type of H with
         | Forall2 fits (_ :: _) _ =>
             let a := fresh "part" in
             let rest := fresh "parts" in
             let Hfit := fresh "Hfit" in
             let H' := fresh "Hparts" in
             inversion H as [|? a ? rest Hfit H']; subst; clear H;
             rename H' into H
         | Forall2 fits [] _ => inversion H; subst; clear H
         end.

Lemma match_require_sound (trimmed name version : jsstring) :
  Parsers.match_require trimmed = Some (name, version) ->
  (name <> [] /\ forallb is_module_char name = true) /\
  (version <> [] /\ forallb is_version_char version = true).
Proof.
  unfold Parsers.match_require.
  destruct (match_parts re_require_prefixed trimmed) as [[ps rest]|] eqn:E1.
  - destruct (match_parts_sound _ _ _ _ E1) as [Hf _].
    unfold re_require_prefixed in Hf. split_parts Hf.
    intros [= <- <-]. split; assumption.
  - destruct (match_parts re_require_bare trimmed) as [[ps rest]|] eqn:E2;
      [|discriminate].
    destruct (match_parts_sound _ _ _ _ E2) as [Hf _].
    unfold re_require_bare in Hf. split_parts Hf.
    intros [= <- <-]. split; assumption.
Qed.

Lemma go_line_pushes (manifestFile : jsstring)
    (st : bool * list PackageInfo) (line : jsstring) :
  snd (Parsers.go_line manifestFile st line) = snd st \/
  exists p,
    package_of "Go" manifestFile is_module_char is_version_char p /\
    snd (Parsers.go_line manifestFile st line) = snd st ++ [p].
Proof.
  unfold Parsers.go_line.
  destruct (Js.eqb (trim line) (u "require (")); [now left|].
  destruct (Js.eqb (trim line) (u ")")); [now left|].
  destruct (negb (truthy (trim line)) || starts_with (u "//") (trim line));
    [now left|].
  destruct (Parsers.match_require (trim line)) as [[name version]|] eqn:E;
    [|now left].
  destruct (fst st || starts_with (u "require") (trim line)); [|now left].
  destruct (match_require_sound _ _ _ E) as [[Hn1 Hn2] [Hv1 Hv2]].
  right. eexists. split; [|reflexivity]. repeat split; assumption.
Qed.

Lemma go_packages_shape (content manifestFile : jsstring) :
  Forall (package_of "Go" manifestFile is_module_char is_version_char)
    (Parsers.extractGoPackages content manifestFile) /\
  (List.length (Parsers.extractGoPackages content manifestFile)
   <= List.length (split_on 10%N content))%nat.
Proof.
  unfold Parsers.extractGoPackages.
  destruct (fold_pushes snd (Parsers.go_line manifestFile)
              (package_of "Go" manifestFile is_module_char is_version_char)
              (go_line_pushes manifestFile)
              (split_on 10%N content) (false, []) (Forall_nil _))
    as [HF HL].
  split; [exact HF|exact HL].
Qed.

(** X23. Every package returned by [extractGoPackages] has the ecosystem
    [Go], the given manifest file, a non-empty module path made of
    letters, digits and [._/-], and a non-empty version made of digits and
    dots; there is at most one package per line. *)
Theorem extractGoPackages_shape :
  forall content manifestFile : jsstring,
    Forall (package_of "Go" manifestFile is_module_char is_version_char)
      (Parsers.extractGoPackages content manifestFile) /\
    (List.length (Parsers.extractGoPackages content manifestFile)
     <= List.length (split_on 10%N content))%nat.
Proof. exact go_packages_shape. Qed.

(** X24. A go.mod in which no trimmed line starts with [require] gives no
    package, whatever module lines it contains. *)
Theorem extractGoPackages_needs_require :
  forall content manifestFile : jsstring,
    (forall line, In line (split_on 10%N content) ->
                  starts_with (u "require") (trim line) = false) ->
    Parsers.extractGoPackages content manifestFile = [].
Proof.
  intros content manifestFile H. unfold Parsers.extractGoPackages.
  rewrite fold_idle; [reflexivity|].
  intros line Hline. specialize (H line Hline).
  unfold Parsers.go_line. cbn [fst snd].
  destruct (Js.eqb (trim line) (u "require (")) eqn:E.
  { apply eqb_eq in E. rewrite E in H. discriminate H. }
  destruct (Js.eqb (trim line) (u ")")); [reflexivity|].
  destruct (negb (truthy (trim line)) || starts_with (u "//") (trim line));
    [reflexivity|].
  destruct (Parsers.match_require (trim line)) as [[name version]|];
    [|reflexivity].
  now rewrite H.
Qed.

Lemma extractGoPackages_needs_require_witness :
  Parsers.extractGoPackages
    (u "module example.com/app" ++ [10%N] ++ u "golang.org/x/net v0.1.0")
    (u "go.mod") = [].
Proof.
  apply extractGoPackages_needs_require.
  intros line [<- | [<- | []]]; reflexivity.
Defined.

(** ** The Rust parser *)

Lemma match_dependency_sound (trimmed name version : jsstring) :
  Parsers.match_dependency trimmed = Some (name, version) ->
  (name <> [] /\ forallb is_name_char name = true) /\
  (version <> [] /\ forallb is_version_char version = true).
Proof.
  unfold Parsers.match_dependency.
  destruct (match_parts re_dep_plain trimmed) as [[ps rest]|] eqn:E1.
  - destruct (match_parts_sound _ _ _ _ E1) as [Hf _].
    unfold re_dep_plain in Hf. split_parts Hf.
    intros [= <- <-]. split; assumption.
  - destruct (match_parts re_dep_table trimmed) as [[ps rest]|] eqn:E2;
      [|discriminate].
    destruct (match_parts_sound _ _ _ _ E2) as [Hf _].
    unfold re_dep_table in Hf. split_parts Hf.
    intros [= <- <-]. split; assumption.
Qed.

Lemma rust_line_pushes (manifestFile : jsstring)
    (st : bool * list PackageInfo) (line : jsstring) :
  snd (Parsers.rust_line manifestFile st line) = snd st \/
  exists p,
    package_of "crates.io" manifestFile is_name_char is_version_char p /\
    snd (Parsers.rust_line manifestFile st line) = snd st ++ [p].
Proof.
  unfold Parsers.rust_line.
  destruct (Js.eqb (trim line) (u "[dependencies]")
            || Js.eqb (trim line) (u "[dev-dependencies]")); [now left|].
  destruct (starts_with (u "[") (trim line) && fst st); [now left|].
  destruct (negb (truthy (trim line)) || starts_with (u "#") (trim line)
            || negb (fst st)); [now left|].
  destruct (Parsers.match_dependency (trim line)) as [[name version]|] eqn:E;
    [|now left].
  destruct (match_dependency_sound _ _ _ E) as [[Hn1 Hn2] [Hv1 Hv2]].
  rewrite (cleanVersion_version_text version Hv2).
  destruct version as [|c version]; [congruence|]. cbn [truthy].
  right. eexists. split; [|reflexivity]. repeat split; assumption.
Qed.

Lemma rust_packages_shape (content manifestFile : jsstring) :
  Forall (package_of "crates.io" manifestFile is_name_char is_version_char)
    (Parsers.extractRustPackages content manifestFile) /\
  (List.length (Parsers.extractRustPackages content manifestFile)
   <= List.length (split_on 10%N content))%nat.
Proof.
  unfold Parsers.extractRustPackages.
  destruct (fold_pushes snd (Parsers.rust_line manifestFile)
              (package_of "crates.io" manifestFile is_name_char
                 is_version_char)
              (rust_line_pushes manifestFile)
              (split_on 10%N content) (false, []) (Forall_nil _))
    as [HF HL].
  split; [exact HF|exact HL].
Qed.

(** X25. Every package returned by [extractRustPackages] has the
    ecosystem [crates.io], the given manifest file, a non-empty name made
    of letters, digits, [_] and [-], and a non-empty version made of
    digits and dots; there is at most one package per line. *)
Theorem extractRustPackages_shape :
  forall content manifestFile : jsstring,
    Forall (package_of "crates.io" manifestFile is_name_char is_version_char)
      (Parsers.extractRustPackages content manifestFile) /\
    (List.length (Parsers.extractRustPackages content manifestFile)
     <= List.length (split_on 10%N content))%nat.
Proof. exact rust_packages_shape. Qed.

(** X26. A Cargo.toml without a line that is exactly [[dependencies]] or
    [[dev-dependencies]] (after trimming) gives no package. *)
Theorem extractRustPackages_needs_table :
  forall content manifestFile : jsstring,
    (forall line, In line (split_on 10%N content) ->
                  trim line <> u "[dependencies]" /\
                  trim line <> u "[dev-dependencies]") ->
    Parsers.extractRustPackages content manifestFile = [].
Proof.
  intros content manifestFile H. unfold Parsers.extractRustPackages.
  rewrite fold_idle; [reflexivity|].
  intros line Hline. destruct (H line Hline) as [H1 H2].
  unfold Parsers.rust_line. cbn [fst snd].
  destruct (Js.eqb (trim line) (u "[dependencies]")) eqn:E1.
  { apply eqb_eq in E1. congruence. }
  destruct (Js.eqb (trim line) (u "[dev-dependencies]")) eqn:E2.
  { apply eqb_eq in E2. congruence. }
  cbn [orb negb]. rewrite andb_false_r, orb_true_r. reflexivity.
Qed.

Lemma extractRustPackages_needs_table_witness :
  Parsers.extractRustPackages
    (u "[build-dependencies]" ++ [10%N] ++ u "cc = " ++ quote ++ u "1.0"
       ++ quote)
    (u "Cargo.toml") = [].
Proof.
  apply extractRustPackages_needs_table.
  intros line [<- | [<- | []]]; split; discriminate.
Defined.

(** ** The Maven parser *)

Lemma starts_with_self (m q : jsstring) : starts_with m (m ++ q) = true.
Proof.
  induction m as [|a m IH]; [reflexivity|].
  cbn [app starts_with]. now rewrite N.eqb_refl, IH.
Qed.

Lemma includes_head (m s : jsstring) :
  starts_with m s = true -> includes m s = true.
Proof. intros H. destruct s; cbn [includes]; now rewrite H. Qed.

Lemma includes_infix (m p q : jsstring) : includes m (p ++ m ++ q) = true.
Proof.
  induction p as [|c p IH]; cbn [app].
  - apply includes_head, starts_with_self.
  - cbn [includes]. rewrite IH. apply orb_true_r.
Qed.

Lemma maven_match_pushes (manifestFile : jsstring)
    (packages : list PackageInfo) (matched : list jsstring) :
  Parsers.maven_match manifestFile packages matched = packages \/
  exists p,
    (cleaned_package "Maven" manifestFile p /\
     includes (u ":") (pkg_name p) = true) /\
    Parsers.maven_match manifestFile packages matched = packages ++ [p].
Proof.
  unfold Parsers.maven_match.
  do 15 (destruct matched as [|? matched]; [now left|]).
  destruct matched; [|now left].
  destruct (truthy (cleanVersion (Some (trim j10)))) eqn:E; [|now left].
  right. eexists. split; [|reflexivity].
  split; [repeat split|].
  - now apply truthy_nonempty.
  - apply cleanVersion_shape.
  - cbn [package pkg_name]. apply (includes_infix (u ":")).
Qed.

Lemma search_parts_suffix (re : list atom) (s : jsstring) (r : parts) :
  search_parts re s = Some r ->
  exists p t, s = p ++ t /\ match_parts re t = Some r.
Proof.
  induction s as [|c s IH]; cbn [search_parts].
  - destruct (match_parts re []) eqn:E; [|discriminate].
    intros [= <-]. now exists [], [].
  - destruct (match_parts re (c :: s)) eqn:E.
    + intros [= <-]. now exists [], (c :: s).
    + intros H. destruct (IH H) as (p & t & -> & Ht).
      now exists (c :: p), t.
Qed.

Lemma search_parts_needs_literal (t : jsstring) (re : list atom)
    (s : jsstring) :
  includes t s = false -> search_parts (Lit t :: re) s = None.
Proof.
  intros H. destruct (search_parts (Lit t :: re) s) as [r|] eqn:E;
    [|reflexivity].
  apply search_parts_suffix in E as (p & x & -> & Hx).
  cbn [match_parts] in Hx.
  destruct (starts_with t x) eqn:Et; [|discriminate].
  rewrite (starts_with_split t x Et) in H.
  now rewrite includes_infix in H.
Qed.

Lemma dependency_match_progress (s : jsstring) (ps : list jsstring)
    (rest : jsstring) :
  search_parts re_dependency s = Some (ps, rest) ->
  (List.length rest < List.length s)%nat.
Proof.
  intros H. apply search_parts_suffix in H as (p & t & -> & Ht).
  destruct (match_parts_sound _ _ _ _ Ht) as [Hf Hs].
  unfold re_dependency in Hf.
  inversion Hf as [|a1 x1 r1 ps1 Hx1 _]; subst.
  cbn [fits] in Hx1. subst x1.
  cbn [List.concat]. rewrite !length_app.
  change (List.length (u "<dependency>")) with 12%nat. lia.
Qed.

(** The bound on the number of iterations never cuts the loop short: any
    larger bound gives the same matches. *)
Lemma exec_all_enough_fuel (fuel1 fuel2 : nat) (s : jsstring) :
  (List.length s <= fuel1)%nat -> (List.length s <= fuel2)%nat ->
  exec_all fuel1 re_dependency s = exec_all fuel2 re_dependency s.
Proof.
  revert fuel2 s. induction fuel1 as [|fuel1 IH]; intros fuel2 s H1 H2.
  - destruct s; [|cbn in H1; lia]. destruct fuel2; reflexivity.
  - destruct fuel2 as [|fuel2].
    + destruct s; [reflexivity|cbn in H2; lia].
    + cbn [exec_all].
      destruct (search_parts re_dependency s) as [[ps rest]|] eqn:E;
        [|reflexivity].
      apply dependency_match_progress in E.
      f_equal. apply IH; lia.
Qed.

Lemma maven_packages_shape (content manifestFile : jsstring) :
  Forall (fun p => cleaned_package "Maven" manifestFile p /\
                   includes (u ":") (pkg_name p) = true)
    (Parsers.extractMavenPackages content manifestFile).
Proof.
  unfold Parsers.extractMavenPackages.
  apply (fold_pushes (fun l => l) (Parsers.maven_match manifestFile)
           (fun p => cleaned_package "Maven" manifestFile p /\
                     includes (u ":") (pkg_name p) = true)
           (maven_match_pushes manifestFile)
           (exec_all (List.length content) re_dependency content) []
           (Forall_nil _)).
Qed.

(** X27. Every package returned by [extractMavenPackages] has the
    ecosystem [Maven], the given manifest file, a name that contains a
    colon, and a non-empty version without whitespace; a pom.xml that
    does not contain the text [<dependency>] gives no package. *)
Theorem extractMavenPackages_shape :
  forall content manifestFile : jsstring,
    Forall (fun p => cleaned_package "Maven" manifestFile p /\
                     includes (u ":") (pkg_name p) = true)
      (Parsers.extractMavenPackages content manifestFile) /\
    (includes (u "<dependency>") content = false ->
     Parsers.extractMavenPackages content manifestFile = []).
Proof.
  intros content manifestFile. split; [apply maven_packages_shape|].
  intros H. unfold Parsers.extractMavenPackages.
  destruct (List.length content) as [|n]; [reflexivity|].
  cbn [exec_all]. unfold re_dependency.
  now rewrite search_parts_needs_literal.
Qed.

Lemma extractMavenPackages_shape_witness :
  Parsers.extractMavenPackages (u "<project><version>1.0</version></project>")
    (u "pom.xml") = [].
Proof.
  apply (proj2 (extractMavenPackages_shape
                  (u "<project><version>1.0</version></project>")
                  (u "pom.xml"))).
  reflexivity.
Defined.

(** ** Every package of a scan *)

Section AllPackages.

Context {rt : JsRuntime}.

(** X28. With the parsers of the source, every package extracted from a
    list of files has a non-empty version, names as its manifest file the
    path of one of the files, and carries the ecosystem that
    [detectManifestType] gives for that path. *)
Theorem extractAllPackages_provenance :
  forall files : list FileRec,
    Forall (extracted_from files)
      (extractAllPackages (parsers := source_parsers) files).
Proof.
  intros files. rewrite extractAllPackages_flat.
  apply Forall_forall. intros p Hp.
  apply in_flat_map in Hp as (file & Hfile & Hp).
  unfold extractPackagesFromManifest in Hp.
  destruct (detectManifestType (path file)) as [e|] eqn:E; [|destruct Hp].
  cbn [fst] in Hp.
  assert (forall eco name_ok version_ok,
             package_of eco (path file) name_ok version_ok p ->
             u eco = ecosystem_text e ->
             extracted_from files p) as Hshape.
  { intros eco name_ok version_ok (He & Hm & _ & _ & Hv & _) Heco.
    split; [exact Hv|]. exists file, e. repeat split; congruence. }
  destruct e; try destruct Hp.
  - pose proof (extractNpmPackages_cleaned (content file) (path file)) as H.
    rewrite Forall_forall in H. destruct (H p Hp) as (He & Hm & Hv & _).
    split; [exact Hv|]. exists file, Npm. repeat split; assumption.
  - destruct (python_packages_shape (content file) (path file)) as [H _].
    rewrite Forall_forall in H. exact (Hshape _ _ _ (H p Hp) eq_refl).
  - destruct (go_packages_shape (content file) (path file)) as [H _].
    rewrite Forall_forall in H. exact (Hshape _ _ _ (H p Hp) eq_refl).
  - destruct (rust_packages_shape (content file) (path file)) as [H _].
    rewrite Forall_forall in H. exact (Hshape _ _ _ (H p Hp) eq_refl).
  - pose proof (maven_packages_shape (content file) (path file)) as H.
    rewrite Forall_forall in H.
    destruct (H p Hp) as [(He & Hm & Hv & _) _].
    split; [exact Hv|]. exists file, Maven. repeat split; assumption.
Qed.

End AllPackages.

(** ** Requirement lines *)

(** A greedy repetition takes a whole run of the class when the text after
    the run does not start with a character of the class and the rest of
    the expression matches there. *)
Lemma many_greedy (p : char -> bool) (k : jsstring -> option parts)
    (xs rest : jsstring) (r : parts) :
  forallb p xs = true ->
  (forall c t, rest = c :: t -> p c = false) ->
  k rest = Some r ->
  many p k (xs ++ rest) = Some (xs, r).
Proof.
  intros Hxs Hstop Hk. induction xs as [|a xs IH]; cbn [app].
  - destruct rest as [|c t]; cbn [many].
    + now rewrite Hk.
    + rewrite (Hstop c t eq_refl). now rewrite Hk.
  - cbn [forallb] in Hxs. apply andb_true_iff in Hxs as [Ha Hxs].
    cbn [many]. rewrite Ha. now rewrite (IH Hxs).
Qed.

Lemma match_many_greedy (p : char -> bool) (re : list atom)
    (xs rest : jsstring) (ps : list jsstring) (t : jsstring) :
  forallb p xs = true ->
  (forall c t', rest = c :: t' -> p c = false) ->
  match_parts re rest = Some (ps, t) ->
  match_parts (Many p :: re) (xs ++ rest) = Some (xs :: ps, t).
Proof.
  intros Hxs Hstop Hk. cbn [match_parts].
  now rewrite (many_greedy p (match_parts re) xs rest (ps, t) Hxs Hstop Hk).
Qed.

Lemma match_many1_greedy (p : char -> bool) (re : list atom)
    (xs rest : jsstring) (ps : list jsstring) (t : jsstring) :
  xs <> [] ->
  forallb p xs = true ->
  (forall c t', rest = c :: t' -> p c = false) ->
  match_parts re rest = Some (ps, t) ->
  match_parts (Many1 p :: re) (xs ++ rest) = Some (xs :: ps, t).
Proof.
  intros Hne Hxs Hstop Hk. destruct xs as [|a xs]; [congruence|].
  cbn [forallb] in Hxs. apply andb_true_iff in Hxs as [Ha Hxs].
  cbn [app match_parts]. rewrite Ha.
  now rewrite (many_greedy p (match_parts re) xs rest (ps, t) Hxs Hstop Hk).
Qed.

Lemma name_char_cases (c : char) :
  is_name_char c = true ->
  (97 <= c <= 122)%N \/ (65 <= c <= 90)%N \/ (48 <= c <= 57)%N \/
  c = 95%N \/ c = 45%N.
Proof.
  unfold is_name_char, is_alnum, in_range, char_in. cbn [existsb].
  rewrite !orb_true_iff, !andb_true_iff, !N.leb_le, !N.eqb_eq.
  change (ch "_") with 95%N. change (ch "-") with 45%N.
  intuition lia.
Qed.

Lemma operator_char_cases (c : char) :
  is_operator_char c = true -> c = 61%N \/ c = 62%N \/ c = 60%N.
Proof.
  unfold is_operator_char, char_in. cbn [existsb].
  rewrite !orb_true_iff, !N.eqb_eq.
  change (ch "=") with 61%N. change (ch ">") with 62%N.
  change (ch "<") with 60%N.
  intuition lia.
Qed.

Lemma name_char_no_ws (c : char) : is_name_char c = true -> is_ws c = false.
Proof.
  intros H. apply name_char_cases in H.
  unfold is_ws, char_in. cbn [existsb].
  repeat (apply orb_false_intro; [apply N.eqb_neq; lia|]). reflexivity.
Qed.

Lemma operator_char_apart (c : char) :
  is_operator_char c = true -> is_name_char c = false /\ is_ws c = false.
Proof.
  intros H. destruct (operator_char_cases c H) as [-> | [-> | ->]];
    split; reflexivity.
Qed.

Lemma version_char_no_operator (c : char) :
  is_version_char c = true -> is_operator_char c = false.
Proof.
  intros H. destruct (version_char_cases c H) as [[H1 H2] | ->];
    [|reflexivity].
  unfold is_operator_char, char_in. cbn [existsb].
  change (ch "=") with 61%N. change (ch ">") with 62%N.
  change (ch "<") with 60%N.
  repeat (apply orb_false_intro; [apply N.eqb_neq; lia|]). reflexivity.
Qed.

Lemma split_on_single (sep : char) (s : jsstring) :
  forallb (fun c => negb (N.eqb c sep)) s = true -> split_on sep s = [s].
Proof.
  induction s as [|c s IH]; [reflexivity|].
  cbn [forallb split_on]. intros H. apply andb_true_iff in H as [Hc Hs].
  apply negb_true_iff in Hc. now rewrite Hc, (IH Hs).
Qed.

Lemma trim_bounded (s : jsstring) (a z : char) (m : jsstring) :
  s = a :: m -> (exists m', s = m' ++ [z]) ->
  is_ws a = false -> is_ws z = false -> trim s = s.
Proof.
  intros Ha [m' Hz] Hwa Hwz. unfold trim.
  replace (dropWhile is_ws s) with s
    by (rewrite Ha; cbn [dropWhile]; now rewrite Hwa).
  replace (dropWhile is_ws (rev s)) with (rev s).
  - apply rev_involutive.
  - rewrite Hz, rev_app_distr. cbn [rev app dropWhile]. now rewrite Hwz.
Qed.

Lemma requirement_match (name op ver : jsstring) :
  name <> [] -> forallb is_name_char name = true ->
  op <> [] -> forallb is_operator_char op = true ->
  ver <> [] -> forallb is_version_char ver = true ->
  match_parts re_requirement (name ++ op ++ ver)
  = Some ([name; []; op; []; ver], []).
Proof.
  intros Hn Hname Ho Hop Hv Hver. unfold re_requirement.
  assert (forall c t, op ++ ver = c :: t -> is_operator_char c = true) as Hhead.
  { intros c t E. destruct op as [|o op]; [congruence|].
    cbn [app] in E. injection E as <- _.
    cbn [forallb] in Hop. now apply andb_true_iff in Hop as [Hop _]. }
  assert (forall c t, ver = c :: t -> is_version_char c = true) as Hvhead.
  { intros c t ->. cbn [forallb] in Hver.
    now apply andb_true_iff in Hver as [Hver _]. }
  apply match_many1_greedy; [exact Hn|exact Hname| |].
  { intros c t E. now apply operator_char_apart, (Hhead c t). }
  apply (match_many_greedy is_ws _ [] (op ++ ver)); [reflexivity| |].
  { intros c t E. now apply operator_char_apart, (Hhead c t). }
  apply match_many1_greedy; [exact Ho|exact Hop| |].
  { intros c t E. now apply version_char_no_operator, (Hvhead c t). }
  apply (match_many_greedy is_ws _ [] ver); [reflexivity| |].
  { intros c t E. now apply version_char_no_ws, (Hvhead c t). }
  rewrite <- (app_nil_r ver) at 1.
  apply match_many1_greedy; [exact Hv|exact Hver| |reflexivity].
  intros c t E. discriminate.
Qed.

(** X29. A requirement made of a name, a run of the characters [=], [>]
    and [<], and a version of digits and dots gives exactly one package,
    with that name and that version: the operator is not looked at, so a
    bound such as [<2.0] is reported as the version [2.0]. *)
Theorem extractPythonPackages_requirement :
  forall name op ver manifestFile : jsstring,
    name <> [] -> forallb is_name_char name = true ->
    op <> [] -> forallb is_operator_char op = true ->
    ver <> [] -> forallb is_version_char ver = true ->
    Parsers.extractPythonPackages (name ++ op ++ ver) manifestFile
    = [package "PyPI" name ver manifestFile].
Proof.
  intros name op ver manifestFile Hn Hname Ho Hop Hv Hver.
  unfold Parsers.extractPythonPackages.
  rewrite split_on_single.
  2:{ rewrite !forallb_app. rewrite !andb_true_iff. repeat split.
      - apply forallb_forall. intros c Hc.
        rewrite forallb_forall in Hname.
        pose proof (name_char_no_ws c (Hname c Hc)) as Hw.
        destruct (N.eqb c 10) eqn:E; [|reflexivity].
        apply N.eqb_eq in E. subst c. discriminate.
      - apply forallb_forall. intros c Hc.
        rewrite forallb_forall in Hop.
        destruct (operator_char_apart c (Hop c Hc)) as [_ Hw].
        destruct (N.eqb c 10) eqn:E; [|reflexivity].
        apply N.eqb_eq in E. subst c. discriminate.
      - apply forallb_forall. intros c Hc.
        rewrite forallb_forall in Hver.
        pose proof (version_char_no_ws c (Hver c Hc)) as Hw.
        destruct (N.eqb c 10) eqn:E; [|reflexivity].
        apply N.eqb_eq in E. subst c. discriminate. }
  cbn [fold_left]. unfold Parsers.python_line.
  destruct name as [|a name'] eqn:En; [congruence|]. rewrite <- En in *.
  assert (is_name_char a = true) as Ha.
  { rewrite En in Hname. cbn [forallb] in Hname.
    now apply andb_true_iff in Hname as [Hname _]. }
  destruct (exists_last Hv) as (ver' & z & Ez).
  assert (is_version_char z = true) as Hz.
  { rewrite forallb_forall in Hver. apply Hver. rewrite Ez.
    apply in_or_app. right. now left. }
  rewrite (trim_bounded (name ++ op ++ ver) a z (name' ++ op ++ ver)).
  2:{ now rewrite En. }
  2:{ exists (name ++ op ++ ver'). rewrite Ez. now rewrite <- !app_assoc. }
  2:{ now apply name_char_no_ws. }
  2:{ now apply version_char_no_ws. }
  replace (negb (truthy (name ++ op ++ ver))
           || starts_with (u "#") (name ++ op ++ ver)) with false.
  2:{ rewrite En. change (u "#") with [35%N].
      cbn [app truthy negb orb starts_with].
      destruct (N.eqb 35 a) eqn:E; [|reflexivity].
      apply N.eqb_eq in E. subst a. discriminate. }
  rewrite (requirement_match name op ver Hn Hname Ho Hop Hv Hver).
  rewrite (cleanVersion_version_text ver Hver).
  destruct ver as [|v0 ver0]; [congruence|]. reflexivity.
Qed.

Lemma extractPythonPackages_requirement_witness :
  Parsers.extractPythonPackages (u "flask" ++ u "<" ++ u "2.0")
    (u "requirements.txt")
  = [package "PyPI" (u "flask") (u "2.0") (u "requirements.txt")].
Proof.
  apply extractPythonPackages_requirement;
    solve [discriminate | reflexivity].
Defined.

Lemma split_on_nonempty (sep : char) (s : jsstring) : split_on sep s <> [].
Proof.
  destruct s as [|c s]; cbn [split_on]; [discriminate|].
  destruct (N.eqb c sep); [discriminate|].
  destruct (split_on sep s); discriminate.
Qed.

Lemma split_on_app (sep : char) (a b : jsstring) :
  split_on sep (a ++ sep :: b) = split_on sep a ++ split_on sep b.
Proof.
  induction a as [|c a IH]; cbn [app split_on].
  - now rewrite N.eqb_refl.
  - destruct (N.eqb c sep); rewrite IH; [reflexivity|].
    pose proof (split_on_nonempty sep a) as Hne.
    destruct (split_on sep a) as [|l ls]; [congruence|]. reflexivity.
Qed.

Lemma python_line_appends (manifestFile : jsstring)
    (packages : list PackageInfo) (line : jsstring) :
  Parsers.python_line manifestFile packages line
  = packages ++ Parsers.python_line manifestFile [] line.
Proof.
  unfold Parsers.python_line.
  destruct (negb (truthy (trim line)) || starts_with (u "#") (trim line));
    [now rewrite app_nil_r|].
  destruct (match_parts re_requirement (trim line)) as [[ps rest]|];
    [|now rewrite app_nil_r].
  do 5 (destruct ps as [|? ps]; [now rewrite app_nil_r|]).
  destruct ps; [|now rewrite app_nil_r].
  destruct (truthy (cleanVersion (Some j3))); [reflexivity|].
  now rewrite app_nil_r.
Qed.

Lemma python_lines_append (manifestFile : jsstring) (lines : list jsstring)
    (packages : list PackageInfo) :
  fold_left (Parsers.python_line manifestFile) lines packages
  = packages ++ fold_left (Parsers.python_line manifestFile) lines [].
Proof.
  revert packages. induction lines as [|l ls IH]; intros packages;
    cbn [fold_left]; [now rewrite app_nil_r|].
  rewrite (IH (Parsers.python_line manifestFile packages l)).
  rewrite (IH (Parsers.python_line manifestFile [] l)).
  rewrite (python_line_appends manifestFile packages l).
  now rewrite app_assoc.
Qed.

(** X30. [extractPythonPackages] reads each line on its own: the packages
    of two texts joined by a line feed are the packages of the first
    followed by the packages of the second. *)
Theorem extractPythonPackages_line_by_line :
  forall content1 content2 manifestFile : jsstring,
    Parsers.extractPythonPackages (content1 ++ 10%N :: content2) manifestFile
    = Parsers.extractPythonPackages content1 manifestFile
      ++ Parsers.extractPythonPackages content2 manifestFile.
Proof.
  intros content1 content2 manifestFile.
  unfold Parsers.extractPythonPackages.
  rewrite split_on_app, fold_left_app.
  apply python_lines_append.
Qed.
